(** * Kaizen Blitz: the persistence and domain-aggregation layer

    A shallow embedding of the entity model ([models/*.py]), of the generic
    repository ([database/repositories/base_repository.py]) and of the
    completion transition of the artifact views ([ui/views/*_view.py]),
    together with the properties the specification states about them; and,
    beyond those, of the project queries, the creation of records, the
    saving of an analysis, the table of tasks, the project wizard and the
    validation utilities, with properties read off the code. *)

From stdpp Require Import base option list strings gmap.
From Stdlib Require Import ZArith Lia Floats.SpecFloat.

Local Open Scope Z_scope.

(** ** Python values used by the models *)

(** A Python [str] is a sequence of Unicode code points (surrogates
    included: Python does not forbid them). *)
Definition codepoint := Z.
Definition str := list codepoint.

(** Truthiness of the values the models test with [if x:] / [if not x:]. *)
Definition truthy_str (s : str) : bool :=
  match s with [] => false | _ :: _ => true end.

Definition truthy_opt_str (o : option str) : bool :=
  match o with None => false | Some s => truthy_str s end.

Definition truthy_opt_bool (o : option bool) : bool :=
  match o with Some true => true | _ => false end.

Definition truthy_list {A} (l : list A) : bool :=
  match l with [] => false | _ :: _ => true end.

(** ** Outcomes of Python calls *)

(** The exceptions that reach the callers: those of Python and of [json],
    the [OverflowError] of [sqlite3], and those of SQLAlchemy (an
    [IntegrityError] for a constraint of the database, an [ArgumentError] or
    an [InvalidRequestError] for a comparison that a relationship refuses, a
    [StatementError] for a parameter that the type of its column refuses). *)
Inductive exn : Type :=
| JSONDecodeError
| TypeError
| RecursionError
| ValueError
| OverflowError
| IntegrityError
| ArgumentError
| InvalidRequestError
| StatementError.

Inductive outcome (A : Type) : Type :=
| Returns (a : A)
| Raises (e : exn).
Arguments Returns {A} a.
Arguments Raises {A} e.

(** ** Python floats: IEEE 754 binary64, round to nearest even *)

Module PyFloat.

Definition prec : Z := 53.
Definition emax : Z := 1024.

Definition float := spec_float.

(** [float(n)] for an [int]: the nearest binary64 value. *)
Definition of_int (n : Z) : float := binary_normalize prec emax n 0 false.

(** [a / b] on two [int]s (true division); the caller excludes [b = 0].
    For operands below 2^53, which list lengths always are, CPython divides
    the two exactly converted doubles. *)
Definition int_truediv (a b : Z) : float :=
  SFdiv prec emax (of_int a) (of_int b).

(** [x * n] for a float [x] and an int [n]: [n] is converted first. *)
Definition mul_int (x : float) (n : Z) : float :=
  SFmul prec emax x (of_int n).

(** [int(x)]: truncation toward zero; Python raises [ValueError] on nan and
    [OverflowError] on an infinity. *)
Definition to_int (x : float) : outcome Z :=
  match x with
  | S754_zero _ => Returns 0
  | S754_finite s m e =>
      let a := if 0 <=? e then Z.pos m * 2 ^ e else Z.pos m / 2 ^ (- e) in
      Returns (if s then - a else a)
  | S754_nan => Raises ValueError
  | S754_infinity _ => Raises OverflowError
  end.

End PyFloat.

(** ** The [json] module, as the models use it

    [json.dumps] on a list of strings (default options: [ensure_ascii], a
    comma and a space between items) and [json.loads] on a [str].  The
    grammar is the one of CPython's scanner ([json/scanner.py],
    [json/decoder.py] and their [_json] accelerator). *)

Module Json.

(** The value [json.loads] returns.  A number keeps the integer it denotes
    or, for a float, the text it was read from; an object is the [dict]
    built from its pairs. *)
#[warnings="-register-all"]
Inductive value : Type :=
| JNull
| JBool (b : bool)
| JInt (n : Z)
| JFloat (lexeme : str)
| JStr (s : str)
| JArr (items : list value)
| JObj (pairs : list (str * value)).

(** *** Characters *)

Definition QUOTE : codepoint := 34.
Definition BACKSLASH : codepoint := 92.
Definition COMMA : codepoint := 44.
Definition COLON : codepoint := 58.
Definition SPACE : codepoint := 32.
Definition LBRACKET : codepoint := 91.
Definition RBRACKET : codepoint := 93.
Definition LBRACE : codepoint := 123.
Definition RBRACE : codepoint := 125.

(** The code points of an ASCII literal. *)
Definition lit (s : string) : str :=
  map (fun a => Z.of_N (Ascii.N_of_ascii a)) (String.list_ascii_of_string s).

Definition str_eqb (a b : str) : bool :=
  bool_decide (a = b).

(** *** Encoder: [encode_basestring_ascii] and [dumps] *)

(** ['{0:04x}'.format(n)], for the 16-bit values the encoder formats. *)
Definition hex_digit (d : Z) : codepoint :=
  if d <? 10 then 48 + d else 87 + d.

Definition hex4 (n : Z) : str :=
  [ hex_digit (Z.shiftr n 12 mod 16); hex_digit (Z.shiftr n 8 mod 16);
    hex_digit (Z.shiftr n 4 mod 16); hex_digit (n mod 16) ].

Definition u_escape (n : Z) : str := BACKSLASH :: 117 :: hex4 n.

(** [ESCAPE_ASCII]: a backslash, a double quote, or anything outside the
    printable ASCII range from space to tilde is replaced. *)
Definition needs_escape (c : codepoint) : bool :=
  (c =? BACKSLASH) || (c =? QUOTE) || negb ((32 <=? c) && (c <=? 126)).

(** [ESCAPE_DCT]: the short escapes, then [\u00XX] for the other controls. *)
Definition ESCAPE_DCT (c : codepoint) : option str :=
  if c =? BACKSLASH then Some [BACKSLASH; BACKSLASH]
  else if c =? QUOTE then Some [BACKSLASH; QUOTE]
  else if c =? 8 then Some [BACKSLASH; 98]
  else if c =? 12 then Some [BACKSLASH; 102]
  else if c =? 10 then Some [BACKSLASH; 110]
  else if c =? 13 then Some [BACKSLASH; 114]
  else if c =? 9 then Some [BACKSLASH; 116]
  else if (0 <=? c) && (c <? 32) then Some (u_escape c)
  else None.

(** The [replace] callback of [py_encode_basestring_ascii]. *)
Definition replace (c : codepoint) : str :=
  match ESCAPE_DCT c with
  | Some e => e
  | None =>
      if c <? 65536 then u_escape c
      else
        let n := c - 65536 in
        let s1 := Z.lor 55296 (Z.land (Z.shiftr n 10) 1023) in
        let s2 := Z.lor 56320 (Z.land n 1023) in
        u_escape s1 ++ u_escape s2
  end.

Definition escape_char (c : codepoint) : str :=
  if needs_escape c then replace c else [c].

Definition encode_basestring_ascii (s : str) : str :=
  QUOTE :: flat_map escape_char s ++ [QUOTE].

(** [json.dumps(lst)] for a list of [str]: the two brackets when empty,
    otherwise the items between brackets, separated by a comma and a
    space. *)
Definition dumps (lst : list str) : str :=
  match lst with
  | [] => [LBRACKET; RBRACKET]
  | x :: xs =>
      LBRACKET :: encode_basestring_ascii x
        ++ flat_map (fun s => COMMA :: SPACE :: encode_basestring_ascii s) xs
        ++ [RBRACKET]
  end.

(** *** Decoder *)

(** [WHITESPACE = [ \t\n\r]*]. *)
Definition is_ws (c : codepoint) : bool :=
  (c =? 32) || (c =? 9) || (c =? 10) || (c =? 13).

Fixpoint skip_ws (s : str) : str :=
  match s with
  | c :: r => if is_ws c then skip_ws r else s
  | [] => []
  end.

Definition is_digit (c : codepoint) : bool := (48 <=? c) && (c <=? 57).

Definition hex_value (c : codepoint) : option Z :=
  if (48 <=? c) && (c <=? 57) then Some (c - 48)
  else if (97 <=? c) && (c <=? 102) then Some (c - 87)
  else if (65 <=? c) && (c <=? 70) then Some (c - 55)
  else None.

(** [_decode_uXXXX]: four hexadecimal digits, or the escape is invalid. *)
Definition decode_uXXXX (h1 h2 h3 h4 : codepoint) : option Z :=
  match hex_value h1, hex_value h2, hex_value h3, hex_value h4 with
  | Some a, Some b, Some c, Some d => Some (((a * 16 + b) * 16 + c) * 16 + d)
  | _, _, _, _ => None
  end.

(** [BACKSLASH]: the one-letter escapes. *)
Definition BACKSLASH_DCT (c : codepoint) : option codepoint :=
  if c =? QUOTE then Some QUOTE
  else if c =? BACKSLASH then Some BACKSLASH
  else if c =? 47 then Some 47
  else if c =? 98 then Some 8
  else if c =? 102 then Some 12
  else if c =? 110 then Some 10
  else if c =? 114 then Some 13
  else if c =? 116 then Some 9
  else None.

Definition is_high_surrogate (u : Z) : bool := (55296 <=? u) && (u <=? 56319).
Definition is_low_surrogate (u : Z) : bool := (56320 <=? u) && (u <=? 57343).

Definition join_surrogates (u u2 : Z) : codepoint :=
  65536 + Z.lor (Z.shiftl (u - 55296) 10) (u2 - 56320).

Definition push (c : codepoint) (r : option (str * str)) : option (str * str) :=
  match r with
  | Some (t, rest) => Some (c :: t, rest)
  | None => None
  end.

(** [scanstring] in strict mode, entered after the opening quote: the
    decoded string and the text after the closing quote, or [None] for a
    [JSONDecodeError] (unterminated string, control character, invalid
    escape). *)
Fixpoint scanstring (s : str) : option (str * str) :=
  match s with
  | [] => None
  | c :: r =>
      if c =? QUOTE then Some ([], r)
      else if c =? BACKSLASH then
        match r with
        | [] => None
        | esc :: r1 =>
            if esc =? 117 then
              match r1 with
              | h1 :: h2 :: h3 :: h4 :: r5 =>
                  match decode_uXXXX h1 h2 h3 h4 with
                  | None => None
                  | Some uni =>
                      if is_high_surrogate uni then
                        match r5 with
                        | b :: u :: r7 =>
                            if (b =? BACKSLASH) && (u =? 117) then
                              match r7 with
                              | k1 :: k2 :: k3 :: k4 :: r11 =>
                                  match decode_uXXXX k1 k2 k3 k4 with
                                  | None => None
                                  | Some uni2 =>
                                      if is_low_surrogate uni2
                                      then push (join_surrogates uni uni2) (scanstring r11)
                                      else push uni (scanstring r5)
                                  end
                              | _ => None
                              end
                            else push uni (scanstring r5)
                        | _ => push uni (scanstring r5)
                        end
                      else push uni (scanstring r5)
                  end
              | _ => None
              end
            else
              match BACKSLASH_DCT esc with
              | Some ch => push ch (scanstring r1)
              | None => None
              end
        end
      else if (0 <=? c) && (c <? 32) then None
      else push c (scanstring r)
  end.

(** *** Numbers and constants *)

Fixpoint span_digits (s : str) : str * str :=
  match s with
  | c :: r =>
      if is_digit c then let (ds, rest) := span_digits r in (c :: ds, rest)
      else ([], s)
  | [] => ([], [])
  end.

(** [int(digits)] for a run of ASCII digits. *)
Definition digits_value (ds : str) : Z :=
  fold_left (fun acc d => acc * 10 + (d - 48)) ds 0.

(** The optional fraction of [NUMBER_RE]: a dot and at least one digit. *)
Definition match_frac (s : str) : str * str :=
  match s with
  | c :: r =>
      if c =? 46 then
        match span_digits r with
        | ([], _) => ([], s)
        | (fs, rest) => (c :: fs, rest)
        end
      else ([], s)
  | [] => ([], [])
  end.

(** The optional exponent of [NUMBER_RE]: e or E, an optional sign and at
    least one digit. *)
Definition match_exp (s : str) : str * str :=
  match s with
  | c :: r =>
      if (c =? 101) || (c =? 69) then
        let '(sg, r') :=
          match r with
          | d :: t => if (d =? 43) || (d =? 45) then ([d], t) else ([], r)
          | [] => ([], [])
          end in
        match span_digits r' with
        | ([], _) => ([], s)
        | (es, rest) => (c :: sg ++ es, rest)
        end
      else ([], s)
  | [] => ([], [])
  end.

(** The integer part of [NUMBER_RE] after the optional minus sign: a single
    zero, or a non-zero digit followed by digits. *)
Definition match_int (s : str) : option (str * str) :=
  match s with
  | d :: r =>
      if d =? 48 then Some ([d], r)
      else if (49 <=? d) && (d <=? 57) then
        let (ds, rest) := span_digits r in Some (d :: ds, rest)
      else None
  | [] => None
  end.

(** [match_number] and the conversion of the match: an [int] when there is
    neither fraction nor exponent, a [float] otherwise. *)
Definition match_number (s : str) : option (value * str) :=
  let '(neg, s1) :=
    match s with
    | c :: r => if c =? 45 then (true, r) else (false, s)
    | [] => (false, [])
    end in
  match match_int s1 with
  | None => None
  | Some (ip, rest) =>
      let '(frac, rest1) := match_frac rest in
      let '(exp, rest2) := match_exp rest1 in
      match frac, exp with
      | [], [] =>
          Some (JInt (if neg then - digits_value ip else digits_value ip), rest2)
      | _, _ =>
          Some (JFloat ((if neg then [45] else []) ++ ip ++ frac ++ exp), rest2)
      end
  end.

(** [int()] refuses a literal of more than [sys.get_int_max_str_digits()]
    digits, 4300 unless changed, with a [ValueError]. *)
Definition MAX_STR_DIGITS : nat := 4300.

(** The number of digits of the integer part of the number that [s] starts
    with: what [int()] is given when there is neither fraction nor
    exponent. *)
Definition integer_digits (s : str) : nat :=
  let s1 :=
    match s with
    | c :: r => if c =? 45 then r else s
    | [] => []
    end in
  match match_int s1 with
  | Some (ip, _) => length ip
  | None => 0%nat
  end.

Fixpoint strip_prefix (p s : str) : option str :=
  match p, s with
  | [], _ => Some s
  | a :: p', b :: s' => if a =? b then strip_prefix p' s' else None
  | _ :: _, [] => None
  end.

(** The branches of [_scan_once] that do not recurse, in their order:
    null, true, false, a number, NaN, Infinity, -Infinity. *)
Definition scan_atom (s : str) : option (value * str) :=
  match strip_prefix (lit "null") s with
  | Some rest => Some (JNull, rest)
  | None =>
  match strip_prefix (lit "true") s with
  | Some rest => Some (JBool true, rest)
  | None =>
  match strip_prefix (lit "false") s with
  | Some rest => Some (JBool false, rest)
  | None =>
  match match_number s with
  | Some r => Some r
  | None =>
  match strip_prefix (lit "NaN") s with
  | Some rest => Some (JFloat (lit "NaN"), rest)
  | None =>
  match strip_prefix (lit "Infinity") s with
  | Some rest => Some (JFloat (lit "Infinity"), rest)
  | None =>
  match strip_prefix (lit "-Infinity") s with
  | Some rest => Some (JFloat (lit "-Infinity"), rest)
  | None => None
  end end end end end end end.

(** *** Arrays, objects and the scanner *)

(** [dict(pairs)]: a repeated key keeps its first position and takes the
    last value. *)
Fixpoint dict_set (k : str) (v : value) (d : list (str * value))
  : list (str * value) :=
  match d with
  | [] => [(k, v)]
  | (k', v') :: d' =>
      if str_eqb k k' then (k, v) :: d' else (k', v') :: dict_set k v d'
  end.

Definition dict_of_pairs (ps : list (str * value)) : list (str * value) :=
  fold_left (fun d kv => dict_set (fst kv) (snd kv) d) ps [].

(** The result of a scanning step: a value and the text after it, a
    [JSONDecodeError], another exception (a [RecursionError] or a
    [ValueError]), or the budget of steps exhausted. *)
Inductive parsed (A : Type) : Type :=
| Parsed (a : A) (rest : str)
| Malformed
| Aborted (e : exn)
| OutOfFuel.
Arguments Parsed {A} a rest.
Arguments Malformed {A}.
Arguments Aborted {A} e.
Arguments OutOfFuel {A}.

(** [scan_once] dispatches on the next character; [array_items] is the
    loop of [JSONArray] entered at the first item, [object_items] the loop
    of [JSONObject] entered at the first key.  The scanner enters a
    recursive call for every array and every object it opens
    ([Py_EnterRecursiveCall]), and raises a [RecursionError] when none is
    left: [depth] is the number of calls that are left.  [fuel] bounds the
    number of steps. *)
Fixpoint scan_once (fuel : nat) (depth : nat) (s : str) {struct fuel}
  : parsed value :=
  match fuel with
  | O => OutOfFuel
  | S n =>
      match s with
      | [] => Malformed
      | c :: r =>
          if c =? QUOTE then
            match scanstring r with
            | Some (t, rest) => Parsed (JStr t) rest
            | None => Malformed
            end
          else if c =? LBRACE then
            match depth with
            | O => Aborted RecursionError
            | S inner =>
                match skip_ws r with
                | d :: r' =>
                    if d =? RBRACE then Parsed (JObj []) r'
                    else
                      match object_items n inner (d :: r') with
                      | Parsed ps rest => Parsed (JObj (dict_of_pairs ps)) rest
                      | Malformed => Malformed
                      | Aborted e => Aborted e
                      | OutOfFuel => OutOfFuel
                      end
                | [] => Malformed
                end
            end
          else if c =? LBRACKET then
            match depth with
            | O => Aborted RecursionError
            | S inner =>
                match skip_ws r with
                | d :: r' =>
                    if d =? RBRACKET then Parsed (JArr []) r'
                    else
                      match array_items n inner (d :: r') with
                      | Parsed vs rest => Parsed (JArr vs) rest
                      | Malformed => Malformed
                      | Aborted e => Aborted e
                      | OutOfFuel => OutOfFuel
                      end
                | [] => Malformed
                end
            end
          else
            match scan_atom s with
            | Some (v, rest) =>
                match v with
                | JInt _ =>
                    if (MAX_STR_DIGITS <? integer_digits s)%nat
                    then Aborted ValueError
                    else Parsed v rest
                | _ => Parsed v rest
                end
            | None => Malformed
            end
      end
  end

with array_items (fuel : nat) (depth : nat) (s : str) {struct fuel}
  : parsed (list value) :=
  match fuel with
  | O => OutOfFuel
  | S n =>
      match scan_once n depth s with
      | Parsed v rest =>
          match skip_ws rest with
          | c :: r =>
              if c =? RBRACKET then Parsed [v] r
              else if c =? COMMA then
                match array_items n depth (skip_ws r) with
                | Parsed vs rest' => Parsed (v :: vs) rest'
                | Malformed => Malformed
                | Aborted e => Aborted e
                | OutOfFuel => OutOfFuel
                end
              else Malformed
          | [] => Malformed
          end
      | Malformed => Malformed
      | Aborted e => Aborted e
      | OutOfFuel => OutOfFuel
      end
  end

with object_items (fuel : nat) (depth : nat) (s : str) {struct fuel}
  : parsed (list (str * value)) :=
  match fuel with
  | O => OutOfFuel
  | S n =>
      match s with
      | q :: r =>
          if q =? QUOTE then
            match scanstring r with
            | Some (key, rest) =>
                match skip_ws rest with
                | col :: r2 =>
                    if col =? COLON then
                      match scan_once n depth (skip_ws r2) with
                      | Parsed v rest3 =>
                          match skip_ws rest3 with
                          | d :: r5 =>
                              if d =? RBRACE then Parsed [(key, v)] r5
                              else if d =? COMMA then
                                match object_items n depth (skip_ws r5) with
                                | Parsed ps rest6 => Parsed ((key, v) :: ps) rest6
                                | Malformed => Malformed
                                | Aborted e => Aborted e
                                | OutOfFuel => OutOfFuel
                                end
                              else Malformed
                          | [] => Malformed
                          end
                      | Malformed => Malformed
                      | Aborted e => Aborted e
                      | OutOfFuel => OutOfFuel
                      end
                    else Malformed
                | [] => Malformed
                end
            | None => Malformed
            end
          else Malformed
      | [] => Malformed
      end
  end.

(** [json.loads(s)] when [depth] recursive calls are left: a leading
    byte-order mark is refused, white space is skipped on both sides of the
    one value, and anything left over is an error.  The budget of
    [2 * len(s) + 1] steps is never exhausted. *)
Definition loads (depth : nat) (s : str) : outcome value :=
  match s with
  | 65279 :: _ => Raises JSONDecodeError
  | _ =>
      match scan_once (2 * List.length s + 1) depth (skip_ws s) with
      | Parsed v rest =>
          match skip_ws rest with
          | [] => Returns v
          | _ :: _ => Raises JSONDecodeError
          end
      | Malformed => Raises JSONDecodeError
      | Aborted e => Raises e
      | OutOfFuel => Raises RecursionError
      end
  end.

End Json.

(** [sys.getrecursionlimit()], which the application leaves at its default.
    The frames in use at the call count against the limit as well, so that
    a call has this many recursive calls left at most. *)
Definition RECURSION_LIMIT : nat := 1000.

(** [json.loads(s)], with the whole of the limit left. *)
Definition json_loads (s : str) : outcome Json.value :=
  Json.loads RECURSION_LIMIT s.

Definition json_dumps (lst : list str) : str := Json.dumps lst.

(** [list.extend(x)]: a list gives its items, a [str] its characters, a
    [dict] its keys; [None], a [bool] or a number is not iterable. *)
Definition list_extend (l : list Json.value) (x : Json.value)
  : outcome (list Json.value) :=
  match x with
  | Json.JArr items => Returns (l ++ items)
  | Json.JStr s => Returns (l ++ map (fun c => Json.JStr [c]) s)
  | Json.JObj pairs => Returns (l ++ map (fun kv => Json.JStr (fst kv)) pairs)
  | Json.JNull | Json.JBool _ | Json.JInt _ | Json.JFloat _ => Raises TypeError
  end.

(** ** Entity model *)

Inductive ProjectStatus := IN_PROGRESS | COMPLETED | ON_HOLD | CANCELLED.
Inductive KaizenPhase :=
  PREPARATION | ANALYSIS | IMPROVEMENT | IMPLEMENTATION | REVIEW.

(** [models/five_whys.py].  An attribute that was never assigned is [None]. *)
Module FiveWhys.

Record t := mk {
  id : option str;
  project_id : option str;
  problem_statement : option str;
  why_1 : option str;
  why_2 : option str;
  why_3 : option str;
  why_4 : option str;
  why_5 : option str;
  additional_whys : option str;  (* JSON array for whys beyond 5 *)
  root_cause : option str;
  is_completed : option bool
}.

(** [getattr(self, f"why_{i}")] for [i] in [range(1, 6)]. *)
Definition getattr_why (self : t) (i : Z) : option str :=
  if i =? 1 then why_1 self
  else if i =? 2 then why_2 self
  else if i =? 3 then why_3 self
  else if i =? 4 then why_4 self
  else why_5 self.

Definition get_all_whys (self : t) : outcome (list Json.value) :=
  let whys :=
    fold_left
      (fun whys i =>
         match getattr_why self i with
         | Some why => if truthy_str why then whys ++ [Json.JStr why] else whys
         | None => whys
         end)
      [1; 2; 3; 4; 5] [] in
  match additional_whys self with
  | Some blob =>
      if truthy_str blob then
        match json_loads blob with
        | Returns additional => list_extend whys additional
        | Raises JSONDecodeError => Returns whys
        | Raises e => Raises e
        end
      else Returns whys
  | None => Returns whys
  end.

Definition set_additional_whys (self : t) (whys : list str) : t :=
  mk (id self) (project_id self) (problem_statement self)
     (why_1 self) (why_2 self) (why_3 self) (why_4 self) (why_5 self)
     (Some (json_dumps whys)) (root_cause self) (is_completed self).

Definition get_additional_whys (self : t) : outcome Json.value :=
  if negb (truthy_opt_str (additional_whys self)) then Returns (Json.JArr [])
  else
    match additional_whys self with
    | Some blob =>
        match json_loads blob with
        | Returns v => Returns v
        | Raises JSONDecodeError => Returns (Json.JArr [])
        | Raises e => Raises e
        end
    | None => Returns (Json.JArr [])
    end.

End FiveWhys.

(** [models/ishikawa.py]. *)
Module IshikawaCategory.

Record t := mk {
  id : option str;
  diagram_id : option str;
  name : option str;
  causes : option str;  (* JSON array of causes *)
  order : option Z
}.

Definition get_causes_list (self : t) : outcome Json.value :=
  if negb (truthy_opt_str (causes self)) then Returns (Json.JArr [])
  else
    match causes self with
    | Some blob =>
        match json_loads blob with
        | Returns v => Returns v
        | Raises JSONDecodeError => Returns (Json.JArr [])
        | Raises e => Raises e
        end
    | None => Returns (Json.JArr [])
    end.

Definition set_causes_list (self : t) (l : list str) : t :=
  mk (id self) (diagram_id self) (name self) (Some (json_dumps l)) (order self).

End IshikawaCategory.

Module IshikawaDiagram.

Record t := mk {
  id : option str;
  project_id : option str;
  problem_statement : option str;
  is_completed : option bool;
  categories : list IshikawaCategory.t
}.

End IshikawaDiagram.

(** [models/action_plan.py]. *)
Module ActionPlan.

Record t := mk {
  id : option str;
  project_id : option str;
  is_completed : option bool
}.

End ActionPlan.

(** [models/project.py]. *)
Module Project.

Record t := mk {
  id : option str;
  name : option str;
  description : option str;
  target_area : option str;
  start_date : option Z;  (* dates as day numbers *)
  expected_completion_date : option Z;
  actual_completion_date : option Z;
  status : option ProjectStatus;
  progress_percentage : option Z;
  team_members : option str;  (* JSON string *)
  current_phase : option KaizenPhase;
  five_whys : list FiveWhys.t;
  ishikawa_diagrams : list IshikawaDiagram.t;
  action_plans : list ActionPlan.t
}.

Definition get_team_members (self : t) : outcome Json.value :=
  if negb (truthy_opt_str (team_members self)) then Returns (Json.JArr [])
  else
    match team_members self with
    | Some blob =>
        match json_loads blob with
        | Returns v => Returns v
        | Raises JSONDecodeError => Returns (Json.JArr [])
        | Raises e => Raises e
        end
    | None => Returns (Json.JArr [])
    end.

Definition set_team_members (self : t) (members : list str) : t :=
  mk (id self) (name self) (description self) (target_area self)
     (start_date self) (expected_completion_date self) (actual_completion_date self)
     (status self) (progress_percentage self) (Some (json_dumps members))
     (current_phase self)
     (five_whys self) (ishikawa_diagrams self) (action_plans self).

Definition set_progress_percentage (self : t) (p : Z) : t :=
  mk (id self) (name self) (description self) (target_area self)
     (start_date self) (expected_completion_date self) (actual_completion_date self)
     (status self) (Some p) (team_members self) (current_phase self)
     (five_whys self) (ishikawa_diagrams self) (action_plans self).

(** [sum(1 for x in xs if x.is_completed)]. *)
Definition count_completed {A} (flag : A -> option bool) (xs : list A) : Z :=
  Z.of_nat (length (filter (fun x => truthy_opt_bool (flag x) = true) xs)).

Definition len {A} (xs : list A) : Z := Z.of_nat (length xs).

(** [calculate_progress]: the value returned (or the exception of [int()])
    and the project as the call leaves it. *)
Definition calculate_progress (self : t) : outcome Z * t :=
  let completed_count := 0 in
  let total_count := 0 in
  (* Count Five Whys *)
  let '(total_count, completed_count) :=
    if truthy_list (five_whys self)
    then (total_count + len (five_whys self),
          completed_count + count_completed FiveWhys.is_completed (five_whys self))
    else (total_count, completed_count) in
  (* Count Ishikawa diagrams *)
  let '(total_count, completed_count) :=
    if truthy_list (ishikawa_diagrams self)
    then (total_count + len (ishikawa_diagrams self),
          completed_count
          + count_completed IshikawaDiagram.is_completed (ishikawa_diagrams self))
    else (total_count, completed_count) in
  (* Count Action plans *)
  let '(total_count, completed_count) :=
    if truthy_list (action_plans self)
    then (total_count + len (action_plans self),
          completed_count + count_completed ActionPlan.is_completed (action_plans self))
    else (total_count, completed_count) in
  if total_count =? 0 then (Returns 0, self)
  else
    match PyFloat.to_int
            (PyFloat.mul_int (PyFloat.int_truediv completed_count total_count) 100)
    with
    | Returns progress => (Returns progress, set_progress_percentage self progress)
    | Raises e => (Raises e, self)
    end.

End Project.

(** ** The backing store *)

(** A stored cell.  Booleans are stored as the integers 0 and 1, enumeration
    members by their text. *)
Inductive sqlvalue : Type :=
| NULL
| INTEGER (n : Z)
| TEXT (s : str).

#[global] Instance sqlvalue_eq_dec : EqDecision sqlvalue.
Proof. solve_decision. Defined.

(** A row maps column names to cells; a column without an entry is NULL. *)
Definition row : Type := gmap string sqlvalue.

Definition column (r : row) (key : string) : sqlvalue := default NULL (r !! key).

(** The mapped classes, one table each. *)
Inductive model : Type :=
| ProjectModel
| FiveWhysModel
| IshikawaDiagramModel
| IshikawaCategoryModel
| ActionPlanModel
| ActionPlanTaskModel.

#[global] Instance model_eq_dec : EqDecision model.
Proof. solve_decision. Defined.

Definition tablename (m : model) : string :=
  match m with
  | ProjectModel => "projects"
  | FiveWhysModel => "five_whys"
  | IshikawaDiagramModel => "ishikawa_diagrams"
  | IshikawaCategoryModel => "ishikawa_categories"
  | ActionPlanModel => "action_plans"
  | ActionPlanTaskModel => "action_plan_tasks"
  end.

(** The columns of [BaseModel] and of each mapped class. *)
Definition base_columns : list string := ["id"; "created_at"; "updated_at"].

Definition columns (m : model) : list string :=
  base_columns ++
  match m with
  | ProjectModel =>
      ["name"; "description"; "target_area"; "start_date";
       "expected_completion_date"; "actual_completion_date"; "status";
       "progress_percentage"; "team_members"; "current_phase"]
  | FiveWhysModel =>
      ["project_id"; "problem_statement"; "why_1"; "why_2"; "why_3"; "why_4";
       "why_5"; "additional_whys"; "root_cause"; "is_completed"]
  | IshikawaDiagramModel => ["project_id"; "problem_statement"; "is_completed"]
  | IshikawaCategoryModel => ["diagram_id"; "name"; "causes"; "order"]
  | ActionPlanModel => ["project_id"; "is_completed"]
  | ActionPlanTaskModel =>
      ["action_plan_id"; "task_description"; "responsible_person"; "deadline";
       "status"; "priority"; "notes"; "completed_date"]
  end.

(** The relationships declared with [cascade="all, delete-orphan"]: the child
    class and the foreign key column through which it points to its parent. *)
Definition cascades (m : model) : list (model * string) :=
  match m with
  | ProjectModel =>
      [(FiveWhysModel, "project_id"); (IshikawaDiagramModel, "project_id");
       (ActionPlanModel, "project_id")]
  | IshikawaDiagramModel => [(IshikawaCategoryModel, "diagram_id")]
  | ActionPlanModel => [(ActionPlanTaskModel, "action_plan_id")]
  | FiveWhysModel | IshikawaCategoryModel | ActionPlanTaskModel => []
  end.

Definition database : Type := model -> list row.

Definition set_table (m : model) (rows : list row) (db : database) : database :=
  fun m' => if decide (m' = m) then rows else db m'.

(** DELETE FROM the table of [m] WHERE id = [pk]. *)
Definition delete_row (m : model) (pk : sqlvalue) (db : database) : database :=
  set_table m (filter (fun r => column r "id" ≠ pk) (db m)) db.

(** [session.delete(obj)] followed by [commit()]: the rows reached through
    the cascading relationships are loaded and deleted, each with its own
    cascade, and then the row itself.  [depth] bounds the length of a chain
    of relationships. *)
Fixpoint delete_cascade (depth : nat) (m : model) (pk : sqlvalue) (db : database)
  : database :=
  match depth with
  | O => db
  | S n =>
      let db' :=
        fold_left
          (fun acc rel =>
             fold_left
               (fun acc child => delete_cascade n (fst rel) (column child "id") acc)
               (filter (fun r => column r (snd rel) = pk) (db (fst rel)))
               acc)
          (cascades m) db in
      delete_row m pk db'
  end.

(** There are six mapped classes and no relationship from a class to
    itself, so no chain of relationships is longer than six. *)
Definition session_delete (m : model) (obj : row) (db : database) : database :=
  delete_cascade 6 m (column obj "id") db.

(** ** Creating a record ([base_repository.py], [models/*.py]) *)

(** The columns declared with a default, and the value the default gives:
    [uuid4], [utcnow] and [today] are what the three callables return at
    the time of the call.  A Boolean is stored as 0 or 1, a member of an
    enumeration by its name, a date or time as text. *)
Definition column_defaults (uuid4 utcnow today : str) (m : model)
  : list (string * sqlvalue) :=
  [("id", TEXT uuid4); ("created_at", TEXT utcnow); ("updated_at", TEXT utcnow)] ++
  match m with
  | ProjectModel =>
      [("start_date", TEXT today); ("status", TEXT (Json.lit "IN_PROGRESS"));
       ("progress_percentage", INTEGER 0);
       ("current_phase", TEXT (Json.lit "PREPARATION"))]
  | FiveWhysModel | IshikawaDiagramModel | ActionPlanModel =>
      [("is_completed", INTEGER 0)]
  | IshikawaCategoryModel => [("order", INTEGER 0)]
  | ActionPlanTaskModel =>
      [("status", TEXT (Json.lit "NOT_STARTED")); ("priority", TEXT (Json.lit "MEDIUM"))]
  end.

(** The columns declared with [nullable=False], and the primary key. *)
Definition not_null (m : model) : list string :=
  ["id"; "created_at"; "updated_at"] ++
  match m with
  | ProjectModel => ["name"; "start_date"; "status"; "current_phase"]
  | FiveWhysModel | IshikawaDiagramModel => ["project_id"; "problem_statement"]
  | IshikawaCategoryModel => ["diagram_id"; "name"]
  | ActionPlanModel => ["project_id"]
  | ActionPlanTaskModel => ["action_plan_id"; "task_description"; "status"; "priority"]
  end.

(** The row that is inserted for [obj]: a column that [obj] leaves unset
    takes its default. *)
Definition with_defaults (defaults : list (string * sqlvalue)) (obj : row) : row :=
  foldr
    (fun kv r => if decide (column obj (fst kv) = NULL) then <[fst kv := snd kv]> r else r)
    obj defaults.

(** The outcome of [create]: the instance as it comes back, refreshed, and
    the store afterwards; or the error of a constraint that the insertion
    violates. *)
Inductive created : Type :=
| Created (obj : row) (db : database)
| Failed (e : exn).

(** [create]: [session.add(obj); session.commit(); session.refresh(obj)]. *)
Definition create (uuid4 utcnow today : str) (m : model) (obj : row) (db : database)
  : created :=
  let inserted := with_defaults (column_defaults uuid4 utcnow today m) obj in
  if bool_decide (Exists (fun key => column inserted key = NULL) (not_null m))
  then Failed IntegrityError
  else if bool_decide (Exists (fun r => column r "id" = column inserted "id") (db m))
  then Failed IntegrityError
  else Created inserted (set_table m (db m ++ [inserted]) db).

(** ** The mapped classes, as [hasattr] and [==] see them *)

(** The type a column is declared with: [String] or [Text], [Integer],
    [Boolean], [Date] or [DateTime], an [Enum]. *)
Inductive coltype : Type :=
| StringType
| IntegerType
| BooleanType
| DateType
| EnumType.

(** The columns of each mapped class with their types, in the order of
    [columns]. *)
Definition column_types (m : model) : list (string * coltype) :=
  [("id", StringType); ("created_at", DateType); ("updated_at", DateType)] ++
  match m with
  | ProjectModel =>
      [("name", StringType); ("description", StringType);
       ("target_area", StringType); ("start_date", DateType);
       ("expected_completion_date", DateType);
       ("actual_completion_date", DateType); ("status", EnumType);
       ("progress_percentage", IntegerType); ("team_members", StringType);
       ("current_phase", EnumType)]
  | FiveWhysModel =>
      [("project_id", StringType); ("problem_statement", StringType);
       ("why_1", StringType); ("why_2", StringType); ("why_3", StringType);
       ("why_4", StringType); ("why_5", StringType);
       ("additional_whys", StringType); ("root_cause", StringType);
       ("is_completed", BooleanType)]
  | IshikawaDiagramModel =>
      [("project_id", StringType); ("problem_statement", StringType);
       ("is_completed", BooleanType)]
  | IshikawaCategoryModel =>
      [("diagram_id", StringType); ("name", StringType); ("causes", StringType);
       ("order", IntegerType)]
  | ActionPlanModel => [("project_id", StringType); ("is_completed", BooleanType)]
  | ActionPlanTaskModel =>
      [("action_plan_id", StringType); ("task_description", StringType);
       ("responsible_person", StringType); ("deadline", DateType);
       ("status", EnumType); ("priority", EnumType); ("notes", StringType);
       ("completed_date", DateType)]
  end.

(** The relationships of each mapped class: whether the attribute is a
    collection, the class at the other end, and the foreign key column,
    which is on the side of the child. *)
Definition relationships (m : model) : list (string * (bool * model * string)) :=
  match m with
  | ProjectModel =>
      [("five_whys", (true, FiveWhysModel, "project_id"));
       ("ishikawa_diagrams", (true, IshikawaDiagramModel, "project_id"));
       ("action_plans", (true, ActionPlanModel, "project_id"))]
  | FiveWhysModel => [("project", (false, ProjectModel, "project_id"))]
  | IshikawaDiagramModel =>
      [("project", (false, ProjectModel, "project_id"));
       ("categories", (true, IshikawaCategoryModel, "diagram_id"))]
  | IshikawaCategoryModel => [("diagram", (false, IshikawaDiagramModel, "diagram_id"))]
  | ActionPlanModel =>
      [("project", (false, ProjectModel, "project_id"));
       ("tasks", (true, ActionPlanTaskModel, "action_plan_id"))]
  | ActionPlanTaskModel => [("action_plan", (false, ActionPlanModel, "action_plan_id"))]
  end.

(** The methods the classes define, [to_dict] of [BaseModel] first. *)
Definition methods (m : model) : list string :=
  "to_dict" ::
  match m with
  | ProjectModel => ["get_team_members"; "set_team_members"; "calculate_progress"]
  | FiveWhysModel => ["get_all_whys"; "set_additional_whys"; "get_additional_whys"]
  | IshikawaCategoryModel => ["get_causes_list"; "set_causes_list"]
  | ActionPlanModel => ["calculate_completion"]
  | IshikawaDiagramModel | ActionPlanTaskModel => []
  end.

(** The attributes that [declarative_base()] gives every mapped class: the
    [MetaData] of the base and its registry, objects that equal no value. *)
Definition declarative_attributes : list string := ["metadata"; "registry"].

(** The value stored under a key of an association list. *)
Fixpoint assoc {A : Type} (key : string) (l : list (string * A)) : option A :=
  match l with
  | [] => None
  | (k, a) :: l' => if decide (k = key) then Some a else assoc key l'
  end.

(** What [getattr(self.model, key)] is: the instrumented attribute of a
    column or of a relationship, or another object, of which [search] uses
    the truth of [object == value] only. *)
Inductive attribute : Type :=
| ColumnAttribute (ty : coltype)
| RelationshipAttribute (uselist : bool) (other : model) (fk : string)
| PlainAttribute (eq : sqlvalue -> bool).

(** What the source does not determine.  [inherited]: the other attributes
    that a mapped class takes from the declarative base of SQLAlchemy, from
    [object] and from the interpreter ([__init__], [__doc__], [__mapper__],
    ...), each with the truth of [attribute == value].
    [numeric_eq]: whether SQLite, comparing a cell of a column of numeric
    affinity with a text, finds them equal; it reads the text as a number
    when the text looks like one. *)
Record library : Type := {
  inherited : model -> string -> option (sqlvalue -> bool);
  numeric_eq : sqlvalue -> str -> bool
}.

(** The decimal digits of a number that is not negative, before [acc]. *)
Fixpoint decimal_digits (fuel : nat) (n : Z) (acc : str) : str :=
  match fuel with
  | O => acc
  | S fuel' =>
      let acc' := (48 + n mod 10) :: acc in
      if n <? 10 then acc' else decimal_digits fuel' (n / 10) acc'
  end.

(** The text SQLite converts an integer to. *)
Definition decimal (n : Z) : str :=
  if n <? 0 then 45 :: decimal_digits (S (Z.to_nat (Z.log2 (- n)))) (- n) []
  else decimal_digits (S (Z.to_nat (Z.log2 n))) n [].

(** A value under TEXT affinity. *)
Definition as_text (v : sqlvalue) : option str :=
  match v with
  | NULL => None
  | INTEGER n => Some (decimal n)
  | TEXT s => Some s
  end.

(** [a = b] in SQL for two values of TEXT affinity: NULL equals nothing. *)
Definition text_eq (a b : sqlvalue) : bool :=
  match as_text a, as_text b with
  | Some x, Some y => bool_decide (x = y)
  | _, _ => false
  end.

(** [column = ?] in SQL, for a cell of a column of type [ty] and a
    parameter that is not NULL.  A column declared VARCHAR or TEXT has TEXT
    affinity, and an integer compared with it is converted to text; the
    other columns have numeric affinity, and a text compared with them is
    converted to a number when it looks like one. *)
Definition sql_eq (lib : library) (ty : coltype) (cell value : sqlvalue) : bool :=
  match ty with
  | StringType | EnumType => text_eq cell value
  | IntegerType | BooleanType | DateType =>
      match cell, value with
      | NULL, _ | _, NULL => false
      | INTEGER c, INTEGER n => c =? n
      | TEXT _, INTEGER _ => false
      | _, TEXT s => numeric_eq lib cell s
      end
  end.

(** ** The generic repository ([base_repository.py]) *)

Module BaseRepository.

(** [getattr(self.model, key)], for a value of [key] that the class has an
    attribute for: a column, a relationship, a method, an attribute of the
    declarative base or a constant of the class ([__tablename__], and
    [__abstract__ = True] of [BaseModel]), or else an inherited attribute.
    A method is equal to no value. *)
Definition getattr (lib : library) (m : model) (key : string) : option attribute :=
  match assoc key (column_types m) with
  | Some ty => Some (ColumnAttribute ty)
  | None =>
  match assoc key (relationships m) with
  | Some (uselist, other, fk) => Some (RelationshipAttribute uselist other fk)
  | None =>
  if bool_decide (key ∈ methods m ∨ key ∈ declarative_attributes)
  then Some (PlainAttribute (fun _ => false))
  else if decide (key = "__tablename__")
  then Some (PlainAttribute (fun v => bool_decide (v = TEXT (Json.lit (tablename m)))))
  else if decide (key = "__abstract__")
  then Some (PlainAttribute (fun v => bool_decide (v = INTEGER 1)))
  else
    match inherited lib m key with
    | Some eq => Some (PlainAttribute eq)
    | None => None
    end
  end end.

Definition hasattr (lib : library) (m : model) (key : string) : bool :=
  match getattr lib m key with
  | Some _ => true
  | None => false
  end.

Definition get_all (m : model) (db : database) : list row := db m.

(** [query.filter(self.model.id == record_id).first()]. *)
Definition get_by_id (m : model) (record_id : str) (db : database) : option row :=
  head (filter (fun r => column r "id" = TEXT record_id) (db m)).

(** What the flush of [session.merge(obj)] leaves of the stored row [r]:
    the row itself when [obj] changes none of its columns; otherwise the
    row with the values of [obj], and with the time of the update, unless
    [obj] changes that too ([onupdate=datetime.utcnow]). *)
Definition merged (utcnow : str) (m : model) (obj r : row) : row :=
  let r' := obj ∪ r in
  if bool_decide (Forall (fun key => column r' key = column r key) (columns m))
  then r
  else if decide (column r' "updated_at" = column r "updated_at")
  then <["updated_at" := TEXT utcnow]> r'
  else r'.

(** [update]: [session.merge(obj); session.commit()].  The state of [obj]
    is copied onto the row with its primary key, and the UPDATE fails when
    it sets a column that is declared [nullable=False] to NULL; when there
    is no such row, or [obj] has no primary key, [obj] is inserted as
    [create] inserts it.  The store afterwards, or the error. *)
Definition update (uuid4 utcnow today : str) (m : model) (obj : row) (db : database)
  : outcome database :=
  let pk := column obj "id" in
  if bool_decide (pk ≠ NULL ∧ Exists (fun r => column r "id" = pk) (db m))
  then
    if bool_decide
         (Exists
            (fun r =>
               column r "id" = pk ∧
               Exists (fun key => column (obj ∪ r) key = NULL ∧ column r key ≠ NULL)
                 (not_null m))
            (db m))
    then Raises IntegrityError
    else
      Returns
        (set_table m
           (map (fun r => if decide (column r "id" = pk) then merged utcnow m obj r else r)
              (db m))
           db)
  else
    match create uuid4 utcnow today m obj db with
    | Created _ db' => Returns db'
    | Failed e => Raises e
    end.

(** [delete]: whether a row was found, and the store afterwards. *)
Definition delete (m : model) (record_id : str) (db : database)
  : bool * database :=
  match get_by_id m record_id db with
  | Some obj => (true, session_delete m obj db)
  | None => (false, db)
  end.

(** A WHERE clause of [search]: [filter(True)] or [filter(False)], IS NULL,
    the comparison of a column with a parameter, and NOT EXISTS of a row of
    the child class that points to the row. *)
Inductive criterion : Type :=
| Constant (b : bool)
| IsNull (key : string)
| Equals (key : string) (ty : coltype) (value : sqlvalue)
| NoChild (child : model) (fk : string).

(** [getattr(self.model, key) == value], for a value that is [None], an
    [int] ([True] and [False] are 1 and 0) or a [str].  A column compared
    with [None] gives IS NULL.  A relationship accepts [None] only: a
    collection raises an [InvalidRequestError] on another value, a
    reference to one instance an [ArgumentError]. *)
Definition compared (a : attribute) (key : string) (value : sqlvalue)
  : outcome criterion :=
  match a with
  | ColumnAttribute ty =>
      Returns (match value with NULL => IsNull key | _ => Equals key ty value end)
  | RelationshipAttribute uselist other fk =>
      match value with
      | NULL => Returns (if uselist then NoChild other fk else IsNull fk)
      | _ => Raises (if uselist then InvalidRequestError else ArgumentError)
      end
  | PlainAttribute eq => Returns (Constant (eq value))
  end.

(** The error with which the type of a column refuses a parameter: a
    [Boolean] takes 0 and 1 only, a [Date] or [DateTime] no [int] and no
    [str], an [Enum] no [int]. *)
Definition bind_error (ty : coltype) (value : sqlvalue) : option exn :=
  match ty, value with
  | BooleanType, INTEGER n => if (n =? 0) || (n =? 1) then None else Some StatementError
  | BooleanType, TEXT _ => Some StatementError
  | DateType, (INTEGER _ | TEXT _) => Some StatementError
  | EnumType, INTEGER _ => Some StatementError
  | _, _ => None
  end.

(** The parameters of the statement, in the order of its clauses. *)
Definition parameters (criteria : list criterion) : list (coltype * sqlvalue) :=
  omap (fun c => match c with Equals _ ty value => Some (ty, value) | _ => None end)
    criteria.

(** [sqlite3] binds an [int] of 64 bits, sign included. *)
Definition fits_int64 (value : sqlvalue) : bool :=
  match value with
  | INTEGER n => (- 2 ^ 63 <=? n) && (n <? 2 ^ 63)
  | _ => true
  end.

(** Whether a row satisfies a clause. *)
Definition holds (lib : library) (db : database) (r : row) (c : criterion) : bool :=
  match c with
  | Constant b => b
  | IsNull key => bool_decide (column r key = NULL)
  | Equals key ty value => sql_eq lib ty (column r key) value
  | NoChild child fk =>
      forallb (fun x => negb (text_eq (column x fk) (column r "id"))) (db child)
  end.

(** [query.all()]: the parameters are processed by the types of their
    columns, then bound by [sqlite3], and the rows of the table that
    satisfy every clause come back in the order of the table. *)
Definition all (lib : library) (m : model) (criteria : list criterion) (db : database)
  : outcome (list row) :=
  match omap (fun p => bind_error (fst p) (snd p)) (parameters criteria) with
  | e :: _ => Raises e
  | [] =>
      if forallb (fun p => fits_int64 (snd p)) (parameters criteria)
      then Returns (filter (fun r => forallb (holds lib db r) criteria = true) (db m))
      else Raises OverflowError
  end.

(** [search]: one more clause for each keyword argument whose key the
    class has an attribute for, in the order of the arguments; a comparison
    that raises ends the loop. *)
Definition search (lib : library) (m : model) (filters : list (string * sqlvalue))
  (db : database) : outcome (list row) :=
  let query :=
    fold_left
      (fun query kv =>
         if hasattr lib m (fst kv)
         then
           match query, getattr lib m (fst kv) with
           | Returns criteria, Some a =>
               match compared a (fst kv) (snd kv) with
               | Returns c => Returns (criteria ++ [c])
               | Raises e => Raises e
               end
           | _, _ => query
           end
         else query)
      filters (Returns []) in
  match query with
  | Returns criteria => all lib m criteria db
  | Raises e => Raises e
  end.

End BaseRepository.

(** ** Completing an artifact ([ui/views/*_view.py]) *)

Definition sql_str (o : option str) : sqlvalue :=
  match o with Some s => TEXT s | None => NULL end.

Definition sql_bool (o : option bool) : sqlvalue :=
  match o with Some true => INTEGER 1 | Some false => INTEGER 0 | None => NULL end.

(** What the three views need from the artifact they edit: its mapped class,
    its id, the assignment [is_completed = True], the column values
    [update] merges, and the texts of the view's dialogs. *)
Class Artifact (T : Type) := {
  mapped : model;
  get_id : T -> option str;
  get_is_completed : T -> option bool;
  set_is_completed : T -> T;
  state : T -> row;
  not_saved_text : string;
  question_text : string;
  success_text : string
}.

#[global] Instance FiveWhys_artifact : Artifact FiveWhys.t := {
  mapped := FiveWhysModel;
  get_id := FiveWhys.id;
  get_is_completed := FiveWhys.is_completed;
  set_is_completed self :=
    FiveWhys.mk (FiveWhys.id self) (FiveWhys.project_id self)
      (FiveWhys.problem_statement self) (FiveWhys.why_1 self) (FiveWhys.why_2 self)
      (FiveWhys.why_3 self) (FiveWhys.why_4 self) (FiveWhys.why_5 self)
      (FiveWhys.additional_whys self) (FiveWhys.root_cause self) (Some true);
  state self :=
    list_to_map
      [("id", sql_str (FiveWhys.id self));
       ("project_id", sql_str (FiveWhys.project_id self));
       ("problem_statement", sql_str (FiveWhys.problem_statement self));
       ("why_1", sql_str (FiveWhys.why_1 self));
       ("why_2", sql_str (FiveWhys.why_2 self));
       ("why_3", sql_str (FiveWhys.why_3 self));
       ("why_4", sql_str (FiveWhys.why_4 self));
       ("why_5", sql_str (FiveWhys.why_5 self));
       ("additional_whys", sql_str (FiveWhys.additional_whys self));
       ("root_cause", sql_str (FiveWhys.root_cause self));
       ("is_completed", sql_bool (FiveWhys.is_completed self))];
  not_saved_text := "Please save the analysis first.";
  question_text := "Mark this 5 Whys analysis as complete?";
  success_text := "Analysis marked as complete!"
}.

#[global] Instance IshikawaDiagram_artifact : Artifact IshikawaDiagram.t := {
  mapped := IshikawaDiagramModel;
  get_id := IshikawaDiagram.id;
  get_is_completed := IshikawaDiagram.is_completed;
  set_is_completed self :=
    IshikawaDiagram.mk (IshikawaDiagram.id self) (IshikawaDiagram.project_id self)
      (IshikawaDiagram.problem_statement self) (Some true)
      (IshikawaDiagram.categories self);
  state self :=
    list_to_map
      [("id", sql_str (IshikawaDiagram.id self));
       ("project_id", sql_str (IshikawaDiagram.project_id self));
       ("problem_statement", sql_str (IshikawaDiagram.problem_statement self));
       ("is_completed", sql_bool (IshikawaDiagram.is_completed self))];
  not_saved_text := "Please save the diagram first.";
  question_text := "Mark this Ishikawa diagram as complete?";
  success_text := "Diagram marked as complete!"
}.

#[global] Instance ActionPlan_artifact : Artifact ActionPlan.t := {
  mapped := ActionPlanModel;
  get_id := ActionPlan.id;
  get_is_completed := ActionPlan.is_completed;
  set_is_completed self :=
    ActionPlan.mk (ActionPlan.id self) (ActionPlan.project_id self) (Some true);
  state self :=
    list_to_map
      [("id", sql_str (ActionPlan.id self));
       ("project_id", sql_str (ActionPlan.project_id self));
       ("is_completed", sql_bool (ActionPlan.is_completed self))];
  not_saved_text := "Please save the action plan first.";
  question_text := "Mark this action plan as complete?";
  success_text := "Action plan marked as complete!"
}.

Inductive StandardButton := Yes | No.

(** The message boxes a view opens. *)
Inductive dialog : Type :=
| warning (title text : string)
| question (title text : string)
| information (title text : string)
| critical (title : string) (e : exn).

Module View.

(** The part of a view's state that [mark_complete] reads or writes. *)
Record t (T : Type) := mk {
  project : option Project.t;
  artifact : option T;
  completion_label_text : string;
  completion_label_visible : bool;
  mark_complete_btn_enabled : bool
}.
Arguments mk {T}.
Arguments project {T}.
Arguments artifact {T}.
Arguments completion_label_text {T}.
Arguments completion_label_visible {T}.
Arguments mark_complete_btn_enabled {T}.

Section MarkComplete.

Context {T : Type} `{Artifact T}.

(** What the defaults of the columns would draw (an identifier, the time
    and the day of the call), and the reload by which the mapper brings an
    instance and its relationship collections up to date with the committed
    store. *)
Variable uuid4 utcnow today : str.
Variable refresh : database -> Project.t -> Project.t.

(** [mark_complete], given the button the user presses if asked: the
    view and the store afterwards, and the dialogs shown. *)
Definition mark_complete (reply : StandardButton) (self : t T) (db : database)
  : t T * database * list dialog :=
  let rejected := (self, db, [warning "Not Saved" not_saved_text]) in
  match artifact self with
  | None => rejected
  | Some a =>
      if negb (truthy_opt_str (get_id a)) then rejected
      else
        let asked := question "Mark as Complete" question_text in
        match reply with
        | No => (self, db, [asked])
        | Yes =>
            let a' := set_is_completed a in
            match BaseRepository.update uuid4 utcnow today mapped (state a') db with
            | Raises e =>
                (mk (project self) (Some a') (completion_label_text self)
                   (completion_label_visible self) (mark_complete_btn_enabled self),
                 db, [asked; critical "Error" e])
            | Returns db' =>
                (* Update project progress *)
                let '(raised, project') :=
                  match project self with
                  | Some p =>
                      match Project.calculate_progress (refresh db' p) with
                      | (Returns _, p') => (None, Some p')
                      | (Raises e, p') => (Some e, Some p')
                      end
                  | None => (None, None)
                  end in
                (mk project' (Some a') "✓ Completed" true false, db',
                 [asked;
                  match raised with
                  | None => information "Success" success_text
                  | Some e => critical "Error" e
                  end])
            end
        end
  end.

End MarkComplete.

End View.

(** ** Sample records *)

Module Sample.

(** An artifact of each kind with a given completion flag. *)
Definition five_whys (done : bool) : FiveWhys.t :=
  FiveWhys.mk None None None None None None None None None None (Some done).

Definition diagram (done : bool) : IshikawaDiagram.t :=
  IshikawaDiagram.mk None None None (Some done) [].

Definition plan (done : bool) : ActionPlan.t :=
  ActionPlan.mk None None (Some done).

(** A project with a cached percentage and the given artifacts. *)
Definition project (cached : option Z) (fws : list FiveWhys.t)
  (ishs : list IshikawaDiagram.t) (aps : list ActionPlan.t) : Project.t :=
  Project.mk None (Some (Json.lit "Assembly Line Optimization")) None None
    None None None (Some IN_PROGRESS) cached None (Some ANALYSIS) fws ishs aps.

(** The first project of [seed_data.py]: progress 35, no artifact. *)
Definition seeded : Project.t := project (Some 35) [] [] [].

(** Fifty Five Whys analyses, twenty-nine of them completed. *)
Definition fifty : Project.t :=
  project (Some 0) (replicate 29 (five_whys true) ++ replicate 21 (five_whys false))
    [] [].

(** Two artifacts completed out of three, one of each kind. *)
Definition three : Project.t :=
  project None [five_whys true] [diagram true] [plan false].

(** The record of the specification's example: first and third slot set,
    one additional why. *)
Definition whys_a_c_d : FiveWhys.t :=
  FiveWhys.set_additional_whys
    (FiveWhys.mk None None None (Some (Json.lit "A")) None (Some (Json.lit "C"))
       None None None None None)
    [Json.lit "D"].

(** A second slot holding the empty string, and an empty string among the
    additional whys. *)
Definition whys_with_blanks : FiveWhys.t :=
  FiveWhys.set_additional_whys
    (FiveWhys.mk None None None (Some (Json.lit "A")) (Some []) None None None
       None None None)
    [[]; Json.lit "D"].

(** Blobs that cannot be read: text that is not JSON, the empty text, and
    no text at all. *)
Definition garbled_project : Project.t :=
  Project.mk None None None None None None None None None
    (Some (Json.lit "John, Jane")) None [] [] [].

Definition empty_blob_whys : FiveWhys.t :=
  FiveWhys.mk None None None None None None None None (Some []) None None.

Definition category : IshikawaCategory.t :=
  IshikawaCategory.mk None None (Some (Json.lit "People")) None (Some 0).

(** The lists of [tests/test_models.py]. *)
Definition members : list str := [Json.lit "John Doe"; Json.lit "Jane Smith"].

(** One string of two code points: a high surrogate, then a low one. *)
Definition surrogates : list str := [[55357; 56832]].

Definition stored (id : string) (fk : string) (parent : string) : row :=
  {[ "id" := TEXT (Json.lit id); fk := TEXT (Json.lit parent) ]}.

(** Two projects; the first owns an analysis, a diagram with a category and
    a plan with a task, the second an analysis. *)
Definition store : database := fun m =>
  match m with
  | ProjectModel =>
      [ {[ "id" := TEXT (Json.lit "P1") ]}; {[ "id" := TEXT (Json.lit "P2") ]} ]
  | FiveWhysModel =>
      [ stored "F1" "project_id" "P1"; stored "F2" "project_id" "P2" ]
  | IshikawaDiagramModel => [ stored "D1" "project_id" "P1" ]
  | IshikawaCategoryModel => [ stored "C1" "diagram_id" "D1" ]
  | ActionPlanModel => [ stored "A1" "project_id" "P1" ]
  | ActionPlanTaskModel => [ stored "T1" "action_plan_id" "A1" ]
  end.

(** A view on an analysis that was never saved, and one on the stored
    analysis F1. *)
Definition unsaved_view : View.t FiveWhys.t :=
  View.mk (Some seeded) (Some (five_whys false)) "" false true.

Definition saved_whys : FiveWhys.t :=
  FiveWhys.mk (Some (Json.lit "F1")) (Some (Json.lit "P1")) None None None None
    None None None None (Some false).

Definition saved_view : View.t FiveWhys.t :=
  View.mk None (Some saved_whys) "" false true.

End Sample.

(** ** Tasks of an action plan ([models/action_plan.py]) *)

Module TaskStatus.

Inductive t := NOT_STARTED | IN_PROGRESS | COMPLETED | BLOCKED.

(** The value of a member ([models/enums.py]). *)
Definition value (status : t) : string :=
  match status with
  | NOT_STARTED => "Not Started"
  | IN_PROGRESS => "In Progress"
  | COMPLETED => "Completed"
  | BLOCKED => "Blocked"
  end.

End TaskStatus.

Module Priority.
Inductive t := LOW | MEDIUM | HIGH | CRITICAL.
End Priority.

Module ActionPlanTask.

Record t := mk {
  id : option str;
  action_plan_id : option str;
  task_description : option str;
  responsible_person : option str;
  deadline : option Z;
  status : option TaskStatus.t;
  priority : option Priority.t;
  notes : option str;
  completed_date : option Z
}.

(** [task.status == TaskStatus.COMPLETED]. *)
Definition is_completed (task : t) : bool :=
  match status task with Some TaskStatus.COMPLETED => true | _ => false end.

End ActionPlanTask.

(** [ActionPlan.calculate_completion], as a function of the collection
    [self.tasks] of the plan. *)
Definition calculate_completion (tasks : list ActionPlanTask.t) : outcome Z :=
  if negb (truthy_list tasks) then Returns 0
  else
    let completed_count :=
      Z.of_nat (length (filter (fun task => ActionPlanTask.is_completed task = true) tasks)) in
    let total_count := Z.of_nat (length tasks) in
    if 0 <? total_count
    then PyFloat.to_int
           (PyFloat.mul_int (PyFloat.int_truediv completed_count total_count) 100)
    else Returns 0.

(** ** Methods of [str] that the views use *)

Module PyStr.

(** [str.isspace] on one character: the characters whose bidirectional
    class is WS, B or S or whose category is Zs. *)
Definition isspace (c : codepoint) : bool :=
  ((9 <=? c) && (c <=? 13)) || ((28 <=? c) && (c <=? 32))
  || (c =? 133) || (c =? 160) || (c =? 5760)
  || ((8192 <=? c) && (c <=? 8202))
  || (c =? 8232) || (c =? 8233) || (c =? 8239) || (c =? 8287) || (c =? 12288).

Fixpoint lstrip (s : str) : str :=
  match s with
  | c :: r => if isspace c then lstrip r else s
  | [] => []
  end.

Definition rstrip (s : str) : str := rev (lstrip (rev s)).

(** [s.strip()]: leading and trailing white space removed. *)
Definition strip (s : str) : str := rstrip (lstrip s).

(** [s.split(sep)] for a separator of one character: the pieces between
    the separators, empty ones included; one empty piece for the empty
    string. *)
Fixpoint split (sep : codepoint) (s : str) : list str :=
  match s with
  | [] => [[]]
  | c :: r =>
      if c =? sep then [] :: split sep r
      else
        match split sep r with
        | piece :: pieces => (c :: piece) :: pieces
        | [] => [[c]]
        end
  end.

Definition NEWLINE : codepoint := 10.

End PyStr.

(** ** The project wizard ([ui/views/project_wizard.py]) *)

Module ProjectWizard.

(** Step 3 of [_collect_step_data]: the team members typed into the text
    box, one on each line. *)
Definition collect_team_members (team_members_input : str) : list str :=
  let team_text := PyStr.strip team_members_input in
  map PyStr.strip
    (filter (fun line => truthy_str (PyStr.strip line) = true)
       (PyStr.split PyStr.NEWLINE team_text)).

(** Step 1 of [_validate_step]: whether the name is accepted. *)
Definition validate_name (name_input : str) : bool :=
  truthy_str (PyStr.strip name_input).

End ProjectWizard.

(** ** Saving an analysis ([ui/views/five_whys_view.py]) *)

Module FiveWhysView.

(** [setattr(five_whys, f"why_{i}", value)] for [i] from 1 to 5. *)
Definition setattr_why (self : FiveWhys.t) (i : Z) (value : str) : FiveWhys.t :=
  let slot (k : Z) (old : option str) := if i =? k then Some value else old in
  FiveWhys.mk (FiveWhys.id self) (FiveWhys.project_id self)
    (FiveWhys.problem_statement self)
    (slot 1 (FiveWhys.why_1 self)) (slot 2 (FiveWhys.why_2 self))
    (slot 3 (FiveWhys.why_3 self)) (slot 4 (FiveWhys.why_4 self))
    (slot 5 (FiveWhys.why_5 self))
    (FiveWhys.additional_whys self) (FiveWhys.root_cause self)
    (FiveWhys.is_completed self).

Definition set_problem_statement (self : FiveWhys.t) (value : str) : FiveWhys.t :=
  FiveWhys.mk (FiveWhys.id self) (FiveWhys.project_id self) (Some value)
    (FiveWhys.why_1 self) (FiveWhys.why_2 self) (FiveWhys.why_3 self)
    (FiveWhys.why_4 self) (FiveWhys.why_5 self)
    (FiveWhys.additional_whys self) (FiveWhys.root_cause self)
    (FiveWhys.is_completed self).

Definition set_root_cause (self : FiveWhys.t) (value : str) : FiveWhys.t :=
  FiveWhys.mk (FiveWhys.id self) (FiveWhys.project_id self)
    (FiveWhys.problem_statement self)
    (FiveWhys.why_1 self) (FiveWhys.why_2 self) (FiveWhys.why_3 self)
    (FiveWhys.why_4 self) (FiveWhys.why_5 self)
    (FiveWhys.additional_whys self) (Some value) (FiveWhys.is_completed self).

(** What [save] does up to its call on the repository: a warning and
    nothing else, or the record it hands to [update] or to [create]. *)
Inductive request : Type :=
| Rejected (shown : dialog)
| Update (obj : FiveWhys.t)
| Create (obj : FiveWhys.t).

(** [save], from the project and the analysis of the view and the texts of
    its inputs: the problem statement, the why inputs in their order and the
    root cause. *)
Definition save (project : option Project.t) (five_whys : option FiveWhys.t)
  (problem_input : str) (why_inputs : list str) (root_cause_input : str) : request :=
  match project with
  | None => Rejected (warning "No Project" "Please select a project first.")
  | Some project =>
      let problem := PyStr.strip problem_input in
      if negb (truthy_str problem)
      then Rejected (warning "Validation Error" "Problem statement is required.")
      else
        let five_whys :=
          match five_whys with
          | Some five_whys => five_whys
          | None =>
              FiveWhys.mk None (Project.id project) None None None None None None
                None None None
          end in
        let five_whys := set_problem_statement five_whys problem in
        (* Save first 5 whys *)
        let five_whys :=
          fold_left
            (fun five_whys i =>
               setattr_why five_whys (Z.of_nat i + 1)
                 (PyStr.strip (nth i why_inputs [])))
            (seq 0 (Nat.min 5 (length why_inputs))) five_whys in
        (* Save additional whys *)
        let five_whys :=
          if (5 <? length why_inputs)%nat
          then
            let additional :=
              map PyStr.strip
                (filter (fun why => truthy_str (PyStr.strip why) = true)
                   (drop 5 why_inputs)) in
            FiveWhys.set_additional_whys five_whys additional
          else five_whys in
        let five_whys := set_root_cause five_whys (PyStr.strip root_cause_input) in
        if truthy_opt_str (FiveWhys.id five_whys)
        then Update five_whys
        else Create five_whys
  end.

End FiveWhysView.

(** ** Regular expressions, as [is_valid_email] uses them *)

Module Re.

(** The nodes a pattern is parsed into: a character set given by its
    ranges, a literal character, a greedy repetition of a character set
    with a minimum and no maximum, and the two anchors. *)
Inductive node : Type :=
| IN (ranges : list (codepoint * codepoint))
| LITERAL (c : codepoint)
| MAX_REPEAT (min : nat) (ranges : list (codepoint * codepoint))
| AT_BEGINNING
| AT_END.

Definition in_set (ranges : list (codepoint * codepoint)) (c : codepoint) : bool :=
  existsb (fun range => (fst range <=? c) && (c <=? snd range)) ranges.

(** A repetition followed by the rest of the pattern [k]: the longest run
    is tried first, then the shorter ones down to the minimum. *)
Fixpoint repeat_set (ranges : list (codepoint * codepoint)) (min : nat) (pos : nat)
  (s : str) (k : nat -> str -> bool) : bool :=
  match s with
  | c :: rest =>
      if in_set ranges c
      then repeat_set ranges (Nat.pred min) (S pos) rest k
           || ((min =? 0)%nat && k pos s)
      else (min =? 0)%nat && k pos s
  | [] => (min =? 0)%nat && k pos s
  end.

(** Whether the sequence of nodes matches at position [pos], where [s] is
    the text from there on.  [AT_BEGINNING] holds at the start of the text,
    [AT_END] at its end and before a line break that ends it. *)
Fixpoint match_at (pattern : list node) (pos : nat) (s : str) : bool :=
  match pattern with
  | [] => true
  | IN ranges :: pattern' =>
      match s with
      | c :: rest => in_set ranges c && match_at pattern' (S pos) rest
      | [] => false
      end
  | LITERAL l :: pattern' =>
      match s with
      | c :: rest => (c =? l) && match_at pattern' (S pos) rest
      | [] => false
      end
  | MAX_REPEAT min ranges :: pattern' =>
      repeat_set ranges min pos s (match_at pattern')
  | AT_BEGINNING :: pattern' => (pos =? 0)%nat && match_at pattern' pos s
  | AT_END :: pattern' =>
      match s with
      | [] => match_at pattern' pos s
      | [c] => (c =? 10) && match_at pattern' pos s
      | _ :: _ :: _ => false
      end
  end.

(** [bool(re.match(pattern, string))]. *)
Definition matches (pattern : list node) (string : str) : bool :=
  match_at pattern 0 string.

End Re.

(** ** Validation utilities ([utils/validators.py]) *)

Module Validators.

Definition letters : list (codepoint * codepoint) := [(97, 122); (65, 90)].
Definition digits : list (codepoint * codepoint) := [(48, 57)].

(** The set [[a-zA-Z0-9._%+-]]. *)
Definition local_set : list (codepoint * codepoint) :=
  letters ++ digits ++ [(46, 46); (95, 95); (37, 37); (43, 43); (45, 45)].

(** The set [[a-zA-Z0-9.-]]. *)
Definition domain_set : list (codepoint * codepoint) :=
  letters ++ digits ++ [(46, 46); (45, 45)].

Definition AT_SIGN : codepoint := 64.
Definition DOT : codepoint := 46.

(** The pattern of [is_valid_email], parsed. *)
Definition pattern : list Re.node :=
  [Re.AT_BEGINNING; Re.MAX_REPEAT 1 local_set; Re.LITERAL AT_SIGN;
   Re.MAX_REPEAT 1 domain_set; Re.LITERAL DOT; Re.MAX_REPEAT 2 letters; Re.AT_END].

Definition is_valid_email (email : str) : bool := Re.matches pattern email.

Definition is_not_empty (text : str) : bool :=
  if truthy_str text then truthy_str (PyStr.strip text) else false.

(** Dates as day numbers. *)
Definition is_valid_date_range (start_date end_date : Z) : bool :=
  start_date <=? end_date.

Definition max_length (text : str) (max_len : Z) : bool :=
  Z.of_nat (length text) <=? max_len.

Definition min_length (text : str) (min_len : Z) : bool :=
  min_len <=? Z.of_nat (length (PyStr.strip text)).

End Validators.

(** ** The table of tasks ([ui/views/action_plan_view.py]) *)

Module ActionPlanView.

(** The part of a table row that deleting reads: the description shown
    in the row, the status chosen in its combo box, and the row number its
    Delete button passes to [_delete_task]. *)
Record task_row := mk_row {
  desc_item : str;
  status_combo : TaskStatus.t;
  delete_btn : nat
}.

(** [_add_task_row(task)]: the new row goes to the end, and its Delete
    button is connected with the number of rows there were.  A task without
    description, status or priority makes the call fail. *)
Definition _add_task_row (task : option ActionPlanTask.t) (self : list task_row)
  
  : option (list task_row) :=
  let row := length self in
  match task with
  | None => Some (self ++ [mk_row [] TaskStatus.NOT_STARTED row])
  | Some task =>
      match ActionPlanTask.task_description task, ActionPlanTask.status task,
            ActionPlanTask.priority task with
      | Some description, Some status, Some _ =>
          Some (self ++ [mk_row description status row])
      | _, _, _ => None
      end
  end.

(** The Add Task button. *)
Definition _add_task (self : list task_row) : option (list task_row) := _add_task_row None self.

(** [_load_data]: the table emptied, then a row added for each task. *)
Definition _load_data (tasks : list ActionPlanTask.t) : option (list task_row) :=
  foldl (fun acc task => acc ≫= _add_task_row (Some task)) (Some []) tasks.

(** The text shown in the status combo box of a row. *)
Definition currentText (r : task_row) : string := TaskStatus.value (status_combo r).

(** [_update_progress]: the value given to the progress bar. *)
Definition _update_progress (self : list task_row) : outcome Z :=
  let total := Z.of_nat (length self) in
  if total =? 0 then Returns 0
  else
    let completed :=
      Z.of_nat (length (filter (fun r => String.eqb (currentText r) "Completed" = true)
                          self)) in
    PyFloat.to_int (PyFloat.mul_int (PyFloat.int_truediv completed total) 100).

(** [removeRow(row)]: nothing happens when there is no such row. *)
Definition removeRow (row : nat) (self : list task_row) : list task_row := delete row self.

(** [_delete_task(row)], given the answer to its question. *)
Definition _delete_task (reply : StandardButton) (row : nat) (self : list task_row) : list task_row :=
  match reply with
  | Yes => removeRow row self
  | No => self
  end.

(** A click on the Delete button of the row shown at [position]. *)
Definition click_delete (reply : StandardButton) (position : nat) (self : list task_row)
  : list task_row :=
  match self !! position with
  | Some r => _delete_task reply (delete_btn r) self
  | None => self
  end.

End ActionPlanView.

(** ** Ordered and limited queries *)

Module Sql.

(** The order of two texts: code point by code point, a prefix first. *)
Fixpoint text_leb (a b : str) : bool :=
  match a, b with
  | [], _ => true
  | _ :: _, [] => false
  | x :: a', y :: b' => (x <? y) || ((x =? y) && text_leb a' b')
  end.

(** The order that ORDER BY uses on stored values: NULL first, then the
    numbers, then the texts. *)
Definition leb (a b : sqlvalue) : bool :=
  match a, b with
  | NULL, _ => true
  | INTEGER _, NULL => false
  | INTEGER x, INTEGER y => x <=? y
  | INTEGER _, TEXT _ => true
  | TEXT _, (NULL | INTEGER _) => false
  | TEXT s, TEXT t => text_leb s t
  end.

(** [r] put into rows that are in descending order of [key], before the
    first row that is not above it. *)
Fixpoint insert_desc (key : string) (r : row) (sorted : list row) : list row :=
  match sorted with
  | [] => [r]
  | x :: rest =>
      if leb (column x key) (column r key) then r :: sorted
      else x :: insert_desc key r rest
  end.

(** ORDER BY [key] DESC; rows with the same value stay in the order of the
    table. *)
Definition order_by_desc (key : string) (rows : list row) : list row :=
  foldr (insert_desc key) [] rows.

(** LIMIT [n], with [n] bound as a parameter: [sqlite3] raises an
    [OverflowError] for an [int] that does not fit 64 bits; otherwise the
    first [n] rows, or all of them when [n] is negative. *)
Definition limit (n : Z) (rows : list row) : outcome (list row) :=
  if (n <? - 2 ^ 63) || (2 ^ 63 <=? n) then Raises OverflowError
  else Returns (if n <? 0 then rows else take (Z.to_nat n) rows).

End Sql.

(** ** Project queries ([database/repositories/project_repository.py]) *)

Module ProjectRepository.

(** The name of a member of [ProjectStatus], which is what the column
    stores. *)
Definition name (status : ProjectStatus) : str :=
  match status with
  | IN_PROGRESS => Json.lit "IN_PROGRESS"
  | COMPLETED => Json.lit "COMPLETED"
  | ON_HOLD => Json.lit "ON_HOLD"
  | CANCELLED => Json.lit "CANCELLED"
  end.

Definition get_by_id_with_relations (project_id : str) (db : database) : option row :=
  head (filter (fun r => column r "id" = TEXT project_id) (db ProjectModel)).

Definition get_completed_projects (db : database) : list row :=
  Sql.order_by_desc "updated_at"
    (filter (fun r => column r "status" = TEXT (name COMPLETED)) (db ProjectModel)).

Definition get_in_progress_projects (db : database) : list row :=
  Sql.order_by_desc "updated_at"
    (filter (fun r => column r "status" = TEXT (name IN_PROGRESS)) (db ProjectModel)).

Definition get_recent_projects (limit : Z) (db : database) : outcome (list row) :=
  Sql.limit limit (Sql.order_by_desc "updated_at" (db ProjectModel)).

Definition get_by_status (status : ProjectStatus) (db : database) : list row :=
  Sql.order_by_desc "updated_at"
    (filter (fun r => column r "status" = TEXT (name status)) (db ProjectModel)).

End ProjectRepository.

(** * Vocabulary of the properties *)

(** The value [calculate_progress] computes from the two counts. *)
Definition percentage (completed total : Z) : outcome Z :=
  PyFloat.to_int (PyFloat.mul_int (PyFloat.int_truediv completed total) 100).

Definition total_count (p : Project.t) : Z :=
  Project.len (Project.five_whys p) + Project.len (Project.ishikawa_diagrams p)
  + Project.len (Project.action_plans p).

Definition completed_count (p : Project.t) : Z :=
  Project.count_completed FiveWhys.is_completed (Project.five_whys p)
  + Project.count_completed IshikawaDiagram.is_completed (Project.ishikawa_diagrams p)
  + Project.count_completed ActionPlan.is_completed (Project.action_plans p).

(** ** Strings and the JSON codec *)

Section JsonVocabulary.
Import Json.

Definition valid_codepoint (c : codepoint) : Prop := 0 <= c <= 1114111.

Fixpoint surrogate_pair_free (s : str) : bool :=
  match s with
  | a :: t =>
      match t with
      | b :: _ => negb (is_high_surrogate a && is_low_surrogate b)
      | [] => true
      end && surrogate_pair_free t
  | [] => true
  end.

(** How the encoder writes one character. *)
Inductive escaped (c : codepoint) : str -> Prop :=
| esc_plain :
    (c =? QUOTE) = false -> (c =? BACKSLASH) = false ->
    (0 <=? c) && (c <? 32) = false ->
    escaped c [c]
| esc_short (e : codepoint) :
    (e =? 117) = false -> BACKSLASH_DCT e = Some c ->
    escaped c [BACKSLASH; e]
| esc_unit :
    0 <= c < 65536 ->
    escaped c (u_escape c)
| esc_pair (s1 s2 : Z) :
    0 <= s1 < 65536 -> 0 <= s2 < 65536 ->
    is_high_surrogate s1 = true -> is_low_surrogate s2 = true ->
    join_surrogates s1 s2 = c ->
    escaped c (u_escape s1 ++ u_escape s2).

(** What follows a lone high surrogate must not read as a low one. *)
Definition lookahead_ok (E : str) : Prop :=
  match E with
  | b :: u :: r7 =>
      (b =? BACKSLASH) && (u =? 117) = true ->
      match r7 with
      | k1 :: k2 :: k3 :: k4 :: _ =>
          exists uni2,
            decode_uXXXX k1 k2 k3 k4 = Some uni2 /\ is_low_surrogate uni2 = false
      | _ => False
      end
  | _ => True
  end.

(** A string the round trip preserves. *)
Definition roundtrips (s : str) : Prop :=
  Forall valid_codepoint s /\ surrogate_pair_free s = true.

(** Every scanning step consumes input. *)
Definition consumes (n : nat) : Prop :=
  (forall d s v rest,
     scan_once n d s = Parsed v rest -> (length rest < length s)%nat) /\
  (forall d s vs rest,
     array_items n d s = Parsed vs rest -> (length rest < length s)%nat) /\
  (forall d s ps rest,
     object_items n d s = Parsed ps rest -> (length rest < length s)%nat).

(** The budget of steps [json_loads] starts with is never exhausted. *)
Definition enough (n : nat) : Prop :=
  (forall d s, (2 * length s + 1 <= n)%nat -> scan_once n d s <> OutOfFuel) /\
  (forall d s, (2 * length s + 2 <= n)%nat -> array_items n d s <> OutOfFuel) /\
  (forall d s, (2 * length s + 2 <= n)%nat -> object_items n d s <> OutOfFuel).

End JsonVocabulary.

(** ** Serialized lists and the whys *)

(** The shared body of the three getters, as a function of the stored blob. *)
Definition get_serialized_list (blob : option str) : outcome Json.value :=
  if negb (truthy_opt_str blob) then Returns (Json.JArr [])
  else
    match blob with
    | Some text =>
        match json_loads text with
        | Returns v => Returns v
        | Raises JSONDecodeError => Returns (Json.JArr [])
        | Raises e => Raises e
        end
    | None => Returns (Json.JArr [])
    end.

(** A blob that is absent, empty, or not a JSON document. *)
Definition unreadable (blob : option str) : Prop :=
  blob = None \/ blob = Some [] \/
  exists text, blob = Some text /\ json_loads text = Raises JSONDecodeError.

(** The fixed slots that hold a non-empty text, in their order. *)
Definition filled_slots (self : FiveWhys.t) : list Json.value :=
  flat_map
    (fun slot =>
       match slot with
       | Some why => if truthy_str why then [Json.JStr why] else []
       | None => []
       end)
    [FiveWhys.why_1 self; FiveWhys.why_2 self; FiveWhys.why_3 self;
     FiveWhys.why_4 self; FiveWhys.why_5 self].

Definition unset_if_empty (slot : option str) : option str :=
  match slot with Some [] => None | _ => slot end.

(** The record with every fixed slot that holds the empty string unset. *)
Definition without_empty_slots (self : FiveWhys.t) : FiveWhys.t :=
  FiveWhys.mk (FiveWhys.id self) (FiveWhys.project_id self)
    (FiveWhys.problem_statement self)
    (unset_if_empty (FiveWhys.why_1 self)) (unset_if_empty (FiveWhys.why_2 self))
    (unset_if_empty (FiveWhys.why_3 self)) (unset_if_empty (FiveWhys.why_4 self))
    (unset_if_empty (FiveWhys.why_5 self))
    (FiveWhys.additional_whys self) (FiveWhys.root_cause self)
    (FiveWhys.is_completed self).

Definition is_empty_string (v : Json.value) : bool :=
  match v with Json.JStr [] => true | _ => false end.

(** How many items of a list are the empty string. *)
Definition empty_strings (l : list Json.value) : nat :=
  length (filter (fun v => is_empty_string v = true) l).

(** ** The repository *)

(** A row passes the filters: for every filter whose key the class has an
    attribute for, the comparison with the value gives a clause, and the
    row satisfies it. *)
Definition passes (lib : library) (m : model) (db : database)
  (filters : list (string * sqlvalue)) (r : row) : bool :=
  forallb
    (fun kv =>
       match BaseRepository.getattr lib m (fst kv) with
       | Some a =>
           match BaseRepository.compared a (fst kv) (snd kv) with
           | Returns c => BaseRepository.holds lib db r c
           | Raises _ => false
           end
       | None => true
       end)
    filters.

(** How far a class is above the leaves of the ownership tree. *)
Definition level (m : model) : nat :=
  match m with
  | ProjectModel => 2
  | IshikawaDiagramModel | ActionPlanModel => 1
  | FiveWhysModel | IshikawaCategoryModel | ActionPlanTaskModel => 0
  end.

(** No row of the table of [m] has primary key [pk]. *)
Definition absent (m : model) (pk : sqlvalue) (db : database) : Prop :=
  forall r, r ∈ db m -> column r "id" <> pk.

(** The row [r] is still in the table of [m], or its key is gone from it. *)
Definition kept_or_gone (m : model) (r : row) (db : database) : Prop :=
  r ∈ db m \/ absent m (column r "id") db.

(** [child] is a row that a cascading relationship of [m] attaches to the
    row of [m] with key [pk]. *)
Definition owned_by (m : model) (pk : sqlvalue) (child_model : model)
  (child : row) (db : database) : Prop :=
  exists fk, (child_model, fk) ∈ cascades m /\
             child ∈ db child_model /\ column child fk = pk.

(** ** The views *)

(** A view without an artifact, or whose artifact has no id. *)
Definition unsaved {T : Type} `{Artifact T} (self : View.t T) : Prop :=
  View.artifact self = None \/
  exists a, View.artifact self = Some a /\ (get_id a = None \/ get_id a = Some []).

(** ** Sample tasks and checked percentages *)

(** A task with a given status, and a plan's tasks of which the first
    [done] are completed. *)
Definition sample_task (s : TaskStatus.t) : ActionPlanTask.t :=
  ActionPlanTask.mk None None (Some (Json.lit "Implement new process")) None None
    (Some s) (Some Priority.HIGH) None None.

Definition sample_tasks (done open : nat) : list ActionPlanTask.t :=
  replicate done (sample_task TaskStatus.COMPLETED)
  ++ replicate open (sample_task TaskStatus.NOT_STARTED).

(** What the percentage of [completed] out of [total] items is checked
    against: it is the truncated quotient or one less, it lies between 0 and
    100, it is 100 only when all items are completed, and one more completed
    item does not lower it. *)
Definition percentage_checked (completed total : nat) : bool :=
  match percentage (Z.of_nat completed) (Z.of_nat total) with
  | Returns v =>
      let q := 100 * Z.of_nat completed / Z.of_nat total in
      (q - 1 <=? v) && (v <=? q) && (0 <=? v) && (v <=? 100)
      && Bool.eqb (v =? 100) (Nat.eqb completed total)
      && match percentage (Z.of_nat (S completed)) (Z.of_nat total) with
         | Returns w => (v <=? w) || (total <=? completed)%nat
         | Raises _ => (total <=? completed)%nat
         end
  | Raises _ => false
  end.

(** The number of items up to which the percentages are checked. *)
Definition checked_items : nat := 200.

(** ** What a serialized list reads back as *)

(** The string with every high surrogate that is immediately followed by a
    low surrogate replaced, together with it, by the character the two
    encode. *)
Fixpoint join_pairs (s : str) : str :=
  match s with
  | a :: t =>
      match t with
      | b :: t' =>
          if Json.is_high_surrogate a && Json.is_low_surrogate b
          then Json.join_surrogates a b :: join_pairs t'
          else a :: join_pairs t
      | [] => [a]
      end
  | [] => []
  end.

(** The values [list.extend] refuses. *)
Definition not_iterable (v : Json.value) : bool :=
  match v with
  | Json.JNull | Json.JBool _ | Json.JInt _ | Json.JFloat _ => true
  | Json.JStr _ | Json.JArr _ | Json.JObj _ => false
  end.

(** The printable ASCII characters, from space to tilde. *)
Definition printable (c : codepoint) : Prop := 32 <= c <= 126.

(** ** What a deletion can reach *)

(** The class itself and the classes below it along the cascading
    relationships, to the given depth. *)
Fixpoint descendants (depth : nat) (m : model) : list model :=
  match depth with
  | O => []
  | S n => m :: flat_map (fun rel => descendants n (fst rel)) (cascades m)
  end.

(** Deleting the row of [m] with key [pk] reaches the row of [m'] with key
    [x]: it is that row, or a row reached from one of its children in the
    store [db]. *)
Inductive reaches (db : database) : model -> sqlvalue -> model -> sqlvalue -> Prop :=
| reaches_self (m : model) (pk : sqlvalue) : reaches db m pk m pk
| reaches_child (m : model) (pk : sqlvalue) (child_model : model) (fk : string)
    (child : row) (m' : model) (x : sqlvalue) :
    (child_model, fk) ∈ cascades m -> child ∈ db child_model ->
    column child fk = pk ->
    reaches db child_model (column child "id") m' x ->
    reaches db m pk m' x.

(** The primary keys of a table, in the order of its rows. *)
Definition ids (rows : list row) : list sqlvalue :=
  map (fun r => column r "id") rows.

(** The primary key constraint on the table of [m]. *)
Definition unique_ids (db : database) (m : model) : Prop :=
  NoDup (ids (db m)).

(** ** What completing an artifact leaves behind *)


(** ** Lines of a text box *)

(** A text that begins and ends with a character that is not white
    space. *)
Definition trimmed (s : str) : Prop :=
  (exists c, head s = Some c /\ PyStr.isspace c = false) /\
  (exists d, last s = Some d /\ PyStr.isspace d = false).

(** What [collect_team_members] returns for a member: a text that is not
    empty, lies on one line and has no white space around it. *)
Definition member_line (s : str) : Prop :=
  trimmed s /\ PyStr.NEWLINE ∉ s.

(** The lines, one after the other with a line break between them
    (the text ['\n'.join(lines)]). *)
Fixpoint join_lines (lines : list str) : str :=
  match lines with
  | [] => []
  | line :: rest =>
      match rest with
      | [] => line
      | _ :: _ => line ++ PyStr.NEWLINE :: join_lines rest
      end
  end.

(** ** What was entered *)

(** The texts that are not empty once stripped, stripped. *)
Definition entered (inputs : list str) : list str :=
  filter (fun s => truthy_str s = true) (map PyStr.strip inputs).

(** The record that [save] hands to the repository, if it does. *)
Definition handed (r : FiveWhysView.request) : option FiveWhys.t :=
  match r with
  | FiveWhysView.Rejected _ => None
  | FiveWhysView.Update obj | FiveWhysView.Create obj => Some obj
  end.

(** A table reached from the empty one by pressing Add Task or by loading
    tasks. *)
Inductive built : list ActionPlanView.task_row -> Prop :=
| built_empty : built []
| built_add (self self' : list ActionPlanView.task_row) (task : option ActionPlanTask.t) :
    built self -> ActionPlanView._add_task_row task self = Some self' -> built self'.

(** Three rows added with the Add Task button. *)
Definition three_rows : list ActionPlanView.task_row :=
  [ActionPlanView.mk_row [] TaskStatus.NOT_STARTED 0;
   ActionPlanView.mk_row [] TaskStatus.NOT_STARTED 1;
   ActionPlanView.mk_row [] TaskStatus.NOT_STARTED 2].

(** ** Ordered results *)

(** Rows in descending order of [key]: no row is above a row before it. *)
Definition descending (key : string) (rows : list row) : Prop :=
  forall i j ri rj,
    (i <= j)%nat -> rows !! i = Some ri -> rows !! j = Some rj ->
    Sql.leb (column rj key) (column ri key) = true.

(** The same, row by row: every row is followed by rows that are not
    above it. *)
Fixpoint each_above_rest (key : string) (rows : list row) : Prop :=
  match rows with
  | [] => True
  | x :: rest =>
      Forall (fun y => Sql.leb (column y key) (column x key) = true) rest /\
      each_above_rest key rest
  end.

(** ** A project that is stored *)



(** ** Texts that the decoder gives up on *)

(** [k] opening brackets, and an integer of [k] digits. *)
Definition nested (k : nat) : str := replicate k Json.LBRACKET.

Definition long_integer (k : nat) : str := replicate k 49.

(** An analysis whose additional whys hold the given text. *)
Definition with_additional_whys (text : str) (self : FiveWhys.t) : FiveWhys.t :=
  FiveWhys.mk (FiveWhys.id self) (FiveWhys.project_id self)
    (FiveWhys.problem_statement self)
    (FiveWhys.why_1 self) (FiveWhys.why_2 self) (FiveWhys.why_3 self)
    (FiveWhys.why_4 self) (FiveWhys.why_5 self)
    (Some text) (FiveWhys.root_cause self) (FiveWhys.is_completed self).

(** A project and an analysis that store 1500 opening brackets, and an
    analysis that stores the text [5]. *)
Definition nested_project : Project.t :=
  Project.mk None None None None None None None None None (Some (nested 1500)) None
    [] [] [].

Definition nested_whys : FiveWhys.t :=
  with_additional_whys (nested 1500)
    (FiveWhys.mk None None None None None None None None None None None).

Definition whys_a_5 : FiveWhys.t :=
  with_additional_whys (Json.lit "5")
    (FiveWhys.mk None None None (Some (Json.lit "A")) None None None None None None None).

(** ** Searching *)

(** The clauses that the loop of [search] builds, or the error of the first
    comparison that raises. *)
Fixpoint clauses (lib : library) (m : model) (filters : list (string * sqlvalue))
  : outcome (list BaseRepository.criterion) :=
  match filters with
  | [] => Returns []
  | kv :: rest =>
      match BaseRepository.getattr lib m (fst kv) with
      | None => clauses lib m rest
      | Some a =>
          match BaseRepository.compared a (fst kv) (snd kv) with
          | Raises e => Raises e
          | Returns c =>
              match clauses lib m rest with
              | Returns cs => Returns (c :: cs)
              | Raises e => Raises e
              end
          end
      end
  end.

(** A filter that raises nothing: the class has no attribute for its key,
    or the comparison gives a clause whose parameter, if it has one, the
    type of the column and [sqlite3] accept. *)
Definition accepted (lib : library) (m : model) (kv : string * sqlvalue) : bool :=
  match BaseRepository.getattr lib m (fst kv) with
  | None => true
  | Some a =>
      match BaseRepository.compared a (fst kv) (snd kv) with
      | Raises _ => false
      | Returns (BaseRepository.Equals _ ty value) =>
          match BaseRepository.bind_error ty value with
          | None => BaseRepository.fits_int64 value
          | Some _ => false
          end
      | Returns _ => true
      end
  end.

(** Libraries that add no attribute to the classes. *)
Definition no_library : library :=
  {| inherited := fun _ _ => None; numeric_eq := fun _ _ => false |}.

(** ** Artifacts and the store *)


(** An analysis with an id under which nothing is stored, and a view on
    it. *)
Definition ghost_whys : FiveWhys.t :=
  FiveWhys.mk (Some (Json.lit "F9")) None None None None None None None None None
    (Some false).

Definition ghost_view : View.t FiveWhys.t :=
  View.mk None (Some ghost_whys) "" false true.



(** * Properties *)

(** ** Progress aggregation *)

Lemma count_completed_nil {A} (flag : A -> option bool) :
  Project.count_completed flag [] = 0.
Proof. reflexivity. Qed.

Lemma len_nil {A} : Project.len (@nil A) = 0.
Proof. reflexivity. Qed.

(** The three guarded blocks add up to the two counts over all children. *)
Lemma calculate_progress_counts (p : Project.t) :
  Project.calculate_progress p =
  if total_count p =? 0 then (Returns 0, p)
  else match percentage (completed_count p) (total_count p) with
       | Returns v => (Returns v, Project.set_progress_percentage p v)
       | Raises e => (Raises e, p)
       end.
Proof.
  unfold Project.calculate_progress, total_count, completed_count, percentage.
  destruct p as [? ? ? ? ? ? ? ? ? ? ? fws ishs aps]; simpl.
  destruct fws, ishs, aps; simpl truthy_list; cbv iota beta;
    rewrite ?count_completed_nil, ?len_nil, ?Z.add_0_l, ?Z.add_0_r; reflexivity.
Qed.

(** With no child at all the call returns 0. *)
Lemma calculate_progress_no_children (p : Project.t) :
  total_count p = 0 -> fst (Project.calculate_progress p) = Returns 0.
Proof. intros E. rewrite calculate_progress_counts, E. reflexivity. Qed.

(** Two of three completed gives 66. *)
Lemma calculate_progress_two_of_three :
  fst (Project.calculate_progress Sample.three) = Returns 66.
Proof. vm_compute. reflexivity. Qed.

Lemma percentage_checked_below_50 :
  forallb
    (fun t =>
       forallb
         (fun c =>
            match percentage (Z.of_nat c) (Z.of_nat t) with
            | Returns v => v =? 100 * Z.of_nat c / Z.of_nat t
            | Raises _ => false
            end)
         (seq 0 (S t)))
    (seq 1 49)
  = true.
Proof. vm_compute. reflexivity. Qed.

(** Below fifty artifacts the floating-point computation agrees with the
    integer quotient. *)
Lemma percentage_exact_below_50 (completed total : Z) :
  0 <= completed <= total -> 0 < total < 50 ->
  percentage completed total = Returns (100 * completed / total).
Proof.
  intros Hc Ht.
  pose proof percentage_checked_below_50 as H.
  rewrite List.forallb_forall in H.
  specialize (H (Z.to_nat total)).
  rewrite List.forallb_forall in H.
  specialize (H ltac:(apply List.in_seq; lia) (Z.to_nat completed)
                ltac:(apply List.in_seq; lia)).
  rewrite !Z2Nat.id in H by lia.
  destruct (percentage completed total) as [v | e]; [| discriminate].
  apply Z.eqb_eq in H. congruence.
Qed.

Lemma count_completed_bounds {A} (flag : A -> option bool) (xs : list A) :
  0 <= Project.count_completed flag xs <= Project.len xs.
Proof.
  unfold Project.count_completed, Project.len.
  pose proof (length_filter (fun x => truthy_opt_bool (flag x) = true) xs). lia.
Qed.

Lemma completed_count_bounds (p : Project.t) :
  0 <= completed_count p <= total_count p.
Proof.
  unfold completed_count, total_count.
  pose proof (count_completed_bounds FiveWhys.is_completed (Project.five_whys p)).
  pose proof (count_completed_bounds IshikawaDiagram.is_completed
                (Project.ishikawa_diagrams p)).
  pose proof (count_completed_bounds ActionPlan.is_completed (Project.action_plans p)).
  lia.
Qed.

(** A project with fewer than fifty artifacts gets the truncated quotient
    of the specification. *)
Lemma calculate_progress_exact_below_50 (p : Project.t) :
  0 < total_count p < 50 ->
  fst (Project.calculate_progress p)
  = Returns (100 * completed_count p / total_count p).
Proof.
  intros Ht. rewrite calculate_progress_counts.
  destruct (Z.eqb_spec (total_count p) 0) as [E | _]; [lia |].
  rewrite percentage_exact_below_50; [reflexivity | | lia].
  apply completed_count_bounds.
Qed.

(** C1, at the input where it fails: with 29 of 50 artifacts completed the
    quotient 29/50 is rounded to a double just below 0.58, its product with
    100 is 57.99999999999999, and [int] truncates it to 57, although
    floor(100 * 29 / 50) is 58. *)
Theorem calculate_progress_29_of_50 :
  completed_count Sample.fifty = 29 /\ total_count Sample.fifty = 50 /\
  fst (Project.calculate_progress Sample.fifty) = Returns 57 /\
  100 * 29 / 50 = 58.
Proof. vm_compute. repeat split; reflexivity. Qed.

(** C3, at the input where it fails: for the seeded project, which has no
    artifact and a stored progress of 35, the call returns 0 and leaves the
    field at 35. *)
Theorem calculate_progress_seeded_not_written_back :
  Project.calculate_progress Sample.seeded = (Returns 0, Sample.seeded) /\
  Project.progress_percentage (snd (Project.calculate_progress Sample.seeded))
  = Some 35.
Proof. vm_compute. split; reflexivity. Qed.

(** On every other path the value returned is the value stored. *)
Lemma calculate_progress_written_back (p : Project.t) (v : Z) :
  total_count p <> 0 ->
  fst (Project.calculate_progress p) = Returns v ->
  Project.progress_percentage (snd (Project.calculate_progress p)) = Some v.
Proof.
  intros Hne. rewrite calculate_progress_counts.
  destruct (Z.eqb_spec (total_count p) 0) as [E | _]; [contradiction |].
  destruct (percentage _ _); simpl; congruence.
Qed.

(** ** The JSON codec *)

Section JsonProperties.
Import Json.

Lemma skip_ws_length (s : str) : (length (skip_ws s) <= length s)%nat.
Proof. induction s as [| c s IH]; simpl; [lia |]. destruct (is_ws c); simpl; lia. Qed.

Lemma push_inv (c : codepoint) (r : option (str * str)) (t rest : str) :
push c r = Some (t, rest) -> exists t', r = Some (t', rest) /\ t = c :: t'.
Proof.
destruct r as [[t' rest'] |]; simpl; [| discriminate].
intros [= <- <-]. eauto.
Qed.

Lemma scanstring_length (k : nat) :
forall s t rest,
  (length s <= k)%nat -> scanstring s = Some (t, rest) ->
  (length rest < length s)%nat.
Proof.
induction k as [| k IH]; intros s t rest Hk Hs.
- destruct s; [discriminate | simpl in Hk; lia].
- destruct s as [| c r]; [discriminate |].
  simpl in Hs. simpl in Hk.
  repeat case_match; simplify_eq; cbn [length] in *; try lia;
    match goal with
    | H : push _ (scanstring _) = Some _ |- _ =>
        apply push_inv in H as (? & H & _); apply IH in H;
        cbn [length] in *; lia
    end.
Qed.

Lemma span_digits_length (s : str) :
forall ds rest, span_digits s = (ds, rest) -> length s = (length ds + length rest)%nat.
Proof.
induction s as [| c s IH]; intros ds rest H; simpl in H.
- simplify_eq. reflexivity.
- destruct (is_digit c).
  + destruct (span_digits s) as [ds' rest'] eqn:E. simplify_eq.
    simpl. rewrite (IH _ _ eq_refl). reflexivity.
  + simplify_eq. reflexivity.
Qed.

Lemma match_frac_length (s frac rest : str) :
match_frac s = (frac, rest) -> (length rest <= length s)%nat.
Proof.
unfold match_frac. intros H.
repeat case_match; simplify_eq; simpl; try lia.
match goal with H : span_digits _ = _ |- _ => apply span_digits_length in H end.
simpl in *. lia.
Qed.

Lemma match_exp_length (s e rest : str) :
match_exp s = (e, rest) -> (length rest <= length s)%nat.
Proof.
unfold match_exp. intros H.
repeat case_match; simplify_eq; simpl; try lia;
match goal with H : span_digits _ = _ |- _ => apply span_digits_length in H end;
simpl in *; lia.
Qed.

Lemma match_int_length (s ip rest : str) :
match_int s = Some (ip, rest) -> (length rest < length s)%nat.
Proof.
unfold match_int. intros H.
repeat case_match; simplify_eq; simpl; try lia.
match goal with H : span_digits _ = _ |- _ => apply span_digits_length in H end.
simpl in *. lia.
Qed.

Lemma match_number_length (s : str) (v : value) (rest : str) :
match_number s = Some (v, rest) -> (length rest < length s)%nat.
Proof.
unfold match_number. intros H.
destruct s as [| c r].
- simpl in H. discriminate.
- destruct (c =? 45);
    (destruct (match_int _) as [[ip r1] |] eqn:Hi; [| discriminate]);
    (destruct (match_frac r1) as [frac r2] eqn:Hf);
    (destruct (match_exp r2) as [ex r3] eqn:He);
    apply match_int_length in Hi; apply match_frac_length in Hf;
    apply match_exp_length in He;
    destruct frac, ex; simplify_eq; simpl in *; lia.
Qed.

Lemma strip_prefix_length (p : str) :
forall s rest, strip_prefix p s = Some rest -> length s = (length p + length rest)%nat.
Proof.
induction p as [| a p IH]; intros s rest H; simpl in H.
- simplify_eq. reflexivity.
- destruct s as [| b s]; [discriminate |].
  destruct (a =? b); [| discriminate].
  simpl. rewrite (IH _ _ H). reflexivity.
Qed.

Lemma scan_atom_length (s : str) (v : value) (rest : str) :
scan_atom s = Some (v, rest) -> (length rest < length s)%nat.
Proof.
unfold scan_atom. intros H.
repeat case_match; simplify_eq;
  try (match goal with H : strip_prefix _ _ = Some _ |- _ =>
         apply strip_prefix_length in H; simpl in H; lia end).
match goal with H : match_number _ = Some _ |- _ =>
  apply match_number_length in H; assumption end.
Qed.

Lemma scan_once_S (n k : nat) (s : str) :
scan_once (S n) k s =
match s with
| [] => Malformed
| c :: r =>
    if c =? QUOTE then
      match scanstring r with
      | Some (t, rest) => Parsed (JStr t) rest
      | None => Malformed
      end
    else if c =? LBRACE then
      match k with
      | O => Aborted RecursionError
      | S inner =>
          match skip_ws r with
          | d :: r' =>
              if d =? RBRACE then Parsed (JObj []) r'
              else
                match object_items n inner (d :: r') with
                | Parsed ps rest => Parsed (JObj (dict_of_pairs ps)) rest
                | Malformed => Malformed
                | Aborted e => Aborted e
                | OutOfFuel => OutOfFuel
                end
          | [] => Malformed
          end
      end
    else if c =? LBRACKET then
      match k with
      | O => Aborted RecursionError
      | S inner =>
          match skip_ws r with
          | d :: r' =>
              if d =? RBRACKET then Parsed (JArr []) r'
              else
                match array_items n inner (d :: r') with
                | Parsed vs rest => Parsed (JArr vs) rest
                | Malformed => Malformed
                | Aborted e => Aborted e
                | OutOfFuel => OutOfFuel
                end
          | [] => Malformed
          end
      end
    else
      match scan_atom s with
      | Some (v, rest) =>
          match v with
          | JInt _ =>
              if (MAX_STR_DIGITS <? integer_digits s)%nat
              then Aborted ValueError
              else Parsed v rest
          | _ => Parsed v rest
          end
      | None => Malformed
      end
end.
Proof. reflexivity. Qed.

Lemma array_items_S (n k : nat) (s : str) :
array_items (S n) k s =
match scan_once n k s with
| Parsed v rest =>
    match skip_ws rest with
    | c :: r =>
        if c =? RBRACKET then Parsed [v] r
        else if c =? COMMA then
          match array_items n k (skip_ws r) with
          | Parsed vs rest' => Parsed (v :: vs) rest'
          | Malformed => Malformed
          | Aborted e => Aborted e
          | OutOfFuel => OutOfFuel
          end
        else Malformed
    | [] => Malformed
    end
| Malformed => Malformed
| Aborted e => Aborted e
| OutOfFuel => OutOfFuel
end.
Proof. reflexivity. Qed.

Lemma object_items_S (n k : nat) (s : str) :
object_items (S n) k s =
match s with
| q :: r =>
    if q =? QUOTE then
      match scanstring r with
      | Some (key, rest) =>
          match skip_ws rest with
          | col :: r2 =>
              if col =? COLON then
                match scan_once n k (skip_ws r2) with
                | Parsed v rest3 =>
                    match skip_ws rest3 with
                    | d :: r5 =>
                        if d =? RBRACE then Parsed [(key, v)] r5
                        else if d =? COMMA then
                          match object_items n k (skip_ws r5) with
                          | Parsed ps rest6 => Parsed ((key, v) :: ps) rest6
                          | Malformed => Malformed
                          | Aborted e => Aborted e
                          | OutOfFuel => OutOfFuel
                          end
                        else Malformed
                    | [] => Malformed
                    end
                | Malformed => Malformed
                | Aborted e => Aborted e
                | OutOfFuel => OutOfFuel
                end
              else Malformed
          | [] => Malformed
          end
      | None => Malformed
      end
    else Malformed
| [] => Malformed
end.
Proof. reflexivity. Qed.

Ltac skip_ws_facts :=
repeat match goal with
  | H : skip_ws ?x = _ |- _ =>
      let L := fresh "L" in
      pose proof (skip_ws_length x) as L; rewrite H in L; clear H
  | H : context [length (skip_ws ?x)] |- _ =>
      lazymatch goal with
      | _ : (length (skip_ws x) <= length x)%nat |- _ => fail
      | _ => pose proof (skip_ws_length x)
      end
  | |- context [length (skip_ws ?x)] =>
      lazymatch goal with
      | _ : (length (skip_ws x) <= length x)%nat |- _ => fail
      | _ => pose proof (skip_ws_length x)
      end
  end.

Ltac consumed IHs IHa IHo :=
repeat match goal with
  | H : scan_once _ _ _ = Parsed _ _ |- _ => apply IHs in H
  | H : array_items _ _ _ = Parsed _ _ |- _ => apply IHa in H
  | H : object_items _ _ _ = Parsed _ _ |- _ => apply IHo in H
  | H : scanstring _ = Some _ |- _ =>
      apply (scanstring_length _ _ _ _ (le_n _)) in H
  | H : scan_atom _ = Some _ |- _ => apply scan_atom_length in H
  end;
skip_ws_facts; cbn [length] in *.

Lemma scan_consumes (n : nat) : consumes n.
Proof.
induction n as [| n (IHs & IHa & IHo)]; [repeat split; discriminate |].
repeat split.
- intros d s v rest H. rewrite scan_once_S in H.
  repeat case_match; simplify_eq; consumed IHs IHa IHo; lia.
- intros d s vs rest H. rewrite array_items_S in H.
  repeat case_match; simplify_eq; consumed IHs IHa IHo; lia.
- intros d s ps rest H. rewrite object_items_S in H.
  repeat case_match; simplify_eq; consumed IHs IHa IHo; lia.
Qed.

Lemma fuel_enough (n : nat) : enough n.
Proof.
induction n as [| n (IHs & IHa & IHo)]; [repeat split; intros; lia |].
destruct (scan_consumes n) as (Cs & Ca & Co).
repeat split.
- intros d s Hn H. rewrite scan_once_S in H.
  repeat case_match; simplify_eq;
    match goal with
    | H : object_items _ _ _ = OutOfFuel |- _ => apply IHo in H; [contradiction |]
    | H : array_items _ _ _ = OutOfFuel |- _ => apply IHa in H; [contradiction |]
    end; consumed Cs Ca Co; lia.
- intros d s Hn H. rewrite array_items_S in H.
  repeat case_match; simplify_eq;
    match goal with
    | H : scan_once _ _ _ = OutOfFuel |- _ => apply IHs in H; [contradiction |]
    | H : array_items _ _ _ = OutOfFuel |- _ => apply IHa in H; [contradiction |]
    end; consumed Cs Ca Co; lia.
- intros d s Hn H. rewrite object_items_S in H.
  repeat case_match; simplify_eq;
    match goal with
    | H : scan_once _ _ _ = OutOfFuel |- _ => apply IHs in H; [contradiction |]
    | H : object_items _ _ _ = OutOfFuel |- _ => apply IHo in H; [contradiction |]
    end; consumed Cs Ca Co; lia.
Qed.

(** The scanner gives up for two reasons only: the depth of the nesting and
  the length of an integer. *)
Lemma aborted_by (n : nat) :
(forall d s e, scan_once n d s = Aborted e -> e = RecursionError \/ e = ValueError) /\
(forall d s e, array_items n d s = Aborted e -> e = RecursionError \/ e = ValueError) /\
(forall d s e, object_items n d s = Aborted e -> e = RecursionError \/ e = ValueError).
Proof.
induction n as [| n (IHs & IHa & IHo)]; [repeat split; discriminate |].
repeat split.
- intros d s e H. rewrite scan_once_S in H.
  repeat case_match; simplify_eq; eauto.
- intros d s e H. rewrite array_items_S in H.
  repeat case_match; simplify_eq; eauto.
- intros d s e H. rewrite object_items_S in H.
  repeat case_match; simplify_eq; eauto.
Qed.

Lemma loads_total (depth : nat) (s : str) :
(exists v, loads depth s = Returns v) \/ loads depth s = Raises JSONDecodeError \/
loads depth s = Raises RecursionError \/ loads depth s = Raises ValueError.
Proof.
unfold loads.
destruct (fuel_enough (2 * length s + 1)) as (Hs & _ & _).
specialize (Hs depth (skip_ws s)).
pose proof (skip_ws_length s).
destruct (scan_once (2 * length s + 1) depth (skip_ws s)) as [v rest | | e |] eqn:E.
- destruct (skip_ws rest); repeat case_match; eauto.
- repeat case_match; eauto.
- apply (proj1 (aborted_by _)) in E as [-> | ->]; repeat case_match; eauto.
- exfalso. apply Hs; [lia | reflexivity].
Qed.

Lemma json_loads_total (s : str) :
(exists v, json_loads s = Returns v) \/ json_loads s = Raises JSONDecodeError \/
json_loads s = Raises RecursionError \/ json_loads s = Raises ValueError.
Proof. apply loads_total. Qed.

Lemma hex_value_digit (d : Z) :
0 <= d < 16 -> hex_value (hex_digit d) = Some d.
Proof.
intros H. unfold hex_value, hex_digit.
destruct (Z.ltb_spec d 10).
- replace ((48 <=? 48 + d) && (48 + d <=? 57)) with true by lia.
  f_equal; lia.
- replace ((48 <=? 87 + d) && (87 + d <=? 57)) with false by lia.
  replace ((97 <=? 87 + d) && (87 + d <=? 102)) with true by lia.
  f_equal; lia.
Qed.

Lemma decode_hex4 (n : Z) :
0 <= n < 65536 ->
exists h1 h2 h3 h4,
  hex4 n = [h1; h2; h3; h4] /\ decode_uXXXX h1 h2 h3 h4 = Some n.
Proof.
intros H. unfold hex4. do 4 eexists. split; [reflexivity |].
unfold decode_uXXXX.
rewrite !Z.shiftr_div_pow2 by lia.
rewrite !hex_value_digit by (apply Z.mod_pos_bound; lia).
f_equal.
change (2 ^ 12) with 4096. change (2 ^ 8) with 256. change (2 ^ 4) with 16.
Z.div_mod_to_equations. lia.
Qed.

Lemma lor_add (a b k : Z) :
0 <= k -> 0 <= b < 2 ^ k -> Z.lor (a * 2 ^ k) b = a * 2 ^ k + b.
Proof.
intros Hk Hb.
assert (Hland : Z.land (a * 2 ^ k) b = 0).
{ apply Z.bits_inj'. intros i Hi. rewrite Z.land_spec, Z.bits_0.
  rewrite <- Z.shiftl_mul_pow2 by lia.
  destruct (Z.lt_ge_cases i k) as [Hlt | Hge].
  - rewrite Z.shiftl_spec_low by lia. reflexivity.
  - destruct (Z.eq_dec b 0) as [-> | Hnz].
    + rewrite Z.bits_0. apply andb_false_r.
    + rewrite (Z.bits_above_log2 b i); [apply andb_false_r | lia |].
      apply Z.log2_lt_pow2; [lia |].
      apply Z.lt_le_trans with (2 ^ k); [lia |].
      apply Z.pow_le_mono_r; lia. }
rewrite Z.add_nocarry_lxor by exact Hland.
symmetry. apply Z.lxor_lor. exact Hland.
Qed.

Lemma land_1023 (x : Z) : Z.land x 1023 = x mod 1024.
Proof. change 1023 with (Z.ones 10). rewrite Z.land_ones by lia. reflexivity. Qed.

(** The two code units the encoder writes for a character beyond the
  basic plane, and what the decoder makes of them. *)
Lemma surrogates_of (c : Z) :
65536 <= c <= 1114111 ->
let n := c - 65536 in
let s1 := Z.lor 55296 (Z.land (Z.shiftr n 10) 1023) in
let s2 := Z.lor 56320 (Z.land n 1023) in
is_high_surrogate s1 = true /\ is_low_surrogate s2 = true /\
join_surrogates s1 s2 = c.
Proof.
intros H n s1 s2.
assert (Hs1 : s1 = 55296 + n / 1024).
{ unfold s1. rewrite land_1023, Z.shiftr_div_pow2 by lia.
  change (2 ^ 10) with 1024.
  rewrite (Z.mod_small (n / 1024)) by (unfold n; Z.div_mod_to_equations; lia).
  change 55296 with (54 * 2 ^ 10) at 1. rewrite lor_add; [reflexivity | lia |].
  change (2 ^ 10) with 1024. unfold n. Z.div_mod_to_equations. lia. }
assert (Hs2 : s2 = 56320 + n mod 1024).
{ unfold s2. rewrite land_1023.
  change 56320 with (55 * 2 ^ 10) at 1. rewrite lor_add; [reflexivity | lia |].
  change (2 ^ 10) with 1024. Z.div_mod_to_equations. lia. }
unfold is_high_surrogate, is_low_surrogate, join_surrogates.
rewrite Hs1, Hs2. unfold n in *.
repeat split.
- apply andb_true_iff; split; Z.div_mod_to_equations; lia.
- apply andb_true_iff; split; Z.div_mod_to_equations; lia.
- rewrite Z.shiftl_mul_pow2 by lia.
  rewrite lor_add; change (2 ^ 10) with 1024; Z.div_mod_to_equations; lia.
Qed.

Lemma escape_char_escaped (c : codepoint) :
valid_codepoint c -> escaped c (escape_char c).
Proof.
intros Hc. unfold valid_codepoint in Hc.
unfold escape_char, needs_escape.
destruct (Z.eqb_spec c BACKSLASH) as [-> | Hb].
{ simpl. apply (esc_short _ BACKSLASH); reflexivity. }
destruct (Z.eqb_spec c QUOTE) as [-> | Hq].
{ simpl. apply (esc_short _ QUOTE); reflexivity. }
simpl orb.
destruct ((32 <=? c) && (c <=? 126)) eqn:Hp; simpl negb; cbv iota.
{ apply esc_plain; unfold QUOTE, BACKSLASH in *; lia. }
unfold replace, ESCAPE_DCT.
destruct (Z.eqb_spec c BACKSLASH) as [? | _]; [contradiction |].
destruct (Z.eqb_spec c QUOTE) as [? | _]; [contradiction |].
destruct (Z.eqb_spec c 8) as [-> | ?]; [apply (esc_short _ 98); reflexivity |].
destruct (Z.eqb_spec c 12) as [-> | ?]; [apply (esc_short _ 102); reflexivity |].
destruct (Z.eqb_spec c 10) as [-> | ?]; [apply (esc_short _ 110); reflexivity |].
destruct (Z.eqb_spec c 13) as [-> | ?]; [apply (esc_short _ 114); reflexivity |].
destruct (Z.eqb_spec c 9) as [-> | ?]; [apply (esc_short _ 116); reflexivity |].
destruct ((0 <=? c) && (c <? 32)) eqn:Hctl.
{ apply esc_unit. lia. }
destruct (Z.ltb_spec c 65536).
{ apply esc_unit. lia. }
destruct (surrogates_of c) as (Hh & Hl & Hj); [lia |].
apply esc_pair; try assumption.
- unfold is_high_surrogate in Hh. lia.
- unfold is_low_surrogate in Hl. lia.
Qed.

Lemma scanstring_u_escape (c : Z) (E : str) :
0 <= c < 65536 ->
(is_high_surrogate c = true -> lookahead_ok E) ->
scanstring (u_escape c ++ E) = push c (scanstring E).
Proof.
intros Hc Hla.
destruct (decode_hex4 c Hc) as (h1 & h2 & h3 & h4 & Hhex & Hdec).
unfold u_escape. rewrite Hhex. simpl. rewrite Hdec.
destruct (is_high_surrogate c) eqn:Hh; [| reflexivity].
specialize (Hla eq_refl).
destruct E as [| b [| u r7]]; try reflexivity.
simpl in Hla.
destruct ((b =? BACKSLASH) && (u =? 117)) eqn:Hbu; [| reflexivity].
specialize (Hla eq_refl).
destruct r7 as [| k1 [| k2 [| k3 [| k4 r11]]]]; try contradiction.
destruct Hla as (uni2 & -> & ->). reflexivity.
Qed.

Lemma scanstring_escaped (c : codepoint) (e E : str) :
escaped c e ->
(is_high_surrogate c = true -> lookahead_ok E) ->
scanstring (e ++ E) = push c (scanstring E).
Proof.
intros He Hla. destruct He as [Hq Hb Hctl | e He Hd | Hc | s1 s2 H1 H2 Hh Hl Hj].
- simpl. rewrite Hq, Hb, Hctl. reflexivity.
- simpl. rewrite He, Hd. reflexivity.
- apply scanstring_u_escape; assumption.
- destruct (decode_hex4 s1 H1) as (h1 & h2 & h3 & h4 & Hhex & Hdec).
  destruct (decode_hex4 s2 H2) as (k1 & k2 & k3 & k4 & Hhex2 & Hdec2).
  unfold u_escape. rewrite Hhex, Hhex2. simpl.
  rewrite Hdec, Hh, Hdec2, Hl, Hj. reflexivity.
Qed.

Lemma lookahead_escaped (c : codepoint) (e E : str) :
escaped c e -> is_low_surrogate c = false -> lookahead_ok (e ++ E).
Proof.
intros He Hlow. destruct He as [Hq Hb Hctl | e He Hd | Hc | s1 s2 H1 H2 Hh Hl Hj].
- destruct E as [| u r7]; simpl; [trivial |]. rewrite Hb. discriminate.
- simpl. rewrite He. simpl. discriminate.
- destruct (decode_hex4 c Hc) as (h1 & h2 & h3 & h4 & Hhex & Hdec).
  unfold u_escape. rewrite Hhex. simpl. intros _. eauto.
- destruct (decode_hex4 s1 H1) as (h1 & h2 & h3 & h4 & Hhex & Hdec).
  unfold u_escape at 1. rewrite Hhex. simpl. intros _.
  exists s1. split; [assumption |].
  unfold is_high_surrogate, is_low_surrogate in *. lia.
Qed.

Lemma lookahead_encoding (s rest : str) :
Forall valid_codepoint s ->
match s with c :: _ => is_low_surrogate c = false | [] => True end ->
lookahead_ok (flat_map escape_char s ++ QUOTE :: rest).
Proof.
intros Hv Hhd. destruct s as [| c s]; simpl.
- destruct rest; simpl; [trivial | discriminate].
- rewrite <- app_assoc. apply lookahead_escaped with c; [| assumption].
  apply escape_char_escaped. inversion Hv; assumption.
Qed.

Lemma scanstring_encode (s rest : str) :
Forall valid_codepoint s -> surrogate_pair_free s = true ->
scanstring (flat_map escape_char s ++ QUOTE :: rest) = Some (s, rest).
Proof.
induction s as [| c s IH]; intros Hv Hfree.
- reflexivity.
- inversion Hv as [| ? ? Hc Hs]; subst.
  simpl in Hfree. apply andb_true_iff in Hfree as [Hhead Hfree].
  simpl flat_map. rewrite <- app_assoc.
  rewrite (scanstring_escaped c).
  + rewrite IH by assumption. reflexivity.
  + apply escape_char_escaped; assumption.
  + intros Hh. apply lookahead_encoding; [assumption |].
    destruct s as [| b s']; [trivial |].
    rewrite Hh in Hhead. simpl in Hhead.
    destruct (is_low_surrogate b); [discriminate | reflexivity].
Qed.

Lemma scan_once_encoded (n d : nat) (x E : str) :
roundtrips x ->
scan_once (S n) d (encode_basestring_ascii x ++ E) = Parsed (JStr x) E.
Proof.
intros [Hv Hf]. unfold encode_basestring_ascii.
simpl. rewrite <- app_assoc. simpl.
rewrite scanstring_encode by assumption. reflexivity.
Qed.

Lemma skip_ws_encoded (x E : str) :
skip_ws (encode_basestring_ascii x ++ E) = encode_basestring_ascii x ++ E.
Proof. reflexivity. Qed.

Lemma array_items_encoded (L : list str) :
forall (x : str) (rest : str) (n d : nat),
  Forall roundtrips (x :: L) ->
  (length L + 2 <= n)%nat ->
  array_items n d
    (encode_basestring_ascii x
       ++ flat_map (fun s => COMMA :: SPACE :: encode_basestring_ascii s) L
       ++ RBRACKET :: rest)
  = Parsed (JStr x :: map JStr L) rest.
Proof.
induction L as [| y L IH]; intros x rest n d Hok Hn.
- destruct n as [| [| n]]; simpl in Hn; try lia.
  rewrite array_items_S, scan_once_encoded by (inversion Hok; assumption).
  reflexivity.
- destruct n as [| [| n]]; simpl in Hn; try lia.
  rewrite array_items_S, scan_once_encoded by (inversion Hok; assumption).
  inversion Hok as [| ? ? _ Hok']; subst.
  cbn [flat_map]. rewrite <- app_assoc.
  change (skip_ws ((COMMA :: SPACE :: encode_basestring_ascii y) ++ ?t))
    with (COMMA :: SPACE :: encode_basestring_ascii y ++ t).
  cbv iota beta.
  change (COMMA =? RBRACKET) with false.
  change (COMMA =? COMMA) with true. cbv iota.
  change (skip_ws (SPACE :: encode_basestring_ascii y ++ ?t))
    with (encode_basestring_ascii y ++ t).
  rewrite IH by (assumption || lia). reflexivity.
Qed.

Lemma length_dumps_cons (x : str) (L : list str) :
(length L + 2 <= length (dumps (x :: L)))%nat.
Proof.
unfold dumps. simpl. rewrite !length_app. simpl.
assert (length L <=
        length (flat_map (fun s => COMMA :: SPACE :: encode_basestring_ascii s) L))%nat.
{ clear. induction L as [| y L IH]; simpl; [lia |]. rewrite !length_app. lia. }
lia.
Qed.

Lemma loads_dumps (L : list str) :
Forall roundtrips L ->
json_loads (json_dumps L) = Returns (JArr (map JStr L)).
Proof.
intros Hok. destruct L as [| x L]; [reflexivity |].
pose proof (length_dumps_cons x L) as Hlen.
unfold json_loads, loads, json_dumps.
remember (length (dumps (x :: L))) as k eqn:Hk.
replace (2 * k + 1)%nat with (S (2 * k)) by lia.
unfold dumps.
change (skip_ws (LBRACKET :: encode_basestring_ascii x ++ ?t))
  with (LBRACKET :: encode_basestring_ascii x ++ t).
change RECURSION_LIMIT with (S 999).
change (scan_once (S ?n) (S ?d) (LBRACKET :: encode_basestring_ascii x ++ ?t))
  with (match array_items n d (encode_basestring_ascii x ++ t) with
        | Parsed vs rest => Parsed (JArr vs) rest
        | Malformed => Malformed
        | Aborted e => Aborted e
        | OutOfFuel => OutOfFuel
        end).
rewrite array_items_encoded by (assumption || lia).
reflexivity.
Qed.

End JsonProperties.

(** ** Serialized list fields *)

Lemma get_team_members_blob (p : Project.t) :
  Project.get_team_members p = get_serialized_list (Project.team_members p).
Proof. reflexivity. Qed.

Lemma get_additional_whys_blob (fw : FiveWhys.t) :
  FiveWhys.get_additional_whys fw = get_serialized_list (FiveWhys.additional_whys fw).
Proof. reflexivity. Qed.

Lemma get_causes_list_blob (c : IshikawaCategory.t) :
  IshikawaCategory.get_causes_list c = get_serialized_list (IshikawaCategory.causes c).
Proof. reflexivity. Qed.

Lemma get_serialized_list_unreadable (blob : option str) :
  unreadable blob -> get_serialized_list blob = Returns (Json.JArr []).
Proof.
  intros [-> | [-> | (text & -> & E)]]; try reflexivity.
  unfold get_serialized_list. simpl.
  destruct (truthy_str text); simpl; [| reflexivity].
  rewrite E. reflexivity.
Qed.

Section JsonLimits.
Import Json.

Lemma skip_ws_nested (k : nat) : skip_ws (nested k) = nested k.
Proof. destruct k; reflexivity. Qed.

(** Opening brackets only: the scanner fails at the end of the text when it
    has a recursive call left for each bracket, and for want of one
    otherwise. *)
Lemma scan_once_nested (k : nat) :
  forall n d,
    (2 * k <= n)%nat ->
    scan_once (S n) d (nested k)
    = if (k <=? d)%nat then Malformed else Aborted RecursionError.
Proof.
  induction k as [| k IH]; intros n d Hn; [reflexivity |].
  rewrite scan_once_S. change (nested (S k)) with (LBRACKET :: nested k).
  cbv iota. change (LBRACKET =? QUOTE) with false.
  change (LBRACKET =? LBRACE) with false. change (LBRACKET =? LBRACKET) with true.
  cbv iota.
  destruct d as [| d]; [reflexivity |].
  rewrite skip_ws_nested.
  destruct k as [| k]; [reflexivity |].
  change (nested (S k)) with (LBRACKET :: nested k) at 1.
  cbv iota. change (LBRACKET =? RBRACKET) with false. cbv iota.
  change (LBRACKET :: nested k) with (nested (S k)).
  destruct n as [| [| n]]; [lia | lia |].
  rewrite array_items_S, IH by lia.
  change (S (S k) <=? S d)%nat with (S k <=? d)%nat.
  destruct (S k <=? d)%nat; reflexivity.
Qed.

Lemma loads_nested (k depth : nat) :
  (0 < k)%nat ->
  loads depth (nested k)
  = Raises (if (k <=? depth)%nat then JSONDecodeError else RecursionError).
Proof.
  intros Hk. unfold loads.
  destruct k as [| k]; [lia |].
  change (nested (S k)) with (LBRACKET :: nested k) at 1.
  cbv iota.
  change (LBRACKET :: nested k) with (nested (S k)).
  rewrite skip_ws_nested.
  replace (2 * length (nested (S k)) + 1)%nat with (S (2 * S k))
    by (unfold nested; rewrite length_replicate; lia).
  rewrite scan_once_nested by lia.
  destruct (S k <=? depth)%nat; reflexivity.
Qed.

Lemma span_digits_long (k : nat) (rest : str) :
  match rest with c :: _ => is_digit c = false | [] => True end ->
  span_digits (long_integer k ++ rest) = (long_integer k, rest).
Proof.
  intros Hrest. induction k as [| k IH].
  - destruct rest as [| c rest]; [reflexivity |]. simpl. rewrite Hrest. reflexivity.
  - change (long_integer (S k) ++ rest) with (49 :: (long_integer k ++ rest)).
    cbn [span_digits]. change (is_digit 49) with true. cbv iota.
    rewrite IH. reflexivity.
Qed.

Lemma scan_once_long_integer (k n d : nat) :
  scan_once (S n) d (long_integer (S k))
  = if (MAX_STR_DIGITS <? S k)%nat then Aborted ValueError
    else Parsed (JInt (digits_value (long_integer (S k)))) [].
Proof.
  rewrite scan_once_S.
  assert (Hspan : span_digits (long_integer k) = (long_integer k, [])).
  { rewrite <- (app_nil_r (long_integer k)) at 1. apply span_digits_long. exact I. }
  assert (Hnum : match_number (long_integer (S k))
                 = Some (JInt (digits_value (long_integer (S k))), [])).
  { unfold match_number. change (long_integer (S k)) with (49 :: long_integer k).
    cbv iota. change (49 =? 45) with false. cbv iota.
    unfold match_int. change (49 =? 48) with false.
    change ((49 <=? 49) && (49 <=? 57)) with true. cbv iota.
    rewrite Hspan. reflexivity. }
  assert (Hatom : scan_atom (long_integer (S k))
                  = Some (JInt (digits_value (long_integer (S k))), [])).
  { unfold scan_atom. rewrite Hnum. reflexivity. }
  assert (Hdigits : integer_digits (long_integer (S k)) = S k).
  { unfold integer_digits. change (long_integer (S k)) with (49 :: long_integer k).
    cbv iota. change (49 =? 45) with false. cbv iota.
    unfold match_int. change (49 =? 48) with false.
    change ((49 <=? 49) && (49 <=? 57)) with true. cbv iota.
    rewrite Hspan. change (49 :: long_integer k) with (long_integer (S k)).
    unfold long_integer. apply length_replicate. }
  change (long_integer (S k)) with (49 :: long_integer k) at 1.
  cbv iota. change (49 =? QUOTE) with false. change (49 =? LBRACE) with false.
  change (49 =? LBRACKET) with false. cbv iota.
  change (49 :: long_integer k) with (long_integer (S k)).
  rewrite Hatom, Hdigits. reflexivity.
Qed.

Lemma loads_long_integer (k depth : nat) :
  (MAX_STR_DIGITS < k)%nat -> loads depth (long_integer k) = Raises ValueError.
Proof.
  intros Hk. unfold loads. destruct k as [| k]; [lia |].
  change (long_integer (S k)) with (49 :: long_integer k) at 1. cbv iota.
  change (skip_ws (long_integer (S k))) with (long_integer (S k)).
  replace (2 * length (long_integer (S k)) + 1)%nat
    with (S (2 * length (long_integer (S k)))) by lia.
  rewrite scan_once_long_integer.
  apply Nat.ltb_lt in Hk. rewrite Hk. reflexivity.
Qed.

End JsonLimits.

Lemma get_serialized_list_raises (text : str) (e : exn) :
  truthy_str text = true -> json_loads text = Raises e -> e <> JSONDecodeError ->
  get_serialized_list (Some text) = Raises e.
Proof.
  intros Ht Hl He. unfold get_serialized_list. simpl. rewrite Ht, Hl. simpl.
  destruct e; try reflexivity. contradiction.
Qed.

(** C5.  The getters [get_team_members], [get_additional_whys] and
    [get_causes_list] raise on some stored texts.  A text of more opening
    brackets than the recursion limit allows is not a JSON document: with
    calls enough left, the decoder reports a [JSONDecodeError], which the
    getters would turn into the empty list.  With the calls it has left,
    it raises a [RecursionError], which the getters let through.  On an
    integer of more than 4300 digits the decoder raises a [ValueError], and
    so do the getters. *)
Theorem getters_raise_on_deep_nesting (k j : nat) :
  (RECURSION_LIMIT < k)%nat -> (Json.MAX_STR_DIGITS < j)%nat ->
  (forall depth, (k <= depth)%nat -> Json.loads depth (nested k) = Raises JSONDecodeError) /\
  (forall depth, (depth <= RECURSION_LIMIT)%nat ->
                 Json.loads depth (nested k) = Raises RecursionError) /\
  (forall p, Project.team_members p = Some (nested k) ->
             Project.get_team_members p = Raises RecursionError) /\
  (forall fw, FiveWhys.additional_whys fw = Some (nested k) ->
              FiveWhys.get_additional_whys fw = Raises RecursionError) /\
  (forall c, IshikawaCategory.causes c = Some (nested k) ->
             IshikawaCategory.get_causes_list c = Raises RecursionError) /\
  (forall p, Project.team_members p = Some (long_integer j) ->
             Project.get_team_members p = Raises ValueError) /\
  (forall fw, FiveWhys.additional_whys fw = Some (long_integer j) ->
              FiveWhys.get_additional_whys fw = Raises ValueError) /\
  (forall c, IshikawaCategory.causes c = Some (long_integer j) ->
             IshikawaCategory.get_causes_list c = Raises ValueError).
Proof.
  intros Hk Hj.
  assert (Hpos : (0 < k)%nat) by lia.
  assert (Hdeep : forall depth, (depth <= RECURSION_LIMIT)%nat ->
                    Json.loads depth (nested k) = Raises RecursionError).
  { intros depth Hd. rewrite loads_nested by exact Hpos.
    replace (k <=? depth)%nat with false; [reflexivity |].
    symmetry. apply Nat.leb_gt. lia. }
  assert (Hnested : get_serialized_list (Some (nested k)) = Raises RecursionError).
  { apply get_serialized_list_raises.
    - destruct k; [lia | reflexivity].
    - apply Hdeep. lia.
    - discriminate. }
  assert (Hlong : get_serialized_list (Some (long_integer j)) = Raises ValueError).
  { apply get_serialized_list_raises.
    - destruct j; [lia | reflexivity].
    - apply loads_long_integer, Hj.
    - discriminate. }
  split.
  { intros depth Hd. rewrite loads_nested by exact Hpos.
    replace (k <=? depth)%nat with true; [reflexivity |].
    symmetry. apply Nat.leb_le. exact Hd. }
  split; [exact Hdeep |].
  repeat split.
  - intros p E. rewrite get_team_members_blob, E. exact Hnested.
  - intros fw E. rewrite get_additional_whys_blob, E. exact Hnested.
  - intros c E. rewrite get_causes_list_blob, E. exact Hnested.
  - intros p E. rewrite get_team_members_blob, E. exact Hlong.
  - intros fw E. rewrite get_additional_whys_blob, E. exact Hlong.
  - intros c E. rewrite get_causes_list_blob, E. exact Hlong.
Qed.

Lemma getters_raise_on_deep_nesting_witness :
  Project.get_team_members nested_project = Raises RecursionError /\
  FiveWhys.get_additional_whys nested_whys = Raises RecursionError.
Proof.
  assert (Hk : (RECURSION_LIMIT < 1500)%nat) by (apply Nat.ltb_lt; vm_compute; reflexivity).
  assert (Hj : (Json.MAX_STR_DIGITS < 4301)%nat)
    by (apply Nat.ltb_lt; vm_compute; reflexivity).
  destruct (getters_raise_on_deep_nesting 1500 4301 Hk Hj)
    as (_ & _ & Hp & Hfw & _).
  split; [apply Hp | apply Hfw]; reflexivity.
Defined.

(** The getters raise nothing else. *)
Lemma get_serialized_list_total (blob : option str) :
  (exists v, get_serialized_list blob = Returns v) \/
  get_serialized_list blob = Raises RecursionError \/
  get_serialized_list blob = Raises ValueError.
Proof.
  unfold get_serialized_list.
  destruct blob as [text |]; simpl; [| eauto].
  destruct (truthy_str text); simpl; [| eauto].
  destruct (json_loads_total text) as [[v ->] | [-> | [-> | ->]]]; eauto.
Qed.

Lemma get_serialized_list_dumps (L : list str) :
  Forall roundtrips L ->
  get_serialized_list (Some (json_dumps L)) = Returns (Json.JArr (map Json.JStr L)).
Proof.
  intros HL. unfold get_serialized_list.
  assert (Ht : truthy_opt_str (Some (json_dumps L)) = true) by (destruct L; reflexivity).
  rewrite Ht. simpl. rewrite loads_dumps by assumption. reflexivity.
Qed.

(** C6, as amended.  For every list of strings in which no string has a
    high surrogate immediately followed by a low surrogate, setting a
    serialized-list field and getting it back returns the list unchanged:
    team members, additional whys and causes alike. *)
Theorem set_get_roundtrip (L : list str) (p : Project.t) (fw : FiveWhys.t)
  (c : IshikawaCategory.t) :
  Forall roundtrips L ->
  Project.get_team_members (Project.set_team_members p L)
    = Returns (Json.JArr (map Json.JStr L)) /\
  FiveWhys.get_additional_whys (FiveWhys.set_additional_whys fw L)
    = Returns (Json.JArr (map Json.JStr L)) /\
  IshikawaCategory.get_causes_list (IshikawaCategory.set_causes_list c L)
    = Returns (Json.JArr (map Json.JStr L)).
Proof.
  intros HL.
  rewrite get_team_members_blob, get_additional_whys_blob, get_causes_list_blob.
  simpl. rewrite get_serialized_list_dumps by assumption. auto.
Qed.

Lemma set_get_roundtrip_witness :
  Project.get_team_members (Project.set_team_members Sample.seeded Sample.members)
    = Returns (Json.JArr (map Json.JStr Sample.members)).
Proof.
  apply (set_get_roundtrip Sample.members Sample.seeded Sample.whys_a_c_d
           Sample.category).
  repeat constructor; vm_compute; intros; discriminate.
Defined.

(** C6, as stated, fails on a string that holds a surrogate pair as two code
    points: the encoder writes two escapes, and the decoder reads them back
    as the one character U+1F600. *)
Lemma roundtrip_fails_on_surrogate_pair :
  Sample.surrogates <> [] /\
  Project.get_team_members (Project.set_team_members Sample.seeded Sample.surrogates)
    = Returns (Json.JArr [Json.JStr [128512]]) /\
  Project.get_team_members (Project.set_team_members Sample.seeded Sample.surrogates)
    <> Returns (Json.JArr (map Json.JStr Sample.surrogates)) /\
  FiveWhys.get_additional_whys
    (FiveWhys.set_additional_whys Sample.whys_a_c_d Sample.surrogates)
    <> Returns (Json.JArr (map Json.JStr Sample.surrogates)) /\
  IshikawaCategory.get_causes_list
    (IshikawaCategory.set_causes_list Sample.category Sample.surrogates)
    <> Returns (Json.JArr (map Json.JStr Sample.surrogates)).
Proof. vm_compute. repeat split; discriminate. Qed.

(** ** The whys of an analysis *)

Lemma fold_slots (self : FiveWhys.t) :
  fold_left
    (fun whys i =>
       match FiveWhys.getattr_why self i with
       | Some why => if truthy_str why then whys ++ [Json.JStr why] else whys
       | None => whys
       end)
    [1; 2; 3; 4; 5] []
  = filled_slots self.
Proof.
  unfold filled_slots. destruct self as [? ? ? w1 w2 w3 w4 w5 ? ? ?].
  simpl.
  destruct w1 as [[|]|], w2 as [[|]|], w3 as [[|]|], w4 as [[|]|], w5 as [[|]|];
    reflexivity.
Qed.

Lemma get_all_whys_filled (self : FiveWhys.t) :
  FiveWhys.get_all_whys self =
  match FiveWhys.additional_whys self with
  | Some blob =>
      if truthy_str blob then
        match json_loads blob with
        | Returns additional => list_extend (filled_slots self) additional
        | Raises JSONDecodeError => Returns (filled_slots self)
        | Raises e => Raises e
        end
      else Returns (filled_slots self)
  | None => Returns (filled_slots self)
  end.
Proof. unfold FiveWhys.get_all_whys. rewrite fold_slots. reflexivity. Qed.

(** When the stored additional whys read back as a list, [get_all_whys]
    returns the fixed slots [why_1] to [why_5] in that order, unset slots
    skipped, followed by the list in its stored order. *)
Lemma get_all_whys_order (fw : FiveWhys.t) (L : list Json.value) :
  FiveWhys.get_additional_whys fw = Returns (Json.JArr L) ->
  FiveWhys.get_all_whys fw = Returns (filled_slots fw ++ L).
Proof.
  rewrite get_all_whys_filled, get_additional_whys_blob.
  unfold get_serialized_list.
  destruct (FiveWhys.additional_whys fw) as [blob |]; simpl.
  - destruct (truthy_str blob); simpl.
    + destruct (json_loads blob) as [v | []]; intros [= E]; subst;
        simpl; rewrite ?app_nil_r; reflexivity.
    + intros [= <-]. rewrite app_nil_r. reflexivity.
  - intros [= <-]. rewrite app_nil_r. reflexivity.
Qed.

(** The example of the specification: A, C and D. *)
Lemma get_all_whys_order_witness :
  FiveWhys.get_all_whys Sample.whys_a_c_d
  = Returns [Json.JStr (Json.lit "A"); Json.JStr (Json.lit "C");
             Json.JStr (Json.lit "D")].
Proof.
  apply (get_all_whys_order Sample.whys_a_c_d [Json.JStr (Json.lit "D")]).
  vm_compute. reflexivity.
Defined.

(** C2.  [get_all_whys] does not return for every record.  When the stored
    additional whys are the text of a JSON number or [null], a text that
    [get_additional_whys] reads without error, [whys.extend] raises a
    [TypeError], whatever the fixed slots hold: only [JSONDecodeError] is
    caught. *)
Theorem get_all_whys_raises_on_a_number (fw : FiveWhys.t) :
  FiveWhys.get_additional_whys (with_additional_whys (Json.lit "5") fw)
    = Returns (Json.JInt 5) /\
  FiveWhys.get_all_whys (with_additional_whys (Json.lit "5") fw) = Raises TypeError /\
  FiveWhys.get_additional_whys (with_additional_whys (Json.lit "null") fw)
    = Returns Json.JNull /\
  FiveWhys.get_all_whys (with_additional_whys (Json.lit "null") fw) = Raises TypeError /\
  filled_slots (with_additional_whys (Json.lit "5") fw) = filled_slots fw.
Proof.
  assert (H5 : json_loads (Json.lit "5") = Returns (Json.JInt 5))
    by (vm_compute; reflexivity).
  assert (Hnull : json_loads (Json.lit "null") = Returns Json.JNull)
    by (vm_compute; reflexivity).
  rewrite !get_all_whys_filled, !get_additional_whys_blob.
  unfold get_serialized_list, with_additional_whys. cbn [FiveWhys.additional_whys].
  change (truthy_opt_str (Some (Json.lit "5"))) with true.
  change (truthy_opt_str (Some (Json.lit "null"))) with true.
  change (truthy_str (Json.lit "5")) with true.
  change (truthy_str (Json.lit "null")) with true.
  cbv iota. change (negb true) with false. cbv iota.
  rewrite H5, Hnull. repeat split.
Qed.

(** The analysis with the first slot set to A and the text [5] stored. *)
Lemma get_all_whys_on_a_5 :
  filled_slots whys_a_5 = [Json.JStr (Json.lit "A")] /\
  FiveWhys.get_additional_whys whys_a_5 = Returns (Json.JInt 5) /\
  FiveWhys.get_all_whys whys_a_5 = Raises TypeError.
Proof. vm_compute. repeat split. Qed.

Lemma filled_slots_without_empty (fw : FiveWhys.t) :
  filled_slots (without_empty_slots fw) = filled_slots fw.
Proof.
  destruct fw as [? ? ? w1 w2 w3 w4 w5 ? ? ?]. unfold filled_slots. simpl.
  destruct w1 as [[|]|], w2 as [[|]|], w3 as [[|]|], w4 as [[|]|], w5 as [[|]|];
    reflexivity.
Qed.

Lemma empty_strings_app (l1 l2 : list Json.value) :
  empty_strings (l1 ++ l2) = (empty_strings l1 + empty_strings l2)%nat.
Proof. unfold empty_strings. rewrite filter_app, length_app. reflexivity. Qed.

Lemma empty_strings_filled_slots (fw : FiveWhys.t) :
  empty_strings (filled_slots fw) = 0%nat.
Proof.
  destruct fw as [? ? ? w1 w2 w3 w4 w5 ? ? ?]. unfold filled_slots. simpl.
  destruct w1 as [[|]|], w2 as [[|]|], w3 as [[|]|], w4 as [[|]|], w5 as [[|]|];
    reflexivity.
Qed.

(** C10.  A fixed slot holding the empty string counts as unset: unsetting
    such slots does not change what [get_all_whys] returns.  The result has
    exactly as many empty strings as the stored additional whys: none comes
    from a slot, and none of the stored ones is dropped. *)
Theorem empty_slot_is_unset_slot (fw : FiveWhys.t) :
  FiveWhys.get_all_whys (without_empty_slots fw) = FiveWhys.get_all_whys fw /\
  forall L,
    FiveWhys.get_additional_whys fw = Returns (Json.JArr L) ->
    exists whys,
      FiveWhys.get_all_whys fw = Returns whys /\
      empty_strings whys = empty_strings L.
Proof.
  split.
  - rewrite !get_all_whys_filled, filled_slots_without_empty. reflexivity.
  - intros L. rewrite get_all_whys_filled, get_additional_whys_blob.
    unfold get_serialized_list.
    assert (Hcount : empty_strings (filled_slots fw ++ L) = empty_strings L).
    { rewrite empty_strings_app, empty_strings_filled_slots. reflexivity. }
    assert (Hnone : L = [] -> empty_strings (filled_slots fw) = empty_strings L).
    { intros ->. apply empty_strings_filled_slots. }
    destruct (FiveWhys.additional_whys fw) as [blob |]; simpl.
    + destruct (truthy_str blob); simpl.
      * destruct (json_loads blob) as [v | []]; intros [= E]; subst; simpl; eauto.
      * intros [= <-]. eauto.
    + intros [= <-]. eauto.
Qed.

Lemma empty_slot_is_unset_slot_witness :
  exists whys,
    FiveWhys.get_all_whys Sample.whys_with_blanks = Returns whys /\
    empty_strings whys = 1%nat.
Proof.
  destruct (empty_slot_is_unset_slot Sample.whys_with_blanks) as [_ H].
  apply (H [Json.JStr []; Json.JStr (Json.lit "D")]).
  vm_compute. reflexivity.
Defined.

(** ** The generic repository *)

Lemma filter_none {A} (P : A -> Prop) `{forall x, Decision (P x)} (l : list A) :
  (forall x, ~ P x) -> filter P l = [].
Proof.
  intros Hnone. induction l as [| x l IH]; [reflexivity |].
  rewrite filter_cons_False by apply Hnone. exact IH.
Qed.

Lemma search_loop (lib : library) (m : model) (filters : list (string * sqlvalue)) :
  forall criteria,
    fold_left
      (fun query kv =>
         if BaseRepository.hasattr lib m (fst kv)
         then
           match query, BaseRepository.getattr lib m (fst kv) with
           | Returns criteria, Some a =>
               match BaseRepository.compared a (fst kv) (snd kv) with
               | Returns c => Returns (criteria ++ [c])
               | Raises e => Raises e
               end
           | _, _ => query
           end
         else query)
      filters (Returns criteria)
    = match clauses lib m filters with
      | Returns cs => Returns (criteria ++ cs)
      | Raises e => Raises e
      end.
Proof.
  induction filters as [| [key value] filters IH]; intros criteria.
  - simpl. rewrite app_nil_r. reflexivity.
  - cbn [fold_left clauses fst snd]. unfold BaseRepository.hasattr.
    destruct (BaseRepository.getattr lib m key) as [a |]; [| apply IH].
    destruct (BaseRepository.compared a key value) as [c | e].
    + rewrite IH. destruct (clauses lib m filters) as [cs | e]; [| reflexivity].
      rewrite <- app_assoc. reflexivity.
    + clear IH. induction filters as [| [k v] filters IHf]; [reflexivity |].
      cbn [fold_left fst snd].
      destruct (match BaseRepository.getattr lib m k with
                | Some _ => true
                | None => false
                end); exact IHf.
Qed.

Lemma search_clauses (lib : library) (m : model) (filters : list (string * sqlvalue))
  (db : database) :
  BaseRepository.search lib m filters db
  = match clauses lib m filters with
    | Returns cs => BaseRepository.all lib m cs db
    | Raises e => Raises e
    end.
Proof.
  unfold BaseRepository.search. rewrite search_loop.
  destruct (clauses lib m filters); reflexivity.
Qed.

Lemma clauses_passes (lib : library) (m : model) (db : database) (r : row) :
  forall filters cs,
    clauses lib m filters = Returns cs ->
    forallb (BaseRepository.holds lib db r) cs = passes lib m db filters r.
Proof.
  unfold passes.
  induction filters as [| [key value] filters IH]; intros cs Hcs; simpl in Hcs.
  - injection Hcs as <-. reflexivity.
  - cbn [forallb fst snd].
    destruct (BaseRepository.getattr lib m key) as [a |].
    + destruct (BaseRepository.compared a key value) as [c | e]; [| discriminate].
      destruct (clauses lib m filters) as [cs' | e]; [| discriminate].
      injection Hcs as <-. cbn [forallb]. rewrite (IH cs' eq_refl). reflexivity.
    + rewrite (IH cs Hcs). reflexivity.
Qed.

Lemma all_returns (lib : library) (m : model) (cs : list BaseRepository.criterion)
  (db : database) (rows : list row) :
  BaseRepository.all lib m cs db = Returns rows <->
  omap (fun p => BaseRepository.bind_error (fst p) (snd p)) (BaseRepository.parameters cs)
    = [] /\
  forallb (fun p => BaseRepository.fits_int64 (snd p)) (BaseRepository.parameters cs)
    = true /\
  rows = filter (fun r => forallb (BaseRepository.holds lib db r) cs = true) (db m).
Proof.
  unfold BaseRepository.all.
  destruct (omap _ (BaseRepository.parameters cs)) as [| e es].
  - destruct (forallb _ (BaseRepository.parameters cs)).
    + split; [intros [= <-]; auto | intros (_ & _ & ->); reflexivity].
    + split; [discriminate | intros (_ & ? & _); discriminate].
  - split; [discriminate | intros (? & _); discriminate].
Qed.

Lemma accepted_clauses (lib : library) (m : model) :
  forall filters,
    forallb (accepted lib m) filters = true <->
    exists cs,
      clauses lib m filters = Returns cs /\
      omap (fun p => BaseRepository.bind_error (fst p) (snd p))
        (BaseRepository.parameters cs) = [] /\
      forallb (fun p => BaseRepository.fits_int64 (snd p)) (BaseRepository.parameters cs)
        = true.
Proof.
  induction filters as [| [key value] filters IH].
  - simpl. split; [intros _; exists []; auto | reflexivity].
  - cbn [forallb clauses fst snd]. rewrite andb_true_iff, IH. unfold accepted.
    cbn [fst snd].
    destruct (BaseRepository.getattr lib m key) as [a |].
    2: { split; [intros [_ H]; exact H | intros H; split; [reflexivity | exact H]]. }
    destruct (BaseRepository.compared a key value) as [c | e].
    2: { split; [intros [? _]; discriminate | intros (cs & ? & _); discriminate]. }
    split.
    + intros [Hc (cs & -> & Hb & Hf)]. exists (c :: cs). split; [reflexivity |].
      destruct c as [b | k | k ty v | child fk];
        unfold BaseRepository.parameters in *; cbn [omap] in *; auto.
      cbn. destruct (BaseRepository.bind_error ty v); [discriminate |].
      cbn. rewrite Hc. auto.
    + intros (cs' & Hcs & Hb & Hf).
      destruct (clauses lib m filters) as [cs | e]; [| discriminate].
      injection Hcs as <-.
      destruct c as [b | k | k ty v | child fk];
        unfold BaseRepository.parameters in *; cbn [omap] in *; eauto.
      cbn in Hb, Hf.
      destruct (BaseRepository.bind_error ty v); [discriminate |].
      cbn in Hf. apply andb_true_iff in Hf as [Hv Hf]. split; [exact Hv | eauto].
Qed.

(** [search] returns when every filter is accepted, and then the rows of
    the table that pass the filters, in the order of the table. *)
Lemma search_returns (lib : library) (m : model) (filters : list (string * sqlvalue))
  (db : database) (rows : list row) :
  BaseRepository.search lib m filters db = Returns rows <->
  forallb (accepted lib m) filters = true /\
  rows = filter (fun r => passes lib m db filters r = true) (db m).
Proof.
  rewrite search_clauses, accepted_clauses.
  destruct (clauses lib m filters) as [cs | e] eqn:Hcs.
  - rewrite all_returns. split.
    + intros (Hb & Hf & ->). split; [eauto |].
      apply list_filter_iff. intros r. rewrite (clauses_passes lib m db r _ _ Hcs).
      reflexivity.
    + intros [(cs' & [= <-] & Hb & Hf) ->]. split; [exact Hb |]. split; [exact Hf |].
      apply list_filter_iff. intros r. rewrite (clauses_passes lib m db r _ _ Hcs).
      reflexivity.
  - split; [discriminate | intros [(cs & ? & _) _]; discriminate].
Qed.

Lemma getattr_method (lib : library) (m : model) (key : string) :
  key ∈ methods m \/ key ∈ declarative_attributes ->
  (key ∉ columns m) /\
  BaseRepository.getattr lib m key
  = Some (PlainAttribute (fun _ => false)).
Proof.
  intros [Hkey | Hkey]; destruct m; simpl in Hkey;
    repeat (apply elem_of_cons in Hkey as [-> | Hkey];
            [split; [apply (bool_decide_unpack _); vm_compute; exact I | reflexivity] |]);
    inversion Hkey.
Qed.

Lemma getattr_relationship (lib : library) (m : model) (key : string)
  (uselist : bool) (other : model) (fk : string) :
  assoc key (relationships m) = Some (uselist, other, fk) ->
  (key ∉ columns m) /\
  BaseRepository.getattr lib m key = Some (RelationshipAttribute uselist other fk).
Proof.
  intros Hrel. destruct m; simpl in Hrel;
    repeat match type of Hrel with
           | (if decide (?k = key) then _ else _) = _ =>
               destruct (decide (k = key)) as [<- | _];
               [injection Hrel as <- <- <-;
                split; [apply (bool_decide_unpack _); vm_compute; exact I | reflexivity] |]
           end;
    discriminate.
Qed.

(** C7.  [search] does not skip every key that is not a field of the
    class.  A key that names a method of the class, or [metadata] or
    [registry], is no column, and with it [search] finds nothing, whatever
    is stored: the attribute equals no value, and the clause is
    [filter(False)].  A key that names a relationship is
    no column either, and with a value other than [None] the comparison
    raises: an [ArgumentError] when the relationship refers to one
    instance. *)
Theorem search_filters_on_other_attributes (lib : library) (m : model) (key : string)
  (value : sqlvalue) (db : database) :
  (key ∈ methods m \/ key ∈ declarative_attributes ->
   (key ∉ columns m) /\ BaseRepository.search lib m [(key, value)] db = Returns []) /\
  (forall uselist other fk,
     assoc key (relationships m) = Some (uselist, other, fk) -> value <> NULL ->
     (key ∉ columns m) /\
     exists e,
       BaseRepository.search lib m [(key, value)] db = Raises e /\
       (uselist = false -> e = ArgumentError)).
Proof.
  split.
  - intros Hkey. destruct (getattr_method lib m key Hkey) as [Hno Hattr].
    split; [exact Hno |].
    rewrite search_clauses. cbn [clauses fst snd]. rewrite Hattr.
    cbn [BaseRepository.compared]. unfold BaseRepository.all.
    cbn [BaseRepository.parameters omap forallb].
    f_equal. apply filter_none. intros r. cbn [forallb BaseRepository.holds].
    discriminate.
  - intros uselist other fk Hrel Hvalue.
    destruct (getattr_relationship lib m key uselist other fk Hrel) as [Hno Hattr].
    split; [exact Hno |].
    rewrite search_clauses. cbn [clauses fst snd]. rewrite Hattr.
    destruct value; [contradiction | |];
      (eexists; split; [reflexivity | intros ->; reflexivity]).
Qed.

Lemma search_filters_on_other_attributes_witness :
  BaseRepository.search no_library FiveWhysModel [("get_all_whys", INTEGER 1)] Sample.store
    = Returns [] /\
  BaseRepository.search no_library FiveWhysModel [("project", TEXT (Json.lit "P1"))]
    Sample.store = Raises ArgumentError /\
  length (BaseRepository.get_all FiveWhysModel Sample.store) = 2%nat.
Proof.
  destruct (search_filters_on_other_attributes no_library FiveWhysModel "get_all_whys"
              (INTEGER 1) Sample.store) as [Hm _].
  destruct (search_filters_on_other_attributes no_library FiveWhysModel "project"
              (TEXT (Json.lit "P1")) Sample.store) as [_ Hr].
  split; [| split].
  - apply Hm. left. apply (bool_decide_unpack _). vm_compute. exact I.
  - destruct (Hr false ProjectModel "project_id") as (_ & e & He & Hkind);
      [reflexivity | discriminate |].
    rewrite He, Hkind; reflexivity.
  - reflexivity.
Defined.

Lemma set_table_same (m : model) (rows : list row) (db : database) :
  set_table m rows db m = rows.
Proof. unfold set_table. rewrite decide_True by reflexivity. reflexivity. Qed.

Lemma set_table_other (m m' : model) (rows : list row) (db : database) :
  m' <> m -> set_table m rows db m' = db m'.
Proof. intros Hne. unfold set_table. rewrite decide_False by exact Hne. reflexivity. Qed.

Lemma delete_row_same (m : model) (pk : sqlvalue) (db : database) :
  delete_row m pk db m = filter (fun r => column r "id" <> pk) (db m).
Proof. apply set_table_same. Qed.

Lemma delete_row_other (m m' : model) (pk : sqlvalue) (db : database) :
  m' <> m -> delete_row m pk db m' = db m'.
Proof. apply set_table_other. Qed.

Lemma delete_row_subset (m m' : model) (pk : sqlvalue) (db : database) (r : row) :
  r ∈ delete_row m pk db m' -> r ∈ db m'.
Proof.
  destruct (decide (m' = m)) as [-> | Hne].
  - rewrite delete_row_same, list_elem_of_filter. tauto.
  - rewrite delete_row_other by exact Hne. tauto.
Qed.

(** A property of the store that every step of a loop preserves holds
    after the loop. *)
Lemma fold_left_preserves_in {A} (P : database -> Prop)
  (f : database -> A -> database) (l : list A) :
  (forall acc x, x ∈ l -> P acc -> P (f acc x)) ->
  forall acc, P acc -> P (fold_left f l acc).
Proof.
  induction l as [| x l IH]; intros Hstep acc Hacc; simpl; [assumption |].
  apply IH.
  - intros acc' y Hy. apply Hstep. right. exact Hy.
  - apply Hstep; [left | exact Hacc].
Qed.

Lemma fold_left_preserves {A} (P : database -> Prop) (f : database -> A -> database)
  (l : list A) :
  (forall acc x, P acc -> P (f acc x)) ->
  forall acc, P acc -> P (fold_left f l acc).
Proof. intros Hstep. apply fold_left_preserves_in. intros acc x _. apply Hstep. Qed.

(** A property that the step for [x] establishes from [Q], where every step
    preserves both, holds after a loop that visits [x]. *)
Lemma fold_left_establishes {A} (P Q : database -> Prop)
  (f : database -> A -> database) (l : list A) (x : A) :
  (forall acc y, P acc -> P (f acc y)) ->
  (forall acc y, Q acc -> Q (f acc y)) ->
  (forall acc, Q acc -> P (f acc x)) ->
  x ∈ l ->
  forall acc, Q acc -> P (fold_left f l acc).
Proof.
  intros HP HQ Hx. induction l as [| y l IH]; intros Hin acc Hacc; [inversion Hin |].
  simpl. apply elem_of_cons in Hin as [<- | Hin].
  - apply fold_left_preserves; [exact HP |]. apply Hx, Hacc.
  - apply IH; [exact Hin |]. apply HQ, Hacc.
Qed.

Lemma delete_cascade_S (n : nat) (m : model) (pk : sqlvalue) (db : database) :
  delete_cascade (S n) m pk db =
  delete_row m pk
    (fold_left
       (fun acc rel =>
          fold_left
            (fun acc child => delete_cascade n (fst rel) (column child "id") acc)
            (filter (fun r => column r (snd rel) = pk) (db (fst rel)))
            acc)
       (cascades m) db).
Proof. reflexivity. Qed.

(** Deleting never adds a row. *)
Lemma delete_cascade_subset (n : nat) :
  forall m pk db m' r, r ∈ delete_cascade n m pk db m' -> r ∈ db m'.
Proof.
  induction n as [| n IH]; intros m pk db m' r; [tauto |].
  rewrite delete_cascade_S. intros Hr. apply delete_row_subset in Hr.
  revert Hr.
  apply (fold_left_preserves (fun acc => r ∈ acc m' -> r ∈ db m')); [| tauto].
  intros acc rel Hacc.
  apply (fold_left_preserves (fun acc => r ∈ acc m' -> r ∈ db m')); [| exact Hacc].
  intros acc' child Hacc' Hr. apply Hacc'. eapply IH. exact Hr.
Qed.

Lemma delete_cascade_absent (n : nat) (m : model) (pk : sqlvalue) (db : database)
  (m' : model) (x : sqlvalue) :
  absent m' x db -> absent m' x (delete_cascade n m pk db).
Proof. intros Ha r Hr. apply Ha. eapply delete_cascade_subset. exact Hr. Qed.

Lemma cascades_level (m child : model) (fk : string) :
  (child, fk) ∈ cascades m -> (level child < level m)%nat.
Proof.
  destruct m; simpl; intros H;
    repeat (apply elem_of_cons in H as [[= -> _] | H]; [simpl; lia |]);
    inversion H.
Qed.

(** A class is not among its own descendants: deleting below leaves the
    tables at the same level or above as they are. *)
Lemma delete_cascade_other (n : nat) :
  forall m pk db m',
    (level m <= level m')%nat -> m' <> m -> delete_cascade n m pk db m' = db m'.
Proof.
  induction n as [| n IH]; intros m pk db m' Hlv Hne; [reflexivity |].
  rewrite delete_cascade_S, delete_row_other by exact Hne.
  apply (fold_left_preserves_in (fun acc => acc m' = db m')); [| reflexivity].
  intros acc [child fk] Hrel Hacc. apply cascades_level in Hrel. simpl.
  apply (fold_left_preserves (fun acc => acc m' = db m')); [| exact Hacc].
  intros acc' r Hacc'. rewrite IH; [exact Hacc' | lia |].
  intros ->. lia.
Qed.

(** The table of the deleted row loses exactly the rows with its key. *)
Lemma delete_cascade_same (n : nat) (m : model) (pk : sqlvalue) (db : database) :
  delete_cascade (S n) m pk db m = filter (fun r => column r "id" <> pk) (db m).
Proof.
  rewrite delete_cascade_S, delete_row_same. f_equal.
  apply (fold_left_preserves_in (fun acc => acc m = db m)); [| reflexivity].
  intros acc [child fk] Hrel Hacc. apply cascades_level in Hrel. simpl.
  apply (fold_left_preserves (fun acc => acc m = db m)); [| exact Hacc].
  intros acc' r Hacc'. rewrite delete_cascade_other; [exact Hacc' | lia |].
  intros ->. lia.
Qed.

Lemma delete_cascade_gone (n : nat) (m : model) (pk : sqlvalue) (db : database) :
  absent m pk (delete_cascade (S n) m pk db).
Proof.
  intros r. rewrite delete_cascade_same, list_elem_of_filter. tauto.
Qed.

(** A row that is still there or whose key is gone stays so. *)
Lemma delete_cascade_kept_or_gone (n : nat) :
  forall m pk db m' r,
    kept_or_gone m' r db -> kept_or_gone m' r (delete_cascade n m pk db).
Proof.
  induction n as [| n IH]; intros m pk db m' r Hk; [exact Hk |].
  rewrite delete_cascade_S.
  assert (Hfold : kept_or_gone m' r
            (fold_left
               (fun acc rel =>
                  fold_left
                    (fun acc child =>
                       delete_cascade n (fst rel) (column child "id") acc)
                    (filter (fun r => column r (snd rel) = pk) (db (fst rel)))
                    acc)
               (cascades m) db)).
  { apply (fold_left_preserves (kept_or_gone m' r)); [| exact Hk].
    intros acc rel Hacc.
    apply (fold_left_preserves (kept_or_gone m' r)); [| exact Hacc].
    intros acc' child Hacc'. apply IH. exact Hacc'. }
  destruct Hfold as [Hin | Habs].
  - destruct (decide (m' = m)) as [-> | Hne].
    + destruct (decide (column r "id" = pk)) as [E | Hd].
      * right. intros r'. rewrite delete_row_same, list_elem_of_filter.
        rewrite E. tauto.
      * left. rewrite delete_row_same, list_elem_of_filter. tauto.
    + left. rewrite delete_row_other by exact Hne. exact Hin.
  - right. intros r' Hr'. apply Habs. eapply delete_row_subset. exact Hr'.
Qed.

(** The rows a cascading relationship attaches to the deleted row go with
    it. *)
Lemma delete_cascade_children (n : nat) (m : model) (pk : sqlvalue)
  (db : database) (child_model : model) (child : row) :
  owned_by m pk child_model child db ->
  absent child_model (column child "id") (delete_cascade (S (S n)) m pk db).
Proof.
  intros (fk & Hrel & Hin & Hfk).
  rewrite delete_cascade_S.
  intros r Hr. apply delete_row_subset in Hr. revert r Hr.
  change (absent child_model (column child "id")
            (fold_left
               (fun acc rel =>
                  fold_left
                    (fun acc c =>
                       delete_cascade (S n) (fst rel) (column c "id") acc)
                    (filter (fun r => column r (snd rel) = pk) (db (fst rel)))
                    acc)
               (cascades m) db)).
  apply (fold_left_establishes (absent child_model (column child "id"))
           (fun _ => True) _ _ (child_model, fk)).
  - intros acc rel Hacc.
    apply (fold_left_preserves (absent child_model (column child "id")));
      [| exact Hacc].
    intros acc' c Hacc'. apply delete_cascade_absent. exact Hacc'.
  - trivial.
  - intros acc _. cbn [fst snd].
    apply (fold_left_establishes (absent child_model (column child "id"))
             (fun _ => True) _ _ child).
    + intros acc' c Hacc'. apply delete_cascade_absent. exact Hacc'.
    + trivial.
    + intros acc' _. apply delete_cascade_gone.
    + apply list_elem_of_filter. split; assumption.
    + exact I.
  - exact Hrel.
  - exact I.
Qed.

(** So do the rows attached to those. *)
Lemma delete_cascade_grandchildren (n : nat) (m : model) (pk : sqlvalue)
  (db : database) (child_model : model) (child : row)
  (grandchild_model : model) (grandchild : row) :
  owned_by m pk child_model child db ->
  owned_by child_model (column child "id") grandchild_model grandchild db ->
  absent grandchild_model (column grandchild "id")
    (delete_cascade (S (S (S n))) m pk db).
Proof.
  intros (fk & Hrel & Hin & Hfk) (fk' & Hrel' & Hin' & Hfk').
  rewrite delete_cascade_S.
  intros r Hr. apply delete_row_subset in Hr. revert r Hr.
  change (absent grandchild_model (column grandchild "id")
            (fold_left
               (fun acc rel =>
                  fold_left
                    (fun acc c =>
                       delete_cascade (S (S n)) (fst rel) (column c "id") acc)
                    (filter (fun r => column r (snd rel) = pk) (db (fst rel)))
                    acc)
               (cascades m) db)).
  apply (fold_left_establishes (absent grandchild_model (column grandchild "id"))
           (kept_or_gone grandchild_model grandchild) _ _ (child_model, fk)).
  - intros acc rel Hacc.
    apply (fold_left_preserves (absent grandchild_model (column grandchild "id")));
      [| exact Hacc].
    intros acc' c Hacc'. apply delete_cascade_absent. exact Hacc'.
  - intros acc rel Hacc.
    apply (fold_left_preserves (kept_or_gone grandchild_model grandchild));
      [| exact Hacc].
    intros acc' c Hacc'. apply delete_cascade_kept_or_gone. exact Hacc'.
  - intros acc Hacc. cbn [fst snd].
    apply (fold_left_establishes (absent grandchild_model (column grandchild "id"))
             (kept_or_gone grandchild_model grandchild) _ _ child).
    + intros acc' c Hacc'. apply delete_cascade_absent. exact Hacc'.
    + intros acc' c Hacc'. apply delete_cascade_kept_or_gone. exact Hacc'.
    + intros acc' [Hkept | Hgone].
      * apply delete_cascade_children. exists fk'. auto.
      * apply delete_cascade_absent. exact Hgone.
    + apply list_elem_of_filter. split; assumption.
    + exact Hacc.
  - exact Hrel.
  - left. exact Hin'.
Qed.

Lemma absent_get_by_id (m : model) (record_id : str) (db : database) :
  absent m (TEXT record_id) db -> BaseRepository.get_by_id m record_id db = None.
Proof.
  intros Ha. unfold BaseRepository.get_by_id.
  destruct (head _) as [r |] eqn:E; [| reflexivity].
  apply head_Some_elem_of, list_elem_of_filter in E as [Hid Hin].
  exfalso. exact (Ha r Hin Hid).
Qed.

Lemma get_by_id_found (m : model) (record_id : str) (db : database) (obj : row) :
  BaseRepository.get_by_id m record_id db = Some obj ->
  obj ∈ db m /\ column obj "id" = TEXT record_id.
Proof.
  unfold BaseRepository.get_by_id. intros E.
  apply head_Some_elem_of, list_elem_of_filter in E. tauto.
Qed.



(** C4.  After [delete] of a stored project, no Five Whys analysis, no
    Ishikawa diagram with its categories and no action plan with its tasks
    that the project owned is found under its former id. *)
Theorem delete_project_cascades (project_id : str) (db : database) (project : row) :
  BaseRepository.get_by_id ProjectModel project_id db = Some project ->
  let db' := snd (BaseRepository.delete ProjectModel project_id db) in
  (forall fw rid,
     fw ∈ db FiveWhysModel -> column fw "project_id" = TEXT project_id ->
     column fw "id" = TEXT rid ->
     BaseRepository.get_by_id FiveWhysModel rid db' = None) /\
  (forall d rid,
     d ∈ db IshikawaDiagramModel -> column d "project_id" = TEXT project_id ->
     column d "id" = TEXT rid ->
     BaseRepository.get_by_id IshikawaDiagramModel rid db' = None /\
     forall c cid,
       c ∈ db IshikawaCategoryModel -> column c "diagram_id" = TEXT rid ->
       column c "id" = TEXT cid ->
       BaseRepository.get_by_id IshikawaCategoryModel cid db' = None) /\
  (forall ap rid,
     ap ∈ db ActionPlanModel -> column ap "project_id" = TEXT project_id ->
     column ap "id" = TEXT rid ->
     BaseRepository.get_by_id ActionPlanModel rid db' = None /\
     forall t tid,
       t ∈ db ActionPlanTaskModel -> column t "action_plan_id" = TEXT rid ->
       column t "id" = TEXT tid ->
       BaseRepository.get_by_id ActionPlanTaskModel tid db' = None).
Proof.
  intros Hproject db'. subst db'. unfold BaseRepository.delete. rewrite Hproject.
  apply get_by_id_found in Hproject as [_ Hid].
  cbn [snd]. unfold session_delete. rewrite Hid.
  assert (Hchild : forall child_model fk child rid,
            (child_model, fk) ∈ cascades ProjectModel ->
            child ∈ db child_model -> column child fk = TEXT project_id ->
            column child "id" = TEXT rid ->
            BaseRepository.get_by_id child_model rid
              (delete_cascade 6 ProjectModel (TEXT project_id) db) = None).
  { intros child_model fk child rid Hrel Hin Hfk Hrid.
    apply absent_get_by_id. rewrite <- Hrid.
    apply delete_cascade_children. exists fk. auto. }
  assert (Hgrand : forall child_model fk child rid gm fk' g gid,
            (child_model, fk) ∈ cascades ProjectModel ->
            child ∈ db child_model -> column child fk = TEXT project_id ->
            column child "id" = TEXT rid ->
            (gm, fk') ∈ cascades child_model ->
            g ∈ db gm -> column g fk' = TEXT rid -> column g "id" = TEXT gid ->
            BaseRepository.get_by_id gm gid
              (delete_cascade 6 ProjectModel (TEXT project_id) db) = None).
  { intros child_model fk child rid gm fk' g gid Hrel Hin Hfk Hrid Hrel' Hin' Hfk' Hgid.
    apply absent_get_by_id. rewrite <- Hgid.
    apply delete_cascade_grandchildren with child_model child.
    - exists fk. auto.
    - exists fk'. rewrite Hrid. auto. }
  split; [| split].
  - intros fw rid Hin Hfk Hrid.
    apply (Hchild FiveWhysModel "project_id" fw); auto. simpl. set_solver.
  - intros d rid Hin Hfk Hrid. split.
    + apply (Hchild IshikawaDiagramModel "project_id" d); auto. simpl. set_solver.
    + intros c cid Hc Hcfk Hcid.
      apply (Hgrand IshikawaDiagramModel "project_id" d rid
               IshikawaCategoryModel "diagram_id" c); auto; simpl; set_solver.
  - intros ap rid Hin Hfk Hrid. split.
    + apply (Hchild ActionPlanModel "project_id" ap); auto. simpl. set_solver.
    + intros t tid Ht Htfk Htid.
      apply (Hgrand ActionPlanModel "project_id" ap rid
               ActionPlanTaskModel "action_plan_id" t); auto; simpl; set_solver.
Qed.

Lemma delete_project_cascades_witness :
  let db' := snd (BaseRepository.delete ProjectModel (Json.lit "P1") Sample.store) in
  BaseRepository.get_by_id FiveWhysModel (Json.lit "F1") db' = None /\
  BaseRepository.get_by_id IshikawaDiagramModel (Json.lit "D1") db' = None /\
  BaseRepository.get_by_id IshikawaCategoryModel (Json.lit "C1") db' = None /\
  BaseRepository.get_by_id ActionPlanModel (Json.lit "A1") db' = None /\
  BaseRepository.get_by_id ActionPlanTaskModel (Json.lit "T1") db' = None.
Proof.
  destruct (delete_project_cascades (Json.lit "P1") Sample.store
              {[ "id" := TEXT (Json.lit "P1") ]}) as (Hfw & Hd & Hap);
    [vm_compute; reflexivity |].
  destruct (Hd (Sample.stored "D1" "project_id" "P1") (Json.lit "D1")) as [Hd1 Hc];
    [left | vm_compute; reflexivity | vm_compute; reflexivity |].
  destruct (Hap (Sample.stored "A1" "project_id" "P1") (Json.lit "A1")) as [Ha1 Ht];
    [left | vm_compute; reflexivity | vm_compute; reflexivity |].
  split; [| split; [| split; [| split]]].
  - apply (Hfw (Sample.stored "F1" "project_id" "P1"));
      [left | vm_compute; reflexivity | vm_compute; reflexivity].
  - exact Hd1.
  - apply (Hc (Sample.stored "C1" "diagram_id" "D1"));
      [left | vm_compute; reflexivity | vm_compute; reflexivity].
  - exact Ha1.
  - apply (Ht (Sample.stored "T1" "action_plan_id" "A1"));
      [left | vm_compute; reflexivity | vm_compute; reflexivity].
Defined.

(** The rows of the other project stay. *)
Lemma delete_project_keeps_others :
  map (fun m => length
                  (snd (BaseRepository.delete ProjectModel (Json.lit "P1") Sample.store) m))
      [ProjectModel; FiveWhysModel; IshikawaDiagramModel; IshikawaCategoryModel;
       ActionPlanModel; ActionPlanTaskModel]
  = [1; 1; 0; 0; 0; 0]%nat.
Proof. vm_compute. reflexivity. Qed.

(** ** Completing an artifact *)

Section MarkCompleteProperties.

Context {T : Type} `{Artifact T}.
Variable uuid4 utcnow today : str.
Variable refresh : database -> Project.t -> Project.t.

Lemma saved_or_unsaved (self : View.t T) :
  unsaved self \/
  exists a rid, View.artifact self = Some a /\ get_id a = Some rid /\
                truthy_str rid = true.
Proof.
  unfold unsaved. destruct (View.artifact self) as [a |]; [| auto].
  destruct (get_id a) as [[| c rid] |] eqn:E; eauto 8.
Qed.

(** C9.  Marking an artifact complete while it has no id (or while the view
    holds no artifact) is rejected with the warning that it is not saved:
    the view, and with it the completion flag, and the store are left as
    they were.  Anything else happens only for an artifact with an id. *)
Theorem mark_complete_rejects_unsaved (reply : StandardButton) (self : View.t T)
  (db : database) :
  (unsaved self ->
   View.mark_complete uuid4 utcnow today refresh reply self db
   = (self, db, [warning "Not Saved" not_saved_text])) /\
  (View.mark_complete uuid4 utcnow today refresh reply self db
   <> (self, db, [warning "Not Saved" not_saved_text]) ->
   exists a rid, View.artifact self = Some a /\ get_id a = Some rid /\
                 truthy_str rid = true).
Proof.
  assert (Hrej : unsaved self ->
                 View.mark_complete uuid4 utcnow today refresh reply self db
                 = (self, db, [warning "Not Saved" not_saved_text])).
  { unfold unsaved, View.mark_complete.
    intros [-> | (a & -> & [-> | ->])]; reflexivity. }
  split; [exact Hrej |].
  intros Hne. destruct (saved_or_unsaved self) as [Hu | Hs]; [| exact Hs].
  exfalso. apply Hne, Hrej, Hu.
Qed.

End MarkCompleteProperties.

Lemma mark_complete_rejects_unsaved_witness :
  View.mark_complete [] [] [] (fun _ p => p) Yes Sample.unsaved_view Sample.store
  = (Sample.unsaved_view, Sample.store,
     [warning "Not Saved" "Please save the analysis first."]).
Proof.
  refine (proj1 (mark_complete_rejects_unsaved [] [] [] (fun _ p => p) Yes
                   Sample.unsaved_view Sample.store) _).
  right. exists (Sample.five_whys false). split; [reflexivity | left; reflexivity].
Defined.

(** A saved analysis, once the user confirms, is completed and written. *)
Lemma mark_complete_saved :
  match View.mark_complete [] [] [] (fun _ p => p) Yes Sample.saved_view Sample.store with
  | (view, db, dialogs) =>
      option_map FiveWhys.is_completed (View.artifact view) = Some (Some true) /\
      option_map (fun r => column r "is_completed")
        (BaseRepository.get_by_id FiveWhysModel (Json.lit "F1") db)
      = Some (INTEGER 1) /\
      View.mark_complete_btn_enabled view = false /\
      dialogs = [question "Mark as Complete" "Mark this 5 Whys analysis as complete?";
                 information "Success" "Analysis marked as complete!"]
  end.
Proof. vm_compute. repeat split; reflexivity. Qed.

(** * Further properties *)

(** ** Percentages *)

Lemma percentages_checked :
  forallb
    (fun total => forallb (fun completed => percentage_checked completed total)
                    (seq 0 (S total)))
    (seq 1 checked_items)
  = true.
Proof. vm_compute. reflexivity. Qed.

Lemma percentage_checked_at (completed total : Z) :
  0 <= completed <= total -> 0 < total <= Z.of_nat checked_items ->
  percentage_checked (Z.to_nat completed) (Z.to_nat total) = true.
Proof.
  intros Hc Ht.
  pose proof percentages_checked as H.
  rewrite List.forallb_forall in H.
  specialize (H (Z.to_nat total)).
  rewrite List.forallb_forall in H.
  apply H; apply List.in_seq; unfold checked_items in *; lia.
Qed.

Lemma percentage_bounds (completed total : Z) :
  0 <= completed <= total -> 0 < total <= Z.of_nat checked_items ->
  exists v,
    percentage completed total = Returns v /\
    100 * completed / total - 1 <= v <= 100 * completed / total /\
    0 <= v <= 100 /\
    (v = 100 <-> completed = total).
Proof.
  intros Hc Ht. pose proof (percentage_checked_at completed total Hc Ht) as H.
  unfold percentage_checked in H. rewrite !Z2Nat.id in H by lia.
  destruct (percentage completed total) as [v | e]; [| discriminate].
  exists v. split; [reflexivity |].
  rewrite !andb_true_iff in H.
  destruct H as (((((H1 & H2) & H3) & H4) & H5) & _).
  apply Bool.eqb_prop in H5.
  repeat split; try lia.
  - intros ->. rewrite Z.eqb_refl in H5. symmetry in H5.
    apply Nat.eqb_eq in H5. lia.
  - intros ->. rewrite Nat.eqb_refl in H5. apply Z.eqb_eq in H5. exact H5.
Qed.

Lemma percentage_step (completed total : Z) :
  0 <= completed < total -> 0 < total <= Z.of_nat checked_items ->
  forall v w,
    percentage completed total = Returns v ->
    percentage (completed + 1) total = Returns w -> v <= w.
Proof.
  intros Hc Ht v w Hv Hw.
  pose proof (percentage_checked_at completed total ltac:(lia) Ht) as H.
  unfold percentage_checked in H. rewrite Nat2Z.inj_succ, !Z2Nat.id in H by lia.
  unfold Z.succ in H. rewrite Hv, Hw in H.
  rewrite !andb_true_iff in H. destruct H as [_ H].
  apply orb_prop in H as [H | H]; [lia | apply Nat.leb_le in H; lia].
Qed.

Lemma percentage_monotone (total : Z) :
  0 < total <= Z.of_nat checked_items ->
  forall (d : nat) (completed : Z) v w,
    0 <= completed -> completed + Z.of_nat d <= total ->
    percentage completed total = Returns v ->
    percentage (completed + Z.of_nat d) total = Returns w -> v <= w.
Proof.
  intros Ht. induction d as [| d IH]; intros completed v w Hc Hd Hv Hw.
  - change (Z.of_nat 0) with 0 in Hw. rewrite Z.add_0_r in Hw.
    assert (v = w) by congruence. lia.
  - destruct (percentage_bounds (completed + Z.of_nat d) total) as (u & Hu & _);
      [lia | exact Ht |].
    transitivity u.
    + apply (IH completed); (lia || assumption).
    + apply (percentage_step (completed + Z.of_nat d) total); try lia; try assumption.
      rewrite <- Hw. f_equal. lia.
Qed.

(** ** Progress of a project and completion of a plan *)

(** X1.  For a project with one to two hundred artifacts, [calculate_progress]
    returns and stores a value between 0 and 100 that is the truncated
    quotient 100 * completed / total or one less, and that is 100 exactly
    when every artifact is completed. *)
Theorem calculate_progress_within_bounds (p : Project.t) :
  0 < total_count p <= 200 ->
  exists v,
    Project.calculate_progress p = (Returns v, Project.set_progress_percentage p v) /\
    0 <= v <= 100 /\
    100 * completed_count p / total_count p - 1 <= v
      <= 100 * completed_count p / total_count p /\
    (v = 100 <-> completed_count p = total_count p).
Proof.
  intros Ht.
  destruct (percentage_bounds (completed_count p) (total_count p))
    as (v & Hv & Hq & Hr & Hfull);
    [apply completed_count_bounds | unfold checked_items; lia |].
  exists v. rewrite calculate_progress_counts.
  destruct (Z.eqb_spec (total_count p) 0) as [E | _]; [lia |].
  rewrite Hv. auto.
Qed.

Lemma calculate_progress_within_bounds_witness :
  exists v,
    Project.calculate_progress Sample.three
    = (Returns v, Project.set_progress_percentage Sample.three v) /\
    0 <= v <= 100.
Proof.
  destruct (calculate_progress_within_bounds Sample.three) as (v & Hv & Hr & _);
    [vm_compute; split; [reflexivity | discriminate] |].
  exists v. split; assumption.
Defined.

(** X2.  Between two projects with the same number of artifacts, at most two
    hundred, the one with more completed artifacts does not get the lower
    progress. *)
Theorem calculate_progress_monotone (p q : Project.t) (v w : Z) :
  total_count p = total_count q -> 0 < total_count p <= 200 ->
  completed_count p <= completed_count q ->
  fst (Project.calculate_progress p) = Returns v ->
  fst (Project.calculate_progress q) = Returns w ->
  v <= w.
Proof.
  intros Hsame Ht Hc. rewrite !calculate_progress_counts, <- Hsame.
  destruct (Z.eqb_spec (total_count p) 0) as [E | _]; [lia |].
  pose proof (completed_count_bounds p). pose proof (completed_count_bounds q).
  destruct (percentage (completed_count p) (total_count p)) as [v' | e] eqn:Hv;
    [| discriminate].
  destruct (percentage (completed_count q) (total_count p)) as [w' | e] eqn:Hw;
    [| discriminate].
  simpl. intros [= <-] [= <-].
  apply (percentage_monotone (total_count p)) with
    (d := Z.to_nat (completed_count q - completed_count p))
    (completed := completed_count p);
    try (unfold checked_items; lia); try assumption.
  rewrite <- Hw. f_equal. lia.
Qed.

Lemma calculate_progress_monotone_witness :
  exists v w,
    fst (Project.calculate_progress
           (Sample.project None [Sample.five_whys true; Sample.five_whys false] [] []))
    = Returns v /\
    fst (Project.calculate_progress
           (Sample.project None [Sample.five_whys true; Sample.five_whys true] [] []))
    = Returns w /\
    v <= w.
Proof.
  exists 50, 100. split; [reflexivity |]. split; [reflexivity |].
  apply (calculate_progress_monotone
           (Sample.project None [Sample.five_whys true; Sample.five_whys false] [] [])
           (Sample.project None [Sample.five_whys true; Sample.five_whys true] [] []));
    vm_compute; try reflexivity; try (split; [reflexivity | discriminate]);
    discriminate.
Defined.

Lemma length_filter_all {A} (P : A -> Prop) `{forall x, Decision (P x)} (l : list A) :
  length (filter P l) = length l <-> Forall P l.
Proof.
  induction l as [| x l IH]; [split; [constructor | reflexivity] |].
  pose proof (length_filter P l) as Hle.
  destruct (decide (P x)) as [Hx | Hx].
  - rewrite filter_cons_True by exact Hx. simpl. rewrite Forall_cons. split.
    + intros [= E]. split; [exact Hx | apply IH, E].
    + intros [_ Hl]. f_equal. apply IH, Hl.
  - rewrite filter_cons_False by exact Hx. simpl. rewrite Forall_cons. split.
    + intros E. lia.
    + intros [Hx' _]. contradiction.
Qed.

(** X3.  [calculate_completion] is 0 for a plan without tasks; for a plan with up
    to two hundred tasks it lies between 0 and 100, is the truncated quotient
    100 * completed / total or one less, and is 100 exactly when the plan has
    tasks and all of them are completed. *)
Theorem calculate_completion_within_bounds (tasks : list ActionPlanTask.t) :
  (length tasks <= 200)%nat ->
  let completed :=
    Z.of_nat (length (filter (fun t => ActionPlanTask.is_completed t = true) tasks)) in
  let total := Z.of_nat (length tasks) in
  exists v,
    calculate_completion tasks = Returns v /\
    0 <= v <= 100 /\
    (tasks = [] -> v = 0) /\
    (tasks <> [] ->
     100 * completed / total - 1 <= v <= 100 * completed / total) /\
    (v = 100 <->
     tasks <> [] /\ Forall (fun t => ActionPlanTask.is_completed t = true) tasks).
Proof.
  intros Hlen completed total. unfold calculate_completion.
  destruct tasks as [| t tasks].
  { exists 0. simpl. split; [reflexivity |]. split; [lia |].
    split; [reflexivity |]. split; [congruence |].
    split; [discriminate | intros [Hne _]; congruence]. }
  set (l := t :: tasks) in *.
  change (negb (truthy_list l)) with false. cbv iota.
  fold completed. fold total.
  pose proof (length_filter (fun t => ActionPlanTask.is_completed t = true) l) as Hle.
  assert (Ht : 0 < total) by (unfold total, l; simpl; lia).
  destruct (Z.ltb_spec 0 total) as [_ | ?]; [| lia].
  destruct (percentage_bounds completed total) as (v & Hv & Hq & Hr & Hfull);
    [unfold completed, total; lia | unfold checked_items, total; lia |].
  exists v. split; [exact Hv |]. split; [exact Hr |].
  split; [discriminate |]. split; [intros _; exact Hq |].
  rewrite Hfull. unfold completed, total. rewrite Nat2Z.inj_iff, length_filter_all.
  split; [intros Hall; split; [discriminate | exact Hall] | tauto].
Qed.

Lemma calculate_completion_within_bounds_witness :
  exists v, calculate_completion (sample_tasks 2 1) = Returns v /\ 0 <= v <= 100.
Proof.
  destruct (calculate_completion_within_bounds (sample_tasks 2 1)) as (v & Hv & Hr & _);
    [vm_compute; lia |].
  exists v. split; assumption.
Defined.

(** X4.  Calling [calculate_progress] a second time returns the same value and
    leaves the project as the first call left it: the cached percentage
    does not feed back into the computation. *)
Theorem calculate_progress_idempotent (p : Project.t) :
  Project.calculate_progress (snd (Project.calculate_progress p))
  = Project.calculate_progress p.
Proof.
  rewrite (calculate_progress_counts p).
  destruct (total_count p =? 0) eqn:E.
  - simpl. rewrite calculate_progress_counts, E. reflexivity.
  - destruct (percentage (completed_count p) (total_count p)) as [v | e] eqn:Hp.
    + simpl. rewrite calculate_progress_counts.
      change (total_count (Project.set_progress_percentage p v)) with (total_count p).
      change (completed_count (Project.set_progress_percentage p v))
        with (completed_count p).
      rewrite E, Hp. reflexivity.
    + simpl. rewrite calculate_progress_counts, E, Hp. reflexivity.
Qed.

(** ** Serialized lists with any characters *)

Section JsonJoinProperties.
Import Json.

Lemma escape_char_surrogate (c : codepoint) :
  55296 <= c <= 57343 -> escape_char c = u_escape c.
Proof.
  intros Hc. unfold escape_char, needs_escape, replace, ESCAPE_DCT, QUOTE, BACKSLASH.
  repeat match goal with
         | |- context [?a =? ?b] => destruct (Z.eqb_spec a b); [lia |]
         end.
  replace ((32 <=? c) && (c <=? 126)) with false by lia.
  replace ((0 <=? c) && (c <? 32)) with false by lia.
  simpl. replace (c <? 65536) with true by lia. reflexivity.
Qed.

Lemma join_surrogates_range (a b : Z) :
  is_high_surrogate a = true -> is_low_surrogate b = true ->
  65536 <= join_surrogates a b <= 1114111.
Proof.
  unfold is_high_surrogate, is_low_surrogate, join_surrogates. intros Ha Hb.
  rewrite Z.shiftl_mul_pow2 by lia. rewrite lor_add by lia.
  change (2 ^ 10) with 1024. lia.
Qed.

Lemma scanstring_pair (a b : Z) (E : str) :
  is_high_surrogate a = true -> is_low_surrogate b = true ->
  scanstring (u_escape a ++ u_escape b ++ E)
  = push (join_surrogates a b) (scanstring E).
Proof.
  intros Ha Hb. rewrite app_assoc.
  apply scanstring_escaped.
  - apply esc_pair; try assumption; try reflexivity;
      unfold is_high_surrogate, is_low_surrogate in *; lia.
  - pose proof (join_surrogates_range a b Ha Hb).
    unfold is_high_surrogate. intros; lia.
Qed.

Lemma scanstring_encode_joined (n : nat) :
  forall s rest,
    (length s <= n)%nat -> Forall valid_codepoint s ->
    scanstring (flat_map escape_char s ++ QUOTE :: rest) = Some (join_pairs s, rest).
Proof.
  induction n as [| n IH]; intros s rest Hn Hv.
  { destruct s; [reflexivity | simpl in Hn; lia]. }
  destruct s as [| a t]; [reflexivity |].
  inversion Hv as [| ? ? Ha Ht]; subst.
  destruct t as [| b t'].
  { simpl flat_map. rewrite <- app_assoc. rewrite (scanstring_escaped a).
    - reflexivity.
    - apply escape_char_escaped; assumption.
    - intros _. simpl. destruct rest; simpl; [trivial | discriminate]. }
  cbn [join_pairs].
  destruct (is_high_surrogate a && is_low_surrogate b) eqn:Hpair.
  - apply andb_true_iff in Hpair as [Hh Hl].
    inversion Ht as [| ? ? Hb Ht']; subst.
    cbn [flat_map]. rewrite !escape_char_surrogate
      by (unfold is_high_surrogate, is_low_surrogate in *; lia).
    rewrite <- !app_assoc. rewrite scanstring_pair by assumption.
    rewrite IH by (assumption || (simpl in Hn; lia)). reflexivity.
  - cbn [flat_map]. rewrite <- app_assoc. rewrite (scanstring_escaped a).
    + change (escape_char b ++ flat_map escape_char t')
        with (flat_map escape_char (b :: t')).
      rewrite IH by (assumption || (simpl in Hn |- *; lia)). reflexivity.
    + apply escape_char_escaped; assumption.
    + intros Hh.
      change (escape_char b ++ flat_map escape_char t')
        with (flat_map escape_char (b :: t')).
      apply lookahead_encoding; [assumption |].
      rewrite Hh in Hpair. simpl in Hpair. exact Hpair.
Qed.

Lemma scan_once_encoded_joined (n d : nat) (x E : str) :
  Forall valid_codepoint x ->
  scan_once (S n) d (encode_basestring_ascii x ++ E) = Parsed (JStr (join_pairs x)) E.
Proof.
  intros Hv. unfold encode_basestring_ascii.
  simpl. rewrite <- app_assoc. simpl.
  rewrite (scanstring_encode_joined (length x)) by (assumption || lia). reflexivity.
Qed.

Lemma array_items_encoded_joined (L : list str) :
  forall (x : str) (rest : str) (n d : nat),
    Forall (Forall valid_codepoint) (x :: L) ->
    (length L + 2 <= n)%nat ->
    array_items n d
      (encode_basestring_ascii x
         ++ flat_map (fun s => COMMA :: SPACE :: encode_basestring_ascii s) L
         ++ RBRACKET :: rest)
    = Parsed (JStr (join_pairs x) :: map (fun s => JStr (join_pairs s)) L) rest.
Proof.
  induction L as [| y L IH]; intros x rest n d Hok Hn.
  - destruct n as [| [| n]]; simpl in Hn; try lia.
    rewrite array_items_S, scan_once_encoded_joined by (inversion Hok; assumption).
    reflexivity.
  - destruct n as [| [| n]]; simpl in Hn; try lia.
    rewrite array_items_S, scan_once_encoded_joined by (inversion Hok; assumption).
    inversion Hok as [| ? ? _ Hok']; subst.
    cbn [flat_map]. rewrite <- app_assoc.
    change (skip_ws ((COMMA :: SPACE :: encode_basestring_ascii y) ++ ?t))
      with (COMMA :: SPACE :: encode_basestring_ascii y ++ t).
    cbv iota beta.
    change (COMMA =? RBRACKET) with false.
    change (COMMA =? COMMA) with true. cbv iota.
    change (skip_ws (SPACE :: encode_basestring_ascii y ++ ?t))
      with (encode_basestring_ascii y ++ t).
    rewrite IH by (assumption || lia). reflexivity.
Qed.

Lemma loads_dumps_joined (L : list str) :
  Forall (Forall valid_codepoint) L ->
  json_loads (json_dumps L) = Returns (JArr (map (fun s => JStr (join_pairs s)) L)).
Proof.
  intros Hok. destruct L as [| x L]; [reflexivity |].
  pose proof (length_dumps_cons x L) as Hlen.
  unfold json_loads, loads, json_dumps.
  remember (length (dumps (x :: L))) as k eqn:Hk.
  replace (2 * k + 1)%nat with (S (2 * k)) by lia.
  unfold dumps.
  change (skip_ws (LBRACKET :: encode_basestring_ascii x ++ ?t))
    with (LBRACKET :: encode_basestring_ascii x ++ t).
  change RECURSION_LIMIT with (S 999).
  change (scan_once (S ?n) (S ?d) (LBRACKET :: encode_basestring_ascii x ++ ?t))
    with (match array_items n d (encode_basestring_ascii x ++ t) with
          | Parsed vs rest => Parsed (JArr vs) rest
          | Malformed => Malformed
          | Aborted e => Aborted e
          | OutOfFuel => OutOfFuel
          end).
  rewrite array_items_encoded_joined by (assumption || lia).
  reflexivity.
Qed.

Lemma join_pairs_cons (a b : codepoint) (t : str) :
  join_pairs (a :: b :: t) =
  if is_high_surrogate a && is_low_surrogate b
  then join_surrogates a b :: join_pairs t
  else a :: join_pairs (b :: t).
Proof. reflexivity. Qed.

Lemma surrogate_pair_free_cons (a b : codepoint) (t : str) :
  surrogate_pair_free (a :: b :: t) =
  negb (is_high_surrogate a && is_low_surrogate b) && surrogate_pair_free (b :: t).
Proof. reflexivity. Qed.

Lemma join_pairs_length (n : nat) :
  forall s, (length s <= n)%nat ->
    (length (join_pairs s) <= length s)%nat /\
    (surrogate_pair_free s = false -> (length (join_pairs s) < length s)%nat).
Proof.
  induction n as [| n IH]; intros s Hn.
  { destruct s; [simpl; split; [lia | discriminate] | simpl in Hn; lia]. }
  destruct s as [| a [| b t']]; try (simpl; split; [lia | discriminate]).
  rewrite join_pairs_cons, surrogate_pair_free_cons.
  change (length (a :: b :: t')) with (S (S (length t'))) in *.
  destruct (is_high_surrogate a && is_low_surrogate b) eqn:Hpair.
  - destruct (IH t') as [Hle _]; [lia |].
    change (length (join_surrogates a b :: join_pairs t'))
      with (S (length (join_pairs t'))).
    split; intros; lia.
  - destruct (IH (b :: t')) as [Hle Hlt]; [simpl; lia |].
    change (length (a :: join_pairs (b :: t')))
      with (S (length (join_pairs (b :: t')))).
    change (length (b :: t')) with (S (length t')) in *.
    split; [lia |].
    cbn [negb andb]. intros Hfree. specialize (Hlt Hfree). lia.
Qed.

Lemma join_pairs_free (s : str) :
  surrogate_pair_free s = true -> join_pairs s = s.
Proof.
  induction s as [| a t IH]; [reflexivity |].
  destruct t as [| b t']; [reflexivity |].
  cbn [surrogate_pair_free join_pairs] in *.
  intros Hfree. apply andb_true_iff in Hfree as [Hhead Hfree].
  apply negb_true_iff in Hhead. rewrite Hhead. f_equal. apply IH, Hfree.
Qed.

Lemma join_pairs_fixed (s : str) :
  join_pairs s = s <-> surrogate_pair_free s = true.
Proof.
  split; [| apply join_pairs_free].
  intros E. destruct (surrogate_pair_free s) eqn:Hfree; [reflexivity |].
  destruct (join_pairs_length (length s) s) as [_ Hlt]; [lia |].
  specialize (Hlt Hfree). rewrite E in Hlt. lia.
Qed.

(** What a round trip returns has no surrogate pair left. *)
Lemma join_pairs_roundtrips (n : nat) :
  forall s, (length s <= n)%nat -> Forall valid_codepoint s ->
    roundtrips (join_pairs s) /\
    match s, join_pairs s with
    | a :: _, c :: _ => is_low_surrogate a = false -> is_low_surrogate c = false
    | _, _ => True
    end.
Proof.
  induction n as [| n IH]; intros s Hn Hv.
  { destruct s; [| simpl in Hn; lia]. repeat split. constructor. }
  destruct s as [| a [| b t']].
  - repeat split. constructor.
  - simpl. repeat split; [| trivial]. exact Hv.
  - inversion Hv as [| ? ? Ha Ht]; subst.
    inversion Ht as [| ? ? Hb Ht']; subst.
    rewrite join_pairs_cons.
    destruct (is_high_surrogate a && is_low_surrogate b) eqn:Hpair.
    + apply andb_true_iff in Hpair as [Hh Hl].
      pose proof (join_surrogates_range a b Hh Hl) as Hj.
      destruct (IH t') as [[Hv' Hf'] _]; [simpl in Hn; lia | assumption |].
      split; [split |].
      * constructor; [unfold valid_codepoint; lia | exact Hv'].
      * destruct (join_pairs t') as [| c u]; [reflexivity |].
        rewrite surrogate_pair_free_cons, Hf'.
        replace (is_high_surrogate (join_surrogates a b)) with false
          by (unfold is_high_surrogate; lia).
        reflexivity.
      * intros _. unfold is_low_surrogate. lia.
    + destruct (IH (b :: t')) as [[Hv' Hf'] Hhd];
        [simpl in Hn |- *; lia | assumption |].
      destruct (join_pairs (b :: t')) as [| c u] eqn:Hjp.
      * split; [split; [constructor; assumption | reflexivity] | trivial].
      * split; [split |]; [constructor; assumption | | trivial].
        rewrite surrogate_pair_free_cons, Hf', andb_true_r. apply negb_true_iff.
        destruct (is_high_surrogate a) eqn:Hh; [| reflexivity].
        simpl in Hpair. simpl. apply Hhd. exact Hpair.
Qed.

End JsonJoinProperties.

Lemma get_serialized_list_dumps_joined (L : list str) :
  Forall (Forall valid_codepoint) L ->
  get_serialized_list (Some (json_dumps L))
  = Returns (Json.JArr (map (fun s => Json.JStr (join_pairs s)) L)).
Proof.
  intros HL. unfold get_serialized_list.
  assert (Ht : truthy_opt_str (Some (json_dumps L)) = true) by (destruct L; reflexivity).
  rewrite Ht. simpl. rewrite loads_dumps_joined by assumption. reflexivity.
Qed.

Lemma map_JStr_inj (L1 L2 : list str) :
  map Json.JStr L1 = map Json.JStr L2 -> L1 = L2.
Proof.
  revert L2. induction L1 as [| x L1 IH]; intros [| y L2]; simpl; try discriminate;
    [reflexivity |].
  intros [= -> E]. f_equal. apply IH, E.
Qed.

Lemma map_join_pairs_fixed (L : list str) :
  map join_pairs L = L <-> Forall (fun s => surrogate_pair_free s = true) L.
Proof.
  induction L as [| x L IH]; simpl.
  - split; [constructor | reflexivity].
  - rewrite Forall_cons, <- IH, <- join_pairs_fixed. split.
    + intros [= E1 E2]. split; assumption.
    + intros [-> ->]. reflexivity.
Qed.

(** X5.  Whatever the characters of the strings, setting a serialized-list
    field and getting it back returns the strings in their order with every
    surrogate pair joined into the character it encodes; the list comes back
    unchanged exactly when no string holds such a pair. *)
Theorem set_get_joins_surrogate_pairs (L : list str) (p : Project.t)
  (fw : FiveWhys.t) (c : IshikawaCategory.t) :
  Forall (Forall valid_codepoint) L ->
  let back := Returns (Json.JArr (map Json.JStr (map join_pairs L))) in
  Project.get_team_members (Project.set_team_members p L) = back /\
  FiveWhys.get_additional_whys (FiveWhys.set_additional_whys fw L) = back /\
  IshikawaCategory.get_causes_list (IshikawaCategory.set_causes_list c L) = back /\
  (back = Returns (Json.JArr (map Json.JStr L)) <->
   Forall (fun s => surrogate_pair_free s = true) L).
Proof.
  intros HL back.
  rewrite get_team_members_blob, get_additional_whys_blob, get_causes_list_blob.
  simpl. rewrite get_serialized_list_dumps_joined by assumption.
  unfold back. rewrite map_map. repeat split; try reflexivity.
  - intros [= E]. rewrite <- map_map in E. apply map_JStr_inj in E.
    apply map_join_pairs_fixed, E.
  - intros Hfree. apply map_join_pairs_fixed in Hfree.
    rewrite <- map_map, Hfree. reflexivity.
Qed.

Lemma set_get_joins_surrogate_pairs_witness :
  Project.get_team_members
    (Project.set_team_members Sample.seeded [[97; 55357; 56832; 56832]])
  = Returns (Json.JArr [Json.JStr [97; 128512; 56832]]).
Proof.
  apply (set_get_joins_surrogate_pairs [[97; 55357; 56832; 56832]] Sample.seeded
           Sample.whys_a_c_d Sample.category).
  repeat constructor; vm_compute; intros; discriminate.
Defined.

(** X6.  What a round trip returns is preserved by the next round trip: storing
    the strings that came back and reading them again returns the same
    strings. *)
Theorem second_roundtrip_is_stable (L : list str) (p : Project.t)
  (fw : FiveWhys.t) (c : IshikawaCategory.t) :
  Forall (Forall valid_codepoint) L ->
  let back := map join_pairs L in
  Project.get_team_members (Project.set_team_members p back)
    = Returns (Json.JArr (map Json.JStr back)) /\
  FiveWhys.get_additional_whys (FiveWhys.set_additional_whys fw back)
    = Returns (Json.JArr (map Json.JStr back)) /\
  IshikawaCategory.get_causes_list (IshikawaCategory.set_causes_list c back)
    = Returns (Json.JArr (map Json.JStr back)).
Proof.
  intros HL back.
  assert (Hback : Forall roundtrips back).
  { unfold back. apply Forall_map. eapply Forall_impl; [exact HL |].
    intros s Hs. simpl. apply (join_pairs_roundtrips (length s)); [lia | exact Hs]. }
  rewrite get_team_members_blob, get_additional_whys_blob, get_causes_list_blob.
  simpl. rewrite get_serialized_list_dumps by assumption. auto.
Qed.

Lemma second_roundtrip_is_stable_witness :
  Project.get_team_members
    (Project.set_team_members Sample.seeded (map join_pairs Sample.surrogates))
  = Returns (Json.JArr (map Json.JStr (map join_pairs Sample.surrogates))).
Proof.
  apply (second_roundtrip_is_stable Sample.surrogates Sample.seeded
           Sample.whys_a_c_d Sample.category).
  repeat constructor; vm_compute; intros; discriminate.
Defined.

(** ** All the whys, whatever the stored text *)

(** X7.  [get_all_whys] raises a [TypeError] exactly when the stored additional
    whys are a JSON document that is null, a boolean or a number: a value
    that [get_additional_whys] returns without complaint. *)
Theorem get_all_whys_raises_iff (fw : FiveWhys.t) :
  FiveWhys.get_all_whys fw = Raises TypeError <->
  exists v, FiveWhys.get_additional_whys fw = Returns v /\ not_iterable v = true.
Proof.
  rewrite get_all_whys_filled. unfold FiveWhys.get_additional_whys.
  destruct (FiveWhys.additional_whys fw) as [blob |]; simpl.
  2: { split; [discriminate |]. intros (v & [= <-] & Hv). discriminate. }
  destruct (truthy_str blob); simpl.
  2: { split; [discriminate |]. intros (v & [= <-] & Hv). discriminate. }
  destruct (json_loads_total blob) as [[v ->] | [-> | [-> | ->]]].
  - destruct v; simpl;
      split; try discriminate; try (intros (w & [= <-] & Hw); discriminate);
      intros _; eexists; split; reflexivity.
  - split; [discriminate |]. intros (v & [= <-] & Hv). discriminate.
  - split; [discriminate |]. intros (v & [= ] & Hv).
  - split; [discriminate |]. intros (v & [= ] & Hv).
Qed.

Lemma get_all_whys_set (fw : FiveWhys.t) (L : list str) :
  Forall (Forall valid_codepoint) L ->
  FiveWhys.get_all_whys (FiveWhys.set_additional_whys fw L)
  = Returns (filled_slots fw ++ map Json.JStr (map join_pairs L)).
Proof.
  intros HL. rewrite get_all_whys_filled.
  change (FiveWhys.additional_whys (FiveWhys.set_additional_whys fw L))
    with (Some (json_dumps L)).
  change (filled_slots (FiveWhys.set_additional_whys fw L)) with (filled_slots fw).
  cbv iota.
  replace (truthy_str (json_dumps L)) with true by (destruct L; reflexivity).
  rewrite loads_dumps_joined by assumption. simpl. rewrite map_map. reflexivity.
Qed.

(** X8.  After [set_additional_whys], [get_all_whys] returns the filled fixed
    slots followed by the strings that were set, in their order (a surrogate
    pair joined); the fixed slots are not affected by the setter, and what
    was stored as additional whys before is gone. *)
Theorem get_all_whys_after_set (fw : FiveWhys.t) (L : list str) :
  Forall (Forall valid_codepoint) L ->
  FiveWhys.get_all_whys (FiveWhys.set_additional_whys fw L)
  = Returns (filled_slots fw ++ map Json.JStr (map join_pairs L)) /\
  filled_slots (FiveWhys.set_additional_whys fw L) = filled_slots fw.
Proof.
  intros HL. split; [apply get_all_whys_set, HL | reflexivity].
Qed.

Lemma get_all_whys_after_set_witness :
  FiveWhys.get_all_whys
    (FiveWhys.set_additional_whys Sample.whys_a_c_d [Json.lit "E"; Json.lit "F"])
  = Returns [Json.JStr (Json.lit "A"); Json.JStr (Json.lit "C");
             Json.JStr (Json.lit "E"); Json.JStr (Json.lit "F")].
Proof.
  apply (get_all_whys_after_set Sample.whys_a_c_d [Json.lit "E"; Json.lit "F"]).
  repeat constructor; vm_compute; intros; discriminate.
Defined.

Section JsonAsciiProperties.
Import Json.

Lemma hex_digit_printable (d : Z) : 0 <= d < 16 -> printable (hex_digit d).
Proof. unfold printable, hex_digit. intros Hd. destruct (Z.ltb_spec d 10); lia. Qed.

Lemma u_escape_printable (n : Z) : Forall printable (u_escape n).
Proof.
  unfold u_escape, hex4.
  repeat constructor; try (unfold printable, BACKSLASH; lia);
    apply hex_digit_printable, Z.mod_pos_bound; lia.
Qed.

Lemma escape_char_printable (c : codepoint) : Forall printable (escape_char c).
Proof.
  unfold escape_char, needs_escape.
  destruct (Z.eqb_spec c BACKSLASH) as [-> | Hb].
  { repeat constructor; unfold printable, BACKSLASH; lia. }
  destruct (Z.eqb_spec c QUOTE) as [-> | Hq].
  { repeat constructor; unfold printable, BACKSLASH, QUOTE; lia. }
  simpl orb.
  destruct ((32 <=? c) && (c <=? 126)) eqn:Hp; simpl negb; cbv iota.
  { repeat constructor; unfold printable; lia. }
  unfold replace, ESCAPE_DCT.
  repeat match goal with
         | |- context [?a =? ?b] =>
             destruct (Z.eqb_spec a b);
             [try contradiction;
              try (repeat constructor; unfold printable, BACKSLASH; lia) |]
         end.
  destruct ((0 <=? c) && (c <? 32)); [apply u_escape_printable |].
  destruct (c <? 65536); [apply u_escape_printable |].
  apply Forall_app; split; apply u_escape_printable.
Qed.

Lemma encode_basestring_ascii_printable (s : str) :
  Forall printable (encode_basestring_ascii s).
Proof.
  unfold encode_basestring_ascii. constructor; [unfold printable, QUOTE; lia |].
  apply Forall_app; split; [| repeat constructor; unfold printable, QUOTE; lia].
  induction s as [| c s IH]; simpl; [constructor |].
  apply Forall_app; split; [apply escape_char_printable | exact IH].
Qed.

Lemma dumps_printable (L : list str) : Forall printable (dumps L).
Proof.
  destruct L as [| x L]; unfold dumps.
  { repeat constructor; unfold printable, LBRACKET, RBRACKET; lia. }
  constructor; [unfold printable, LBRACKET; lia |].
  apply Forall_app; split; [apply encode_basestring_ascii_printable |].
  apply Forall_app; split; [| repeat constructor; unfold printable, RBRACKET; lia].
  induction L as [| y L IH]; cbn [flat_map]; [constructor |].
  apply Forall_app; split; [| exact IH].
  constructor; [unfold printable, COMMA; lia |].
  constructor; [unfold printable, SPACE; lia |].
  apply encode_basestring_ascii_printable.
Qed.

End JsonAsciiProperties.

(** X9.  Whatever the strings, the three setters store a text that is not empty
    and holds printable ASCII characters only: no control character, no line
    break, nothing beyond the tilde. *)
Theorem setters_store_printable_ascii (L : list str) (p : Project.t)
  (fw : FiveWhys.t) (c : IshikawaCategory.t) :
  exists text,
    Project.team_members (Project.set_team_members p L) = Some text /\
    FiveWhys.additional_whys (FiveWhys.set_additional_whys fw L) = Some text /\
    IshikawaCategory.causes (IshikawaCategory.set_causes_list c L) = Some text /\
    truthy_str text = true /\ Forall printable text.
Proof.
  exists (json_dumps L). repeat split.
  - destruct L; reflexivity.
  - apply dumps_printable.
Qed.

(** ** Searching and deleting, composed *)

Lemma filter_all {A} (P : A -> Prop) `{forall x, Decision (P x)} (l : list A) :
  Forall P l -> filter P l = l.
Proof.
  induction 1 as [| x l Hx _ IH]; [reflexivity |].
  rewrite filter_cons_True by exact Hx. f_equal. exact IH.
Qed.

(** A key for which the class has no attribute is skipped. *)
Lemma search_skips_other_names (lib : library) (m : model)
  (filters : list (string * sqlvalue)) (db : database) :
  (forall key value, (key, value) ∈ filters -> BaseRepository.getattr lib m key = None) ->
  BaseRepository.search lib m filters db = Returns (BaseRepository.get_all m db).
Proof.
  intros Hnone. rewrite search_clauses.
  assert (Hcs : clauses lib m filters = Returns []).
  { induction filters as [| [key value] filters IH]; [reflexivity |].
    cbn [clauses fst snd]. rewrite (Hnone key value) by left.
    apply IH. intros k v Hin. apply (Hnone k v). right. exact Hin. }
  rewrite Hcs. unfold BaseRepository.all, BaseRepository.get_all. simpl.
  f_equal. apply filter_all. apply Forall_forall. reflexivity.
Qed.



Lemma forallb_permutation {A} (f : A -> bool) (l1 l2 : list A) :
  l1 ≡ₚ l2 -> forallb f l1 = forallb f l2.
Proof.
  induction 1 as [| x l l' _ IH | x y l | l l' l'' _ IH1 _ IH2]; simpl.
  - reflexivity.
  - rewrite IH. reflexivity.
  - rewrite !andb_assoc. f_equal. apply andb_comm.
  - congruence.
Qed.

(** X10.  Whether [search] returns, and what it returns, does not depend on the
    order in which the keyword arguments are given. *)
Theorem search_order_irrelevant (lib : library) (m : model)
  (filters1 filters2 : list (string * sqlvalue)) (db : database) (rows : list row) :
  filters1 ≡ₚ filters2 ->
  BaseRepository.search lib m filters1 db = Returns rows <->
  BaseRepository.search lib m filters2 db = Returns rows.
Proof.
  intros Hp. rewrite !search_returns.
  rewrite (forallb_permutation (accepted lib m) filters1 filters2 Hp).
  assert (E : filter (fun r => passes lib m db filters1 r = true) (db m)
              = filter (fun r => passes lib m db filters2 r = true) (db m)).
  { apply list_filter_iff. intros r. unfold passes.
    rewrite (forallb_permutation _ filters1 filters2 Hp). reflexivity. }
  rewrite E. reflexivity.
Qed.

Lemma search_order_irrelevant_witness :
  BaseRepository.search no_library FiveWhysModel
    [("id", TEXT (Json.lit "F1")); ("project_id", TEXT (Json.lit "P1"))] Sample.store
  = Returns [Sample.stored "F1" "project_id" "P1"].
Proof.
  apply (search_order_irrelevant no_library FiveWhysModel
           [("project_id", TEXT (Json.lit "P1")); ("id", TEXT (Json.lit "F1"))]
           [("id", TEXT (Json.lit "F1")); ("project_id", TEXT (Json.lit "P1"))]
           Sample.store [Sample.stored "F1" "project_id" "P1"]).
  - apply perm_swap.
  - vm_compute. reflexivity.
Defined.

(** X11.  When a search with additional keyword arguments returns, so does the
    search with the arguments before them, and the rows found are those of
    the search with fewer arguments that pass the added filters, in the same
    order; and what a search returns is a sub-list of what [get_all]
    returns. *)
Theorem search_narrows (lib : library) (m : model)
  (filters more : list (string * sqlvalue)) (db : database) (rows : list row) :
  BaseRepository.search lib m (filters ++ more) db = Returns rows ->
  exists found,
    BaseRepository.search lib m filters db = Returns found /\
    rows = filter (fun r => passes lib m db more r = true) found /\
    rows `sublist_of` found /\
    found `sublist_of` BaseRepository.get_all m db.
Proof.
  rewrite search_returns, forallb_app, andb_true_iff. intros [[Hf Hm] ->].
  exists (filter (fun r => passes lib m db filters r = true) (db m)).
  split; [apply search_returns; auto |].
  assert (E : filter (fun r => passes lib m db (filters ++ more) r = true) (db m)
              = filter (fun r => passes lib m db more r = true)
                  (filter (fun r => passes lib m db filters r = true) (db m))).
  { rewrite list_filter_filter. apply list_filter_iff. intros r.
    unfold passes. rewrite forallb_app, andb_true_iff. tauto. }
  split; [exact E |]. split.
  - rewrite E. apply sublist_filter.
  - apply sublist_filter.
Qed.

Lemma search_narrows_witness :
  exists found,
    BaseRepository.search no_library FiveWhysModel [("project_id", TEXT (Json.lit "P1"))]
      Sample.store = Returns found /\
    [] = filter (fun r => passes no_library FiveWhysModel Sample.store
                            [("get_all_whys", NULL)] r = true) found.
Proof.
  destruct (search_narrows no_library FiveWhysModel
              [("project_id", TEXT (Json.lit "P1"))] [("get_all_whys", NULL)]
              Sample.store [])
    as (found & Hfound & Hrows & _).
  - vm_compute. reflexivity.
  - exists found. split; assumption.
Defined.


Lemma delete_cascade_frame (n : nat) :
  forall m pk db m', m' ∉ descendants n m -> delete_cascade n m pk db m' = db m'.
Proof.
  induction n as [| n IH]; intros m pk db m' Hout; [reflexivity |].
  rewrite delete_cascade_S.
  cbn [descendants] in Hout. apply not_elem_of_cons in Hout as [Hne Hout].
  rewrite delete_row_other by exact Hne.
  apply (fold_left_preserves_in (fun acc => acc m' = db m')); [| reflexivity].
  intros acc rel Hrel Hacc.
  apply (fold_left_preserves (fun acc => acc m' = db m')); [| exact Hacc].
  intros acc' child Hacc'. rewrite IH; [exact Hacc' |].
  intros Hin. apply Hout. apply list_elem_of_In, in_flat_map.
  exists rel. split; apply list_elem_of_In; assumption.
Qed.

(** X13.  [delete] changes no table but the one of the class and those of the
    classes below it along the cascading relationships. *)
Theorem delete_touches_descendants_only (m m' : model) (record_id : str)
  (db : database) :
  m' ∉ descendants 6 m ->
  snd (BaseRepository.delete m record_id db) m' = db m'.
Proof.
  intros Hout. unfold BaseRepository.delete.
  destruct (BaseRepository.get_by_id m record_id db) as [obj |]; [| reflexivity].
  simpl. unfold session_delete. apply delete_cascade_frame, Hout.
Qed.

Lemma delete_touches_descendants_only_witness :
  snd (BaseRepository.delete ActionPlanModel (Json.lit "A1") Sample.store) FiveWhysModel
  = Sample.store FiveWhysModel.
Proof.
  apply (delete_touches_descendants_only ActionPlanModel FiveWhysModel (Json.lit "A1")
           Sample.store).
  apply (bool_decide_unpack _). vm_compute. exact I.
Defined.

(** ** What a deletion spares *)

(** A row that a cascading deletion removes is reached from the deleted
    row. *)
Lemma delete_cascade_removed (db0 : database) (n : nat) :
  forall m pk db m' r,
    (forall k x, x ∈ db k -> x ∈ db0 k) ->
    r ∈ db m' -> r ∉ delete_cascade n m pk db m' ->
    reaches db0 m pk m' (column r "id").
Proof.
  induction n as [| n IH]; intros m pk db m' r Hsub Hin Hout; [contradiction |].
  rewrite delete_cascade_S in Hout.
  set (Q := fun acc : database =>
              (forall k x, x ∈ acc k -> x ∈ db k) /\
              (r ∈ acc m' \/ reaches db0 m pk m' (column r "id"))).
  assert (HQ : Q (fold_left
                    (fun acc rel =>
                       fold_left
                         (fun acc child =>
                            delete_cascade n (fst rel) (column child "id") acc)
                         (filter (fun r => column r (snd rel) = pk) (db (fst rel)))
                         acc)
                    (cascades m) db)).
  { apply (fold_left_preserves_in Q); [| split; [auto | left; exact Hin]].
    intros acc [cm fk] Hrel HQ. simpl fst. simpl snd.
    apply (fold_left_preserves_in Q); [| exact HQ].
    intros acc' child Hchild [Hsub' Hr].
    apply list_elem_of_filter in Hchild as [Hfk Hchild].
    split.
    - intros k x Hx. apply Hsub'. eapply delete_cascade_subset. exact Hx.
    - destruct Hr as [Hr | Hr]; [| right; exact Hr].
      destruct (decide (r ∈ delete_cascade n cm (column child "id") acc' m'))
        as [Hkept | Hgone]; [left; exact Hkept | right].
      apply (reaches_child db0 m pk cm fk child); auto.
      apply (IH cm (column child "id") acc' m' r); auto. }
  destruct HQ as [_ [Hr | Hr]]; [| exact Hr].
  destruct (decide (m' = m)) as [-> | Hne].
  - rewrite delete_row_same in Hout.
    destruct (decide (column r "id" = pk)) as [<- | Hid]; [constructor |].
    exfalso. apply Hout. apply list_elem_of_filter. split; assumption.
  - rewrite delete_row_other in Hout by exact Hne. contradiction.
Qed.

Lemma unique_ids_eq (db : database) (m : model) (r1 r2 : row) :
  unique_ids db m -> r1 ∈ db m -> r2 ∈ db m ->
  column r1 "id" = column r2 "id" -> r1 = r2.
Proof.
  unfold unique_ids, ids. induction (db m) as [| x l IH]; intros Hnd H1 H2 E.
  - inversion H1.
  - simpl in Hnd. apply NoDup_cons in Hnd as [Hx Hnd].
    apply elem_of_cons in H1 as [-> | H1]; apply elem_of_cons in H2 as [-> | H2].
    + reflexivity.
    + exfalso. apply Hx. rewrite E. apply list_elem_of_fmap. eauto.
    + exfalso. apply Hx. rewrite <- E. apply list_elem_of_fmap. eauto.
    + apply IH; assumption.
Qed.

(** What deleting a project reaches: the project, the rows of the three
    child tables that point to it, and the categories and tasks that point to
    such a diagram or plan. *)
Lemma reaches_from_project (db : database) (pk : sqlvalue) (m' : model) (x : sqlvalue) :
  reaches db ProjectModel pk m' x ->
  match m' with
  | ProjectModel => x = pk
  | FiveWhysModel | IshikawaDiagramModel | ActionPlanModel =>
      exists child, child ∈ db m' /\ column child "project_id" = pk /\
                    column child "id" = x
  | IshikawaCategoryModel =>
      exists d c, d ∈ db IshikawaDiagramModel /\ column d "project_id" = pk /\
                  c ∈ db IshikawaCategoryModel /\
                  column c "diagram_id" = column d "id" /\ column c "id" = x
  | ActionPlanTaskModel =>
      exists a t, a ∈ db ActionPlanModel /\ column a "project_id" = pk /\
                  t ∈ db ActionPlanTaskModel /\
                  column t "action_plan_id" = column a "id" /\ column t "id" = x
  end.
Proof.
  intros H.
  inversion H as [| ? ? cm fk child ? ? Hrel Hchild Hfk Hnext]; subst.
  { reflexivity. }
  simpl in Hrel.
  repeat (apply elem_of_cons in Hrel as [[= -> ->] | Hrel]);
    try solve [inversion Hrel].
  - inversion Hnext as [| ? ? cm2 fk2 child2 ? ? Hrel2 Hchild2 Hfk2 Hnext2]; subst.
    + eauto.
    + inversion Hrel2.
  - inversion Hnext as [| ? ? cm2 fk2 child2 ? ? Hrel2 Hchild2 Hfk2 Hnext2]; subst.
    + eauto.
    + simpl in Hrel2. apply elem_of_cons in Hrel2 as [[= -> ->] | Hrel2];
        [| inversion Hrel2].
      inversion Hnext2 as [| ? ? cm3 fk3 child3 ? ? Hrel3 _ _ _]; subst.
      * exists child, child2. auto.
      * inversion Hrel3.
  - inversion Hnext as [| ? ? cm2 fk2 child2 ? ? Hrel2 Hchild2 Hfk2 Hnext2]; subst.
    + eauto.
    + simpl in Hrel2. apply elem_of_cons in Hrel2 as [[= -> ->] | Hrel2];
        [| inversion Hrel2].
      inversion Hnext2 as [| ? ? cm3 fk3 child3 ? ? Hrel3 _ _ _]; subst.
      * exists child, child2. auto.
      * inversion Hrel3.
Qed.

Lemma delete_project_removed (project_id : str) (db : database) (m' : model) (r : row) :
  r ∈ db m' ->
  r ∈ snd (BaseRepository.delete ProjectModel project_id db) m' \/
  reaches db ProjectModel (TEXT project_id) m' (column r "id").
Proof.
  intros Hin. unfold BaseRepository.delete.
  destruct (BaseRepository.get_by_id ProjectModel project_id db) as [obj |] eqn:Hget;
    [| left; exact Hin].
  apply get_by_id_found in Hget as [_ Hid]. simpl. unfold session_delete.
  rewrite Hid.
  destruct (decide (r ∈ delete_cascade 6 ProjectModel (TEXT project_id) db m'))
    as [Hkept | Hgone]; [left; exact Hkept | right].
  apply (delete_cascade_removed db 6 ProjectModel (TEXT project_id) db m' r); auto.
Qed.

(** X14.  Deleting a project spares what belongs to the others.  In a store
    whose tables have no two rows with the same id, every other project
    stays, every analysis, diagram and plan of another project stays, and so
    does every category or task whose diagram or plan is not one of the
    deleted project. *)
Theorem delete_project_spares_others (project_id : str) (db : database) :
  (forall m, unique_ids db m) ->
  let db' := snd (BaseRepository.delete ProjectModel project_id db) in
  (forall p, p ∈ db ProjectModel -> column p "id" <> TEXT project_id ->
             p ∈ db' ProjectModel) /\
  (forall m r,
     m ∈ [FiveWhysModel; IshikawaDiagramModel; ActionPlanModel] ->
     r ∈ db m -> column r "project_id" <> TEXT project_id -> r ∈ db' m) /\
  (forall c,
     c ∈ db IshikawaCategoryModel ->
     (forall d, d ∈ db IshikawaDiagramModel ->
                column d "id" = column c "diagram_id" ->
                column d "project_id" <> TEXT project_id) ->
     c ∈ db' IshikawaCategoryModel) /\
  (forall t,
     t ∈ db ActionPlanTaskModel ->
     (forall a, a ∈ db ActionPlanModel ->
                column a "id" = column t "action_plan_id" ->
                column a "project_id" <> TEXT project_id) ->
     t ∈ db' ActionPlanTaskModel).
Proof.
  intros Huniq db'. unfold db'. repeat split.
  - intros p Hin Hid.
    destruct (delete_project_removed project_id db ProjectModel p Hin) as [H | H];
      [exact H |].
    apply reaches_from_project in H. contradiction.
  - intros m r Hm Hin Hfk.
    destruct (delete_project_removed project_id db m r Hin) as [H | H]; [exact H |].
    apply reaches_from_project in H.
    repeat (apply elem_of_cons in Hm as [-> | Hm]); try solve [inversion Hm];
      destruct H as (child & Hchild & Hfk' & Hid);
      apply (unique_ids_eq db _ child r (Huniq _) Hchild Hin) in Hid; subst child;
      contradiction.
  - intros c Hin Hown.
    destruct (delete_project_removed project_id db IshikawaCategoryModel c Hin)
      as [H | H]; [exact H |].
    apply reaches_from_project in H. destruct H as (d & c' & Hd & Hfk & Hc' & Hlink & Hid).
    apply (unique_ids_eq db _ c' c (Huniq _) Hc' Hin) in Hid; subst c'.
    exfalso. apply (Hown d Hd); [symmetry; exact Hlink | exact Hfk].
  - intros t Hin Hown.
    destruct (delete_project_removed project_id db ActionPlanTaskModel t Hin)
      as [H | H]; [exact H |].
    apply reaches_from_project in H. destruct H as (a & t' & Ha & Hfk & Ht' & Hlink & Hid).
    apply (unique_ids_eq db _ t' t (Huniq _) Ht' Hin) in Hid; subst t'.
    exfalso. apply (Hown a Ha); [symmetry; exact Hlink | exact Hfk].
Qed.

Lemma delete_project_spares_others_witness :
  Sample.stored "F2" "project_id" "P2"
    ∈ snd (BaseRepository.delete ProjectModel (Json.lit "P1") Sample.store) FiveWhysModel.
Proof.
  refine (proj1 (proj2 (delete_project_spares_others (Json.lit "P1") Sample.store _))
            FiveWhysModel (Sample.stored "F2" "project_id" "P2") _ _ _).
  - intros m. apply (bool_decide_unpack _). destruct m; vm_compute; exact I.
  - apply (bool_decide_unpack _). vm_compute. exact I.
  - apply (bool_decide_unpack _). vm_compute. exact I.
  - apply (bool_decide_unpack _). vm_compute. exact I.
Defined.

(** ** Stripping and splitting *)

Section PyStrProperties.
Import PyStr.

Lemma lstrip_spec (s : str) :
  exists k, s = k ++ lstrip s /\ Forall (fun c => isspace c = true) k.
Proof.
  induction s as [| c s (k & E & Hk)]; [exists []; split; [reflexivity | constructor] |].
  simpl. destruct (isspace c) eqn:Hc.
  - exists (c :: k). split; [simpl; f_equal; exact E | constructor; assumption].
  - exists []. split; [reflexivity | constructor].
Qed.

Lemma lstrip_head (s : str) (c : codepoint) :
  head (lstrip s) = Some c -> isspace c = false.
Proof.
  induction s as [| a s IH]; simpl; [discriminate |].
  destruct (isspace a) eqn:Ha; [exact IH |]. simpl. intros [= <-]. exact Ha.
Qed.

Lemma lstrip_fixed (s : str) (c : codepoint) :
  head s = Some c -> isspace c = false -> lstrip s = s.
Proof. destruct s as [| a s]; simpl; [discriminate |]. intros [= ->] ->. reflexivity. Qed.

Lemma rstrip_spec (s : str) :
  exists k, s = rstrip s ++ k /\ Forall (fun c => isspace c = true) k.
Proof.
  destruct (lstrip_spec (rev s)) as (k & E & Hk).
  exists (rev k). split.
  - unfold rstrip. rewrite <- rev_app_distr, <- E, rev_involutive. reflexivity.
  - apply Forall_forall. intros x Hx. rewrite Forall_forall in Hk. apply Hk.
    apply list_elem_of_In. apply list_elem_of_In, in_rev in Hx.
    apply list_elem_of_In. apply list_elem_of_In. exact Hx.
Qed.

Lemma last_rev {A} (l : list A) : last (rev l) = head l.
Proof.
  destruct l as [| a l]; [reflexivity |]. simpl. rewrite last_snoc. reflexivity.
Qed.

Lemma head_rev {A} (l : list A) : head (rev l) = last l.
Proof. rewrite <- (rev_involutive l) at 2. rewrite last_rev. reflexivity. Qed.

Lemma rstrip_last (s : str) (d : codepoint) :
  last (rstrip s) = Some d -> isspace d = false.
Proof. unfold rstrip. rewrite last_rev. apply lstrip_head. Qed.

Lemma rstrip_fixed (s : str) (d : codepoint) :
  last s = Some d -> isspace d = false -> rstrip s = s.
Proof.
  intros Hl Hd. unfold rstrip.
  rewrite (lstrip_fixed (rev s) d); [apply rev_involutive | | exact Hd].
  rewrite head_rev. exact Hl.
Qed.

Lemma head_app_ne {A} (l k : list A) : l <> [] -> head (l ++ k) = head l.
Proof. destruct l; [contradiction | reflexivity]. Qed.

(** The result of [strip] is empty or trimmed. *)
Lemma strip_trimmed (s : str) : strip s = [] \/ trimmed (strip s).
Proof.
  destruct (strip s) as [| a t] eqn:E; [left; reflexivity | right].
  unfold strip in E. split.
  - exists a. split; [reflexivity |].
    destruct (rstrip_spec (lstrip s)) as (k & Hk & _).
    apply (lstrip_head s). rewrite Hk, E. reflexivity.
  - destruct (last (a :: t)) as [d |] eqn:Hl.
    + exists d. split; [reflexivity |]. apply (rstrip_last (lstrip s)).
      rewrite E. exact Hl.
    + apply last_None in Hl. discriminate.
Qed.

Lemma strip_fixed (s : str) : trimmed s -> strip s = s.
Proof.
  intros [(c & Hc & Hsc) (d & Hd & Hsd)]. unfold strip.
  rewrite (lstrip_fixed s c Hc Hsc). apply (rstrip_fixed s d Hd Hsd).
Qed.

Lemma trimmed_nonempty (s : str) : trimmed s -> truthy_str s = true.
Proof. intros [(c & Hc & _) _]. destruct s; [discriminate | reflexivity]. Qed.

(** What [strip] returns is a piece of the text. *)
Lemma strip_piece (s : str) : exists k1 k2, s = k1 ++ strip s ++ k2.
Proof.
  destruct (lstrip_spec s) as (k1 & E1 & _).
  destruct (rstrip_spec (lstrip s)) as (k2 & E2 & _).
  exists k1, k2. unfold strip. rewrite <- E2. exact E1.
Qed.

Lemma strip_elem (s : str) (c : codepoint) : c ∈ strip s -> c ∈ s.
Proof.
  destruct (strip_piece s) as (k1 & k2 & E). intros H. rewrite E.
  apply elem_of_app. right. apply elem_of_app. left. exact H.
Qed.

Lemma split_pieces (sep : codepoint) (s : str) :
  split sep s <> [] /\ Forall (fun piece => sep ∉ piece) (split sep s).
Proof.
  induction s as [| c s [Hne IH]]; simpl.
  - split; [discriminate |]. constructor; [apply not_elem_of_nil | constructor].
  - destruct (Z.eqb_spec c sep) as [-> | Hc].
    + split; [discriminate |]. constructor; [apply not_elem_of_nil | exact IH].
    + destruct (split sep s) as [| piece pieces]; [contradiction |].
      split; [discriminate |].
      inversion IH as [| ? ? Hp Hps]; subst. constructor; [| exact Hps].
      intros Hin. apply elem_of_cons in Hin as [-> | Hin]; contradiction.
Qed.

Lemma split_one (sep : codepoint) (s : str) : sep ∉ s -> split sep s = [s].
Proof.
  induction s as [| c s IH]; intros Hs; [reflexivity |].
  apply not_elem_of_cons in Hs as [Hc Hs]. simpl.
  destruct (Z.eqb_spec c sep) as [-> | _]; [contradiction |].
  rewrite IH by exact Hs. reflexivity.
Qed.

Lemma split_app (sep : codepoint) (s rest : str) :
  sep ∉ s -> split sep (s ++ sep :: rest) = s :: split sep rest.
Proof.
  induction s as [| c s IH]; intros Hs.
  - simpl. rewrite Z.eqb_refl. reflexivity.
  - apply not_elem_of_cons in Hs as [Hc Hs]. simpl.
    destruct (Z.eqb_spec c sep) as [-> | _]; [contradiction |].
    rewrite IH by exact Hs. reflexivity.
Qed.

Lemma split_join_lines (lines : list str) :
  lines <> [] -> Forall (fun line => NEWLINE ∉ line) lines ->
  split NEWLINE (join_lines lines) = lines.
Proof.
  induction lines as [| line rest IH]; intros Hne Hall; [contradiction |].
  inversion Hall as [| ? ? Hline Hrest]; subst.
  destruct rest as [| line' rest'].
  - simpl. apply split_one, Hline.
  - change (join_lines (line :: line' :: rest'))
      with (line ++ NEWLINE :: join_lines (line' :: rest')).
    rewrite split_app by exact Hline. f_equal. apply IH; [discriminate | exact Hrest].
Qed.

Lemma join_lines_trimmed (lines : list str) :
  lines <> [] -> Forall trimmed lines -> trimmed (join_lines lines).
Proof.
  induction lines as [| line rest IH]; intros Hne Hall; [contradiction |].
  inversion Hall as [| ? ? Hline Hrest]; subst.
  destruct rest as [| line' rest']; [exact Hline |].
  change (join_lines (line :: line' :: rest'))
    with (line ++ NEWLINE :: join_lines (line' :: rest')).
  destruct Hline as [(c & Hc & Hsc) _].
  destruct (IH ltac:(discriminate) Hrest) as [_ (d & Hd & Hsd)].
  split.
  - exists c. split; [| exact Hsc]. destruct line; [discriminate | exact Hc].
  - exists d. split; [| exact Hsd].
    rewrite last_app. rewrite last_cons, Hd. reflexivity.
Qed.

End PyStrProperties.

(** ** The team members of the wizard *)

Lemma collect_kept (lines : list str) :
  Forall trimmed lines ->
  map PyStr.strip
    (filter (fun line => truthy_str (PyStr.strip line) = true) lines) = lines.
Proof.
  induction 1 as [| line rest Hline _ IH]; [reflexivity |].
  rewrite filter_cons_True
    by (rewrite strip_fixed by exact Hline; apply trimmed_nonempty, Hline).
  simpl. rewrite IH, strip_fixed by exact Hline. reflexivity.
Qed.

(** X17.  Every team member the wizard collects is a text that is not empty, has
    no line break in it and neither begins nor ends with white space: blank
    lines are dropped and the others trimmed. *)
Theorem collect_team_members_lines (team_members_input : str) :
  Forall member_line (ProjectWizard.collect_team_members team_members_input).
Proof.
  unfold ProjectWizard.collect_team_members.
  destruct (split_pieces PyStr.NEWLINE (PyStr.strip team_members_input)) as [_ Hp].
  induction Hp as [| piece pieces Hpiece _ IH]; [constructor |].
  destruct (truthy_str (PyStr.strip piece)) eqn:Ht.
  - rewrite filter_cons_True by exact Ht. simpl. constructor; [| exact IH].
    split.
    + destruct (strip_trimmed piece) as [E | Htr]; [| exact Htr].
      rewrite E in Ht. discriminate.
    + intros Hin. apply Hpiece. apply strip_elem, Hin.
  - rewrite filter_cons_False by (rewrite Ht; discriminate). exact IH.
Qed.

(** X18.  Members typed one on a line, each without surrounding white space, are
    collected as they are and in their order. *)
Theorem collect_team_members_of_lines (members : list str) :
  Forall member_line members ->
  ProjectWizard.collect_team_members (join_lines members) = members.
Proof.
  intros Hall. unfold ProjectWizard.collect_team_members.
  destruct members as [| m ms]; [reflexivity |].
  assert (Htr : Forall trimmed (m :: ms))
    by (eapply Forall_impl; [exact Hall | intros ? [? _]; assumption]).
  assert (Hnl : Forall (fun line => PyStr.NEWLINE ∉ line) (m :: ms))
    by (eapply Forall_impl; [exact Hall | intros ? [_ ?]; assumption]).
  rewrite strip_fixed by (apply join_lines_trimmed; [discriminate | exact Htr]).
  rewrite split_join_lines by (discriminate || exact Hnl).
  apply collect_kept, Htr.
Qed.

Lemma collect_team_members_of_lines_witness :
  ProjectWizard.collect_team_members (join_lines Sample.members) = Sample.members.
Proof.
  apply (collect_team_members_of_lines Sample.members).
  repeat constructor; try (eexists; split; [reflexivity | reflexivity]);
    apply (bool_decide_unpack _); vm_compute; exact I.
Defined.

(** ** Saving an analysis *)

Lemma entered_filter (inputs : list str) :
  map PyStr.strip (filter (fun why => truthy_str (PyStr.strip why) = true) inputs)
  = entered inputs.
Proof.
  unfold entered. induction inputs as [| x l IH]; [reflexivity |]. simpl map.
  destruct (truthy_str (PyStr.strip x)) eqn:Hx.
  - rewrite !filter_cons_True by exact Hx. simpl. f_equal. exact IH.
  - rewrite !filter_cons_False by (rewrite Hx; discriminate). exact IH.
Qed.

Lemma strip_valid (s : str) :
  Forall valid_codepoint s -> Forall valid_codepoint (PyStr.strip s).
Proof.
  intros Hs. apply Forall_forall. intros c Hc. rewrite Forall_forall in Hs.
  apply Hs, strip_elem, Hc.
Qed.

Lemma entered_valid (inputs : list str) :
  Forall (Forall valid_codepoint) inputs -> Forall (Forall valid_codepoint) (entered inputs).
Proof.
  intros H. unfold entered. apply Forall_forall. intros s Hs.
  apply list_elem_of_filter in Hs as [_ Hs]. apply list_elem_of_fmap in Hs as (t & -> & Ht).
  rewrite Forall_forall in H. apply strip_valid, H, Ht.
Qed.

Lemma filled_five (fw : FiveWhys.t) (a b c d e : str) :
  FiveWhys.why_1 fw = Some (PyStr.strip a) -> FiveWhys.why_2 fw = Some (PyStr.strip b) ->
  FiveWhys.why_3 fw = Some (PyStr.strip c) -> FiveWhys.why_4 fw = Some (PyStr.strip d) ->
  FiveWhys.why_5 fw = Some (PyStr.strip e) ->
  filled_slots fw = map Json.JStr (entered [a; b; c; d; e]).
Proof.
  intros H1 H2 H3 H4 H5. unfold filled_slots, entered. rewrite H1, H2, H3, H4, H5.
  simpl map.
  destruct (truthy_str (PyStr.strip a)) eqn:Ea, (truthy_str (PyStr.strip b)) eqn:Eb,
    (truthy_str (PyStr.strip c)) eqn:Ec, (truthy_str (PyStr.strip d)) eqn:Ed,
    (truthy_str (PyStr.strip e)) eqn:Ee;
    cbn [flat_map app];
    rewrite ?Ea, ?Eb, ?Ec, ?Ed, ?Ee;
    repeat (first [rewrite filter_cons_True by assumption
                  | rewrite filter_cons_False by congruence]);
    reflexivity.
Qed.

(** X19.  A save that is not rejected hands to the repository a record whose
    fixed slots hold the first five inputs, stripped.  With more than five
    inputs, [get_all_whys] on that record returns the inputs that are not
    blank, stripped and in their order; with five, the additional whys of the
    record are left as they were stored, whatever they were. *)
Theorem save_stores_whys (project : Project.t) (five_whys : option FiveWhys.t)
  (problem_input : str) (why_inputs : list str) (root_cause_input : str) :
  truthy_str (PyStr.strip problem_input) = true ->
  (5 <= length why_inputs)%nat ->
  Forall (Forall valid_codepoint) why_inputs ->
  exists obj,
    handed (FiveWhysView.save (Some project) five_whys problem_input why_inputs
              root_cause_input) = Some obj /\
    filled_slots obj = map Json.JStr (entered (take 5 why_inputs)) /\
    if (5 <? length why_inputs)%nat
    then FiveWhys.get_all_whys obj
         = Returns (map Json.JStr (entered (take 5 why_inputs))
                    ++ map Json.JStr (map join_pairs (entered (drop 5 why_inputs))))
    else FiveWhys.additional_whys obj
         = match five_whys with
           | Some old => FiveWhys.additional_whys old
           | None => None
           end.
Proof.
  intros Hproblem Hlen Hvalid.
  destruct why_inputs as [| a [| b [| c [| d [| e rest]]]]]; simpl in Hlen; try lia.
  unfold FiveWhysView.save. rewrite Hproblem. simpl negb. cbv iota.
  set (start := match five_whys with
                | Some fw => fw
                | None => FiveWhys.mk None (Project.id project) None None None None
                            None None None None None
                end).
  change (Nat.min 5 (length (a :: b :: c :: d :: e :: rest))) with 5%nat.
  change (take 5 (a :: b :: c :: d :: e :: rest)) with [a; b; c; d; e].
  change (drop 5 (a :: b :: c :: d :: e :: rest)) with rest.
  cbn [seq fold_left nth].
  set (slots := FiveWhysView.setattr_why _ _ _).
  assert (Hslots : filled_slots slots = map Json.JStr (entered [a; b; c; d; e]))
    by (apply filled_five; reflexivity).
  destruct rest as [| f rest].
  - change (5 <? length [a; b; c; d; e])%nat with false. cbv iota.
    eexists. split; [destruct (truthy_opt_str _); reflexivity |].
    split; [exact Hslots |].
    unfold start. destruct five_whys; reflexivity.
  - change (5 <? length (a :: b :: c :: d :: e :: f :: rest))%nat with true. cbv iota.
    rewrite entered_filter.
    eexists. split; [destruct (truthy_opt_str _); reflexivity |].
    split; [exact Hslots |].
    change (FiveWhys.get_all_whys
              (FiveWhysView.set_root_cause
                 (FiveWhys.set_additional_whys slots (entered (f :: rest)))
                 (PyStr.strip root_cause_input)))
      with (FiveWhys.get_all_whys
              (FiveWhys.set_additional_whys slots (entered (f :: rest)))).
    rewrite <- Hslots. apply get_all_whys_set.
    apply entered_valid. do 5 (inversion Hvalid as [| ? ? _ Hvalid']; subst;
                               clear Hvalid; rename Hvalid' into Hvalid).
    exact Hvalid.
Qed.

Lemma save_stores_whys_witness :
  exists obj,
    handed (FiveWhysView.save (Some Sample.seeded) (Some Sample.whys_a_c_d)
              (Json.lit "Why late?") [Json.lit " A "; []; []; []; []] [])
    = Some obj /\
    filled_slots obj = [Json.JStr (Json.lit "A")] /\
    FiveWhys.additional_whys obj = FiveWhys.additional_whys Sample.whys_a_c_d.
Proof.
  destruct (save_stores_whys Sample.seeded (Some Sample.whys_a_c_d)
              (Json.lit "Why late?") [Json.lit " A "; []; []; []; []] [])
    as (obj & Hh & Hs & Ha).
  - reflexivity.
  - simpl. lia.
  - repeat constructor; vm_compute; intros; discriminate.
  - exists obj. split; [exact Hh |]. split; [exact Hs | exact Ha].
Defined.

(** ** Validation *)

Lemma strip_spaces (s : str) :
  exists k1 k2, s = k1 ++ PyStr.strip s ++ k2 /\
                Forall (fun c => PyStr.isspace c = true) (k1 ++ k2).
Proof.
  destruct (lstrip_spec s) as (k1 & E1 & H1).
  destruct (rstrip_spec (PyStr.lstrip s)) as (k2 & E2 & H2).
  exists k1, k2. split.
  - unfold PyStr.strip. rewrite <- E2. exact E1.
  - apply Forall_app. split; assumption.
Qed.

Lemma strip_truthy_iff (s : str) :
  truthy_str (PyStr.strip s) = true <-> Exists (fun c => PyStr.isspace c = false) s.
Proof.
  split.
  - intros Ht. destruct (strip_trimmed s) as [E | [(c & Hc & Hsc) _]].
    + rewrite E in Ht. discriminate.
    + apply Exists_exists. exists c. split; [| exact Hsc].
      apply strip_elem. apply head_Some_elem_of, Hc.
  - intros Hex. destruct (PyStr.strip s) as [| a t] eqn:E; [| reflexivity].
    exfalso. destruct (strip_spaces s) as (k1 & k2 & Hs & Hsp).
    rewrite E in Hs. simpl in Hs. rewrite Hs in Hex.
    apply Exists_exists in Hex as (c & Hc & Hsc).
    rewrite Forall_forall in Hsp. rewrite (Hsp c Hc) in Hsc. discriminate.
Qed.

(** X20.  [is_not_empty] accepts a text exactly when it holds a character that is
    not white space.  It agrees with [min_length] for the minimum 1 and with
    the test the wizard applies to the name of a project; and a text that
    [min_length] accepts for [n] has at least [n] characters. *)
Theorem is_not_empty_iff (text : str) :
  (Validators.is_not_empty text = true <->
   Exists (fun c => PyStr.isspace c = false) text) /\
  Validators.is_not_empty text = Validators.min_length text 1 /\
  Validators.is_not_empty text = ProjectWizard.validate_name text /\
  (forall n, Validators.min_length text n = true ->
             Validators.max_length text (n - 1) = false).
Proof.
  assert (E : Validators.is_not_empty text = truthy_str (PyStr.strip text)).
  { unfold Validators.is_not_empty. destruct text; reflexivity. }
  split; [rewrite E; apply strip_truthy_iff |].
  split; [| split; [exact E |]].
  - rewrite E. unfold Validators.min_length.
    destruct (PyStr.strip text); simpl length; simpl truthy_str; symmetry.
    + apply Z.leb_gt. lia.
    + apply Z.leb_le. lia.
  - intros n Hn. unfold Validators.min_length, Validators.max_length in *.
    apply Z.leb_le in Hn. apply Z.leb_gt.
    destruct (strip_spaces text) as (k1 & k2 & Hs & _).
    apply (f_equal length) in Hs. rewrite !length_app in Hs. lia.
Qed.

(** ** The Delete buttons of the table of tasks *)

Lemma add_task_row_appends (task : option ActionPlanTask.t)
  (self self' : list ActionPlanView.task_row) :
  ActionPlanView._add_task_row task self = Some self' ->
  exists r, self' = self ++ [r] /\ ActionPlanView.delete_btn r = length self.
Proof.
  unfold ActionPlanView._add_task_row. intros Hadd.
  destruct task as [task |].
  - destruct (ActionPlanTask.task_description task), (ActionPlanTask.status task),
      (ActionPlanTask.priority task); try discriminate.
    injection Hadd as <-. eexists. split; reflexivity.
  - injection Hadd as <-. eexists. split; reflexivity.
Qed.

(** In a table that was built, the Delete button of every row holds the
    position of the row. *)
Lemma built_positions (self : list ActionPlanView.task_row) :
  built self ->
  forall i r, self !! i = Some r -> ActionPlanView.delete_btn r = i.
Proof.
  induction 1 as [| self self' task _ IH Hadd]; intros i r Hr.
  - destruct i; discriminate.
  - apply add_task_row_appends in Hadd as (r' & -> & Hbtn).
    destruct (decide (i < length self)%nat) as [Hlt | Hge].
    + rewrite lookup_app_l in Hr by exact Hlt. apply IH, Hr.
    + rewrite lookup_app_r in Hr by lia.
      destruct (i - length self)%nat as [| k] eqn:Hk; simpl in Hr; [| discriminate].
      injection Hr as <-. rewrite Hbtn. lia.
Qed.

(** X21.  The Delete button of a row keeps the row number it was created with.
    In a table that was built, the first deletion removes the row whose
    button was pressed; after it, the button of every row that was below the
    deleted one removes the row under its own (or none, for the last row),
    and leaves its own row in place. *)
Theorem delete_buttons_go_stale (self : list ActionPlanView.task_row) (i : nat) :
  built self -> (i < length self)%nat ->
  let after := ActionPlanView.click_delete Yes i self in
  after = ActionPlanView.removeRow i self /\
  forall j, (i <= j < length after)%nat ->
    ActionPlanView.click_delete Yes j after = ActionPlanView.removeRow (S j) after /\
    ActionPlanView.click_delete Yes j after !! j = after !! j.
Proof.
  intros Hbuilt Hi after.
  assert (Hafter : after = ActionPlanView.removeRow i self).
  { unfold after, ActionPlanView.click_delete.
    destruct (self !! i) as [r |] eqn:Hr.
    - rewrite (built_positions self Hbuilt i r Hr). reflexivity.
    - apply lookup_ge_None in Hr. lia. }
  split; [exact Hafter |].
  intros j [Hij Hj].
  assert (Hstale : ActionPlanView.click_delete Yes j after
                   = ActionPlanView.removeRow (S j) after).
  { unfold ActionPlanView.click_delete.
    destruct (after !! j) as [r |] eqn:Hr.
    - rewrite Hafter in Hr. unfold ActionPlanView.removeRow in Hr.
      rewrite list_lookup_delete_ge in Hr by exact Hij.
      rewrite (built_positions self Hbuilt (S j) r Hr). reflexivity.
    - apply lookup_ge_None in Hr. lia. }
  split; [exact Hstale |].
  rewrite Hstale. unfold ActionPlanView.removeRow. apply list_lookup_delete_lt. lia.
Qed.

Lemma delete_buttons_go_stale_witness :
  ActionPlanView.click_delete Yes 0 (ActionPlanView.click_delete Yes 0 three_rows)
  = ActionPlanView.removeRow 1 (ActionPlanView.click_delete Yes 0 three_rows).
Proof.
  refine (proj1 (proj2 (delete_buttons_go_stale three_rows 0 _ _) 0%nat _)).
  - apply (built_add (take 2 three_rows) _ None); [| reflexivity].
    apply (built_add (take 1 three_rows) _ None); [| reflexivity].
    apply (built_add [] _ None); [constructor | reflexivity].
  - simpl. lia.
  - simpl. lia.
Defined.

(** ** The progress bar of the table of tasks *)

Lemma load_step (task : ActionPlanTask.t) (tasks : list ActionPlanTask.t)
  (start : list ActionPlanView.task_row) :
  foldl (fun acc task => acc ≫= ActionPlanView._add_task_row (Some task))
    (Some start) (task :: tasks)
  = foldl (fun acc task => acc ≫= ActionPlanView._add_task_row (Some task))
      (ActionPlanView._add_task_row (Some task) start) tasks.
Proof. reflexivity. Qed.

Lemma load_failed (tasks : list ActionPlanTask.t) :
  foldl (fun acc task => acc ≫= ActionPlanView._add_task_row (Some task)) None tasks
  = None.
Proof. induction tasks as [| task tasks IH]; [reflexivity | exact IH]. Qed.

(** The rows that loading makes of tasks: one for each task, with its
    status. *)
Lemma load_data_rows (tasks : list ActionPlanTask.t) :
  forall start self,
    foldl (fun acc task => acc ≫= ActionPlanView._add_task_row (Some task))
      (Some start) tasks = Some self ->
    exists rows,
      self = start ++ rows /\
      map (fun r => Some (ActionPlanView.status_combo r)) rows
      = map ActionPlanTask.status tasks.
Proof.
  induction tasks as [| task tasks IH]; intros start self Hload.
  - injection Hload as <-. exists []. split; [symmetry; apply app_nil_r | reflexivity].
  - rewrite load_step in Hload.
    destruct (ActionPlanView._add_task_row (Some task) start) as [next |] eqn:Hadd.
    + apply IH in Hload as (rows & -> & Hrows).
      unfold ActionPlanView._add_task_row in Hadd.
      destruct (ActionPlanTask.task_description task) as [d |]; [| discriminate].
      destruct (ActionPlanTask.status task) as [s |] eqn:Hs; [| discriminate].
      destruct (ActionPlanTask.priority task); [| discriminate].
      injection Hadd as <-.
      eexists (_ :: rows). split; [rewrite <- app_assoc; reflexivity |].
      simpl. rewrite Hs, Hrows. reflexivity.
    + rewrite load_failed in Hload. discriminate.
Qed.

Lemma completed_rows (rows : list ActionPlanView.task_row)
  (tasks : list ActionPlanTask.t) :
  map (fun r => Some (ActionPlanView.status_combo r)) rows
  = map ActionPlanTask.status tasks ->
  length (filter (fun r => String.eqb (ActionPlanView.currentText r) "Completed" = true)
            rows)
  = length (filter (fun task => ActionPlanTask.is_completed task = true) tasks).
Proof.
  revert tasks. induction rows as [| r rows IH]; intros [| task tasks] Hmap;
    try discriminate; [reflexivity |].
  injection Hmap as Hr Hmap. specialize (IH tasks Hmap).
  assert (Hsame : String.eqb (ActionPlanView.currentText r) "Completed"
                  = ActionPlanTask.is_completed task).
  { unfold ActionPlanTask.is_completed, ActionPlanView.currentText. rewrite <- Hr.
    destruct (ActionPlanView.status_combo r); reflexivity. }
  destruct (ActionPlanTask.is_completed task) eqn:Hdone.
  - rewrite (filter_cons_True _ r) by exact Hsame.
    rewrite (filter_cons_True _ task) by exact Hdone.
    simpl. f_equal. exact IH.
  - rewrite (filter_cons_False _ r) by (rewrite Hsame; discriminate).
    rewrite (filter_cons_False _ task) by (rewrite Hdone; discriminate).
    exact IH.
Qed.

(** X22.  After the tasks of a plan are loaded into the table, the progress bar
    is given the value that [calculate_completion] computes for the plan. *)
Theorem progress_bar_agrees_with_plan (tasks : list ActionPlanTask.t)
  (self : list ActionPlanView.task_row) :
  ActionPlanView._load_data tasks = Some self ->
  ActionPlanView._update_progress self = calculate_completion tasks.
Proof.
  intros Hload. apply load_data_rows in Hload as (rows & -> & Hrows).
  simpl app. unfold ActionPlanView._update_progress, calculate_completion.
  rewrite (completed_rows rows tasks Hrows).
  assert (Hlen : length rows = length tasks).
  { apply (f_equal length) in Hrows. rewrite !length_map in Hrows. exact Hrows. }
  rewrite Hlen. destruct tasks as [| task tasks]; [reflexivity |].
  simpl truthy_list. simpl negb. cbv iota.
  destruct (Z.eqb_spec (Z.of_nat (length (task :: tasks))) 0) as [E | _];
    [simpl in E; lia |].
  destruct (Z.ltb_spec 0 (Z.of_nat (length (task :: tasks)))) as [_ | E];
    [reflexivity | simpl in E; lia].
Qed.

Lemma progress_bar_agrees_with_plan_witness :
  exists self,
    ActionPlanView._load_data (sample_tasks 1 2) = Some self /\
    ActionPlanView._update_progress self = calculate_completion (sample_tasks 1 2).
Proof.
  eexists. split; [reflexivity |].
  apply (progress_bar_agrees_with_plan (sample_tasks 1 2)). reflexivity.
Defined.

Lemma load_data_built (tasks : list ActionPlanTask.t) :
  forall start self,
    built start ->
    foldl (fun acc task => acc ≫= ActionPlanView._add_task_row (Some task))
      (Some start) tasks = Some self ->
    built self.
Proof.
  induction tasks as [| task tasks IH]; intros start self Hstart Hload.
  - injection Hload as <-. exact Hstart.
  - rewrite load_step in Hload.
    destruct (ActionPlanView._add_task_row (Some task) start) as [next |] eqn:Hadd.
    + apply (IH next self); [| exact Hload].
      apply (built_add start next (Some task)); assumption.
    + rewrite load_failed in Hload. discriminate.
Qed.

(** ** Ordered queries *)

Lemma text_leb_total (a b : str) : Sql.text_leb a b = true \/ Sql.text_leb b a = true.
Proof.
  revert b. induction a as [| x a IH]; intros [| y b]; simpl; auto.
  destruct (IH b) as [H | H]; rewrite H;
    destruct (Z.ltb_spec x y), (Z.ltb_spec y x), (Z.eqb_spec x y), (Z.eqb_spec y x);
    simpl; auto; lia.
Qed.

Lemma text_leb_trans (a b c : str) :
  Sql.text_leb a b = true -> Sql.text_leb b c = true -> Sql.text_leb a c = true.
Proof.
  revert b c. induction a as [| x a IH]; intros [| y b] [| z c]; simpl; auto;
    try discriminate.
  intros H1 H2.
  apply orb_true_iff in H1 as [H1 | H1]; apply orb_true_iff in H2 as [H2 | H2];
    try apply andb_true_iff in H1 as [E1 H1]; try apply andb_true_iff in H2 as [E2 H2];
    apply orb_true_iff.
  - left. lia.
  - left. lia.
  - left. lia.
  - right. apply andb_true_iff. split; [lia | eapply IH; eassumption].
Qed.

Lemma leb_total (a b : sqlvalue) : Sql.leb a b = true \/ Sql.leb b a = true.
Proof.
  destruct a as [| x | s], b as [| y | t]; simpl; auto.
  - destruct (Z.leb_spec x y), (Z.leb_spec y x); auto; lia.
  - apply text_leb_total.
Qed.

Lemma leb_refl (a : sqlvalue) : Sql.leb a a = true.
Proof. destruct (leb_total a a); assumption. Qed.

Lemma leb_trans (a b c : sqlvalue) :
  Sql.leb a b = true -> Sql.leb b c = true -> Sql.leb a c = true.
Proof.
  destruct a as [| x | s], b as [| y | t], c as [| z | u]; simpl; auto;
    try discriminate.
  - intros. lia.
  - apply text_leb_trans.
Qed.

Lemma insert_desc_perm (key : string) (r : row) (sorted : list row) :
  Sql.insert_desc key r sorted ≡ₚ r :: sorted.
Proof.
  induction sorted as [| x rest IH]; simpl; [reflexivity |].
  destruct (Sql.leb (column x key) (column r key)); [reflexivity |].
  rewrite IH. apply perm_swap.
Qed.

Lemma order_by_desc_perm (key : string) (rows : list row) :
  Sql.order_by_desc key rows ≡ₚ rows.
Proof.
  induction rows as [| r rows IH]; [reflexivity |].
  unfold Sql.order_by_desc in *. simpl. rewrite insert_desc_perm, IH. reflexivity.
Qed.

Lemma insert_desc_sorted (key : string) (r : row) (sorted : list row) :
  each_above_rest key sorted -> each_above_rest key (Sql.insert_desc key r sorted).
Proof.
  induction sorted as [| x rest IH]; intros Hs; simpl.
  - split; [constructor | exact I].
  - destruct Hs as [Hx Hrest].
    destruct (Sql.leb (column x key) (column r key)) eqn:Hle.
    + split; [| split; assumption].
      constructor; [exact Hle |].
      eapply Forall_impl; [exact Hx |]. intros y Hy. simpl in Hy.
      eapply leb_trans; eassumption.
    + split; [| apply IH, Hrest].
      rewrite insert_desc_perm. constructor; [| exact Hx].
      destruct (leb_total (column x key) (column r key)) as [H | H];
        [congruence | exact H].
Qed.

Lemma order_by_desc_sorted (key : string) (rows : list row) :
  each_above_rest key (Sql.order_by_desc key rows).
Proof.
  induction rows as [| r rows IH]; [exact I |].
  apply insert_desc_sorted, IH.
Qed.

Lemma sorted_descending (key : string) (rows : list row) :
  each_above_rest key rows -> descending key rows.
Proof.
  induction rows as [| x rest IH]; intros Hs i j ri rj Hij Hi Hj.
  - destruct i; discriminate.
  - destruct Hs as [Hx Hrest].
    destruct i as [| i], j as [| j]; simpl in Hi, Hj; try lia.
    + injection Hi as <-. injection Hj as <-. apply leb_refl.
    + injection Hi as <-. rewrite Forall_forall in Hx. apply Hx.
      eapply list_elem_of_lookup_2. exact Hj.
    + apply (IH Hrest i j); [lia | assumption | assumption].
Qed.

Lemma order_by_desc_descending (key : string) (rows : list row) :
  descending key (Sql.order_by_desc key rows).
Proof. apply sorted_descending, order_by_desc_sorted. Qed.

Lemma limit_returns (n : Z) (rows : list row) :
  - 2 ^ 63 <= n < 2 ^ 63 ->
  Sql.limit n rows = Returns (if n <? 0 then rows else take (Z.to_nat n) rows).
Proof.
  intros Hn. unfold Sql.limit.
  replace ((n <? - 2 ^ 63) || (2 ^ 63 <=? n)) with false; [reflexivity |].
  symmetry. apply orb_false_iff. split; [apply Z.ltb_ge | apply Z.leb_gt]; lia.
Qed.

Lemma limit_raises (n : Z) (rows : list row) :
  n < - 2 ^ 63 \/ 2 ^ 63 <= n -> Sql.limit n rows = Raises OverflowError.
Proof.
  intros Hn. unfold Sql.limit.
  replace ((n <? - 2 ^ 63) || (2 ^ 63 <=? n)) with true; [reflexivity |].
  symmetry. apply orb_true_iff.
  destruct Hn; [left; apply Z.ltb_lt | right; apply Z.leb_le]; lia.
Qed.

Lemma take_descending (key : string) (n : nat) (rows : list row) :
  descending key rows -> descending key (take n rows).
Proof.
  intros Hd i j ri rj Hij Hi Hj.
  apply lookup_take_Some in Hi as [Hi _]. apply lookup_take_Some in Hj as [Hj _].
  apply (Hd i j); assumption.
Qed.

(** ** Project queries *)

(** X23.  [get_by_status] returns exactly the projects whose status is the given
    one, each as often as it is stored, the most recently updated first;
    [get_completed_projects] and [get_in_progress_projects] are its cases
    for the two statuses, and no project is in both of their results. *)
Theorem get_by_status_exact (status : ProjectStatus) (db : database) :
  ProjectRepository.get_by_status status db
    ≡ₚ filter (fun r => column r "status" = TEXT (ProjectRepository.name status))
         (BaseRepository.get_all ProjectModel db) /\
  descending "updated_at" (ProjectRepository.get_by_status status db) /\
  ProjectRepository.get_completed_projects db
    = ProjectRepository.get_by_status COMPLETED db /\
  ProjectRepository.get_in_progress_projects db
    = ProjectRepository.get_by_status IN_PROGRESS db /\
  (forall r, r ∈ ProjectRepository.get_completed_projects db ->
             r ∉ ProjectRepository.get_in_progress_projects db).
Proof.
  split; [apply order_by_desc_perm |].
  split; [apply order_by_desc_descending |].
  split; [reflexivity |]. split; [reflexivity |].
  intros r Hc Hp.
  unfold ProjectRepository.get_completed_projects,
    ProjectRepository.get_in_progress_projects in *.
  rewrite order_by_desc_perm in Hc, Hp.
  apply list_elem_of_filter in Hc as [Hc _]. apply list_elem_of_filter in Hp as [Hp _].
  rewrite Hc in Hp. discriminate.
Qed.

(** X24.  [get_recent_projects] raises an [OverflowError] for a limit that does
    not fit 64 bits.  For another limit it returns projects of the table,
    the most recently updated first: as many as the limit allows (all of
    them under a negative limit), and none that was updated before a
    project left out. *)
Theorem get_recent_projects_most_recent (limit : Z) (db : database) :
  let all := BaseRepository.get_all ProjectModel db in
  (limit < - 2 ^ 63 \/ 2 ^ 63 <= limit ->
   ProjectRepository.get_recent_projects limit db = Raises OverflowError) /\
  (- 2 ^ 63 <= limit < 2 ^ 63 ->
   exists recent,
     ProjectRepository.get_recent_projects limit db = Returns recent /\
     descending "updated_at" recent /\
     (limit < 0 -> recent ≡ₚ all) /\
     (0 <= limit -> length recent = Nat.min (Z.to_nat limit) (length all)) /\
     (forall r, r ∈ recent -> r ∈ all) /\
     (forall r r', r ∈ recent -> r' ∈ all -> r' ∉ recent ->
                   Sql.leb (column r' "updated_at") (column r "updated_at") = true)).
Proof.
  intros all. unfold ProjectRepository.get_recent_projects.
  split; [apply limit_raises |].
  intros Hfits. rewrite limit_returns by exact Hfits.
  unfold all, BaseRepository.get_all. clear all.
  set (all := db ProjectModel).
  set (sorted := Sql.order_by_desc "updated_at" all).
  assert (Hperm : sorted ≡ₚ all) by apply order_by_desc_perm.
  assert (Hdesc : descending "updated_at" sorted) by apply order_by_desc_descending.
  eexists. split; [reflexivity |].
  destruct (Z.ltb_spec limit 0) as [Hneg | Hpos].
  - split; [exact Hdesc |].
    split; [intros _; exact Hperm |]. split; [lia |].
    split; [intros r Hr; rewrite Hperm in Hr; exact Hr |].
    intros r r' _ Hr' Hout. exfalso. apply Hout. rewrite <- Hperm in Hr'. exact Hr'.
  - split; [apply take_descending, Hdesc |].
    split; [lia |]. split.
    { intros _. rewrite length_take, <- (Permutation_length Hperm). reflexivity. }
    split.
    { intros r Hr. apply elem_of_take in Hr as (i & Hi & _).
      rewrite <- Hperm. eapply list_elem_of_lookup_2. exact Hi. }
    intros r r' Hr Hr' Hout.
    rewrite <- Hperm in Hr'. rewrite <- (take_drop (Z.to_nat limit) sorted) in Hr'.
    apply elem_of_app in Hr' as [Hr' | Hr']; [contradiction |].
    apply list_elem_of_lookup in Hr as [i Hi]. apply list_elem_of_lookup in Hr' as [j Hj].
    apply lookup_take_Some in Hi as [Hi Hlt]. rewrite lookup_drop in Hj.
    apply (Hdesc i (Z.to_nat limit + j)%nat); [lia | assumption | assumption].
Qed.

Lemma get_recent_projects_most_recent_witness :
  ProjectRepository.get_recent_projects (2 ^ 63) Sample.store = Raises OverflowError /\
  exists recent,
    ProjectRepository.get_recent_projects 1 Sample.store = Returns recent /\
    length recent = 1%nat.
Proof.
  destruct (get_recent_projects_most_recent (2 ^ 63) Sample.store) as [Hbig _].
  destruct (get_recent_projects_most_recent 1 Sample.store) as [_ Hone].
  split; [apply Hbig; right; lia |].
  destruct Hone as (recent & Hrecent & _ & _ & Hlen & _); [lia |].
  exists recent. split; [exact Hrecent |]. apply Hlen. lia.
Defined.

(** ** The e-mail pattern *)

(** A repetition matches when some run of characters of the set, of at
    least the minimum length, is followed by a match of the rest. *)
Lemma repeat_set_spec (ranges : list (codepoint * codepoint)) (k : nat -> str -> bool)
  (s : str) :
  forall min pos,
    Re.repeat_set ranges min pos s k = true <->
    exists run rest,
      s = run ++ rest /\ Forall (fun c => Re.in_set ranges c = true) run /\
      (min <= length run)%nat /\ k (pos + length run)%nat rest = true.
Proof.
  induction s as [| c s IH]; intros min pos.
  - simpl. rewrite andb_true_iff, Nat.eqb_eq. split.
    + intros [-> Hk]. exists [], []. rewrite Nat.add_0_r. repeat split; auto.
    + intros (run & rest & E & _ & Hmin & Hk).
      symmetry in E. apply app_eq_nil in E as [-> ->].
      simpl in *. rewrite Nat.add_0_r in Hk. split; [lia | exact Hk].
  - simpl. destruct (Re.in_set ranges c) eqn:Hc.
    + rewrite orb_true_iff, andb_true_iff, Nat.eqb_eq, IH. split.
      * intros [(run & rest & -> & Hrun & Hmin & Hk) | [-> Hk]].
        -- exists (c :: run), rest. repeat split.
           ++ constructor; assumption.
           ++ simpl. lia.
           ++ simpl. rewrite Nat.add_succ_r. exact Hk.
        -- exists [], (c :: s). rewrite Nat.add_0_r. repeat split; auto.
      * intros (run & rest & E & Hrun & Hmin & Hk).
        destruct run as [| c' run].
        -- right. simpl in *. subst rest. rewrite Nat.add_0_r in Hk.
           split; [lia | exact Hk].
        -- left. injection E as <- ->. inversion Hrun; subst.
           exists run, rest. repeat split; auto.
           ++ simpl in Hmin. lia.
           ++ simpl in Hk. rewrite Nat.add_succ_r in Hk. exact Hk.
    + rewrite andb_true_iff, Nat.eqb_eq. split.
      * intros [-> Hk]. exists [], (c :: s). rewrite Nat.add_0_r. repeat split; auto.
      * intros (run & rest & E & Hrun & Hmin & Hk).
        destruct run as [| c' run].
        -- simpl in *. subst rest. rewrite Nat.add_0_r in Hk. split; [lia | exact Hk].
        -- injection E as <- ->. inversion Hrun; subst. congruence.
Qed.

(** What [is_valid_email] accepts: characters of the first set, an at
    sign, characters of the second set, a dot, two letters or more, and
    nothing else but a line break at the very end. *)
Lemma is_valid_email_spec (email : str) :
  Validators.is_valid_email email = true <->
  exists local domain tld nl,
    email = local ++ Validators.AT_SIGN :: domain ++ Validators.DOT :: tld ++ nl /\
    Forall (fun c => Re.in_set Validators.local_set c = true) local /\
    (1 <= length local)%nat /\
    Forall (fun c => Re.in_set Validators.domain_set c = true) domain /\
    (1 <= length domain)%nat /\
    Forall (fun c => Re.in_set Validators.letters c = true) tld /\
    (2 <= length tld)%nat /\
    (nl = [] \/ nl = [10]).
Proof.
  unfold Validators.is_valid_email, Re.matches, Validators.pattern.
  cbn [Re.match_at]. change (0 =? 0)%nat with true. cbn [andb].
  rewrite repeat_set_spec. split.
  - intros (local & rest & -> & Hlocal & Hl & Hk).
    destruct rest as [| c rest]; [discriminate |].
    apply andb_true_iff in Hk as [Hat Hk]. apply Z.eqb_eq in Hat as ->.
    apply repeat_set_spec in Hk as (domain & rest' & -> & Hdomain & Hd & Hk).
    destruct rest' as [| c rest']; [discriminate |].
    apply andb_true_iff in Hk as [Hdot Hk]. apply Z.eqb_eq in Hdot as ->.
    apply repeat_set_spec in Hk as (tld & nl & -> & Htld & Ht & Hk).
    exists local, domain, tld, nl. repeat split; auto.
    destruct nl as [| c [| ? ?]]; [left; reflexivity | right | discriminate].
    apply andb_true_iff in Hk as [Hnl _]. apply Z.eqb_eq in Hnl as ->. reflexivity.
  - intros (local & domain & tld & nl & -> & Hlocal & Hl & Hdomain & Hd & Htld & Ht & Hnl).
    exists local, (Validators.AT_SIGN :: domain ++ Validators.DOT :: tld ++ nl).
    repeat split; auto.
    apply andb_true_iff. split; [apply Z.eqb_refl |].
    apply repeat_set_spec.
    exists domain, (Validators.DOT :: tld ++ nl). repeat split; auto.
    apply andb_true_iff. split; [apply Z.eqb_refl |].
    apply repeat_set_spec. exists tld, nl. repeat split; auto.
    destruct Hnl as [-> | ->]; reflexivity.
Qed.

Lemma in_set_ascii (c : codepoint) :
  Re.in_set Validators.local_set c = true \/ Re.in_set Validators.domain_set c = true
  \/ Re.in_set Validators.letters c = true ->
  33 <= c <= 126 /\ c <> Validators.AT_SIGN.
Proof.
  unfold Re.in_set, Validators.local_set, Validators.domain_set, Validators.letters,
    Validators.digits, Validators.AT_SIGN.
  simpl. lia.
Qed.

Lemma set_no_at (ranges : list (codepoint * codepoint)) (s : str) :
  ranges = Validators.local_set \/ ranges = Validators.domain_set
  \/ ranges = Validators.letters ->
  Forall (fun c => Re.in_set ranges c = true) s ->
  Forall (fun c => 33 <= c <= 126) s /\ Validators.AT_SIGN ∉ s.
Proof.
  intros Hr Hs. split.
  - eapply Forall_impl; [exact Hs |]. intros c Hc.
    apply in_set_ascii. destruct Hr as [-> | [-> | ->]]; auto.
  - intros Hin. rewrite Forall_forall in Hs. specialize (Hs _ Hin).
    assert (Validators.AT_SIGN <> Validators.AT_SIGN); [| congruence].
    apply in_set_ascii. destruct Hr as [-> | [-> | ->]]; auto.
Qed.

(** X25.  An address that [is_valid_email] accepts has exactly one at sign, with
    something before it; it consists of printable ASCII characters without a
    space, except that it may end with a line break; and an accepted address
    that does not end with a line break is still accepted with one added. *)
Theorem valid_email_shape (email : str) :
  Validators.is_valid_email email = true ->
  (exists local rest,
     email = local ++ Validators.AT_SIGN :: rest /\ local <> [] /\
     (Validators.AT_SIGN ∉ local) /\ (Validators.AT_SIGN ∉ rest)) /\
  (exists body nl,
     email = body ++ nl /\ (nl = [] \/ nl = [10]) /\
     Forall (fun c => 33 <= c <= 126) body) /\
  (last email <> Some 10 -> Validators.is_valid_email (email ++ [10]) = true).
Proof.
  intros Hvalid.
  apply is_valid_email_spec in Hvalid
    as (local & domain & tld & nl & -> & Hlocal & Hl & Hdomain & Hd & Htld & Ht & Hnl).
  destruct (set_no_at _ local (or_introl eq_refl) Hlocal) as [Al Nl].
  destruct (set_no_at _ domain (or_intror (or_introl eq_refl)) Hdomain) as [Ad Nd].
  destruct (set_no_at _ tld (or_intror (or_intror eq_refl)) Htld) as [At Nt].
  split; [| split].
  - exists local, (domain ++ Validators.DOT :: tld ++ nl).
    split; [reflexivity |]. split; [destruct local; [simpl in Hl; lia | discriminate] |].
    split; [exact Nl |].
    rewrite !elem_of_app, elem_of_cons, elem_of_app.
    intros [H | [H | [H | H]]]; try contradiction; [discriminate |].
    destruct Hnl as [-> | ->]; [inversion H |].
    apply list_elem_of_singleton in H. discriminate.
  - exists (local ++ Validators.AT_SIGN :: domain ++ Validators.DOT :: tld), nl.
    split; [rewrite <- !app_assoc; simpl; rewrite <- !app_assoc; reflexivity |].
    split; [exact Hnl |].
    apply Forall_app. split; [exact Al |]. constructor; [unfold Validators.AT_SIGN; lia |].
    apply Forall_app. split; [exact Ad |]. constructor; [unfold Validators.DOT; lia |].
    exact At.
  - intros Hlast. apply is_valid_email_spec.
    assert (nl = []) as ->.
    { destruct Hnl as [-> | ->]; [reflexivity |]. exfalso. apply Hlast.
      rewrite !app_comm_cons, !app_assoc. apply last_snoc. }
    exists local, domain, tld, [10]. rewrite app_nil_r.
    split; [rewrite <- !app_assoc; simpl; rewrite <- !app_assoc; reflexivity |].
    repeat split; auto.
Qed.

Lemma valid_email_shape_witness :
  Validators.is_valid_email (Json.lit "jane.doe@example.com" ++ [10]) = true.
Proof.
  refine (proj2 (proj2 (valid_email_shape (Json.lit "jane.doe@example.com") _)) _).
  - vm_compute. reflexivity.
  - vm_compute. discriminate.
Defined.

(** ** Rows and keys *)




(** ** Creating a record *)







(** ** Writing a record *)












(** ** Completing a saved artifact *)

Section MarkCompleteWritten.

Context {T : Type} `{Artifact T}.
Variable uuid4 utcnow today : str.
Variable refresh : database -> Project.t -> Project.t.

Hypothesis state_id : forall a, column (state a) "id" = sql_str (get_id a).
Hypothesis state_set :
  forall a, state (set_is_completed a) = <["is_completed" := INTEGER 1]> (state a).
Hypothesis set_keeps_id : forall a, get_id (set_is_completed a) = get_id a.
Hypothesis set_sets_flag : forall a, get_is_completed (set_is_completed a) = Some true.
Hypothesis flag_column : "is_completed" ∈ columns mapped.


End MarkCompleteWritten.



(** An artifact with an id under which nothing is stored: the insertion
    that the update comes to lacks the project and the problem statement,
    the error is shown, the store is left as it was, and the button stays
    enabled. *)
Lemma mark_complete_ghost :
  match
    View.mark_complete (Json.lit "F3") (Json.lit "2024-05-01 08:00:00.000000")
      (Json.lit "2024-05-01") (fun _ p => p) Yes ghost_view Sample.store
  with
  | (view, db, dialogs) =>
      dialogs = [question "Mark as Complete" "Mark this 5 Whys analysis as complete?";
                 critical "Error" IntegrityError] /\
      BaseRepository.get_by_id FiveWhysModel (Json.lit "F9") db = None /\
      length (db FiveWhysModel) = 2%nat /\
      option_map FiveWhys.is_completed (View.artifact view) = Some (Some true) /\
      View.mark_complete_btn_enabled view = true
  end.
Proof. vm_compute. repeat split; reflexivity. Qed.

(** ** From the form to the table *)





